(** * SVUnit (Python port): discovery, code generation, manifest and backends

  A shallow embedding of [bin/svunit/codegen.py], [bin/svunit/discovery.py],
  [bin/svunit/simulators.py] and the run mode of [bin/svunit/main.py],
  followed by the properties of the design document that were checked
  against it.

  Conventions.
  - Text is a list of characters.  File contents are taken to be ASCII:
    the character classes below are Python's [\s], [\w] and [.] on code
    points below 128; codes from 128 on belong to no class but [.].  The
    content of a file is the text that reading it in text mode gives.
  - Python lists are Rocq lists, [None] is [None], a dict is an association
    list in insertion order.  Where the code mutates [self], the function
    returns the new [self].
  - A path is the list of its components; [..] is kept as a component and
    is not interpreted.  The file system is a tree whose directories list
    their entries in the order in which the system yields them.
  - Effects are threaded through a [world]: files written, write by write,
    directories made, commands started.  A step returns or raises.  What
    is printed is not recorded. *)

From Stdlib Require Import Ascii String Bool Arith Lia List Permutation.
Import ListNotations.

(** ** Text *)

Definition text := list ascii.

Definition txt (s : string) : text := list_ascii_of_string s.

Module Text.

(** [s.startswith(p)] *)
Fixpoint starts_with (p s : text) : bool :=
  match p, s with
  | [], _ => true
  | _ :: _, [] => false
  | a :: p', b :: s' => Ascii.eqb a b && starts_with p' s'
  end.

(** [s.endswith(p)] *)
Definition ends_with (p s : text) : bool := starts_with (rev p) (rev s).

(** [p in s] *)
Fixpoint contains (p s : text) : bool :=
  starts_with p s ||
  match s with
  | [] => false
  | _ :: s' => contains p s'
  end.

Fixpoint eqb (a b : text) : bool :=
  match a, b with
  | [], [] => true
  | x :: a', y :: b' => Ascii.eqb x y && eqb a' b'
  | _, _ => false
  end.

(** [sep.join(l)] *)
Fixpoint join (sep : text) (l : list text) : text :=
  match l with
  | [] => []
  | [x] => x
  | x :: l' => x ++ sep ++ join sep l'
  end.

(** The scan of [s.replace(old, new)] for a non-empty [old]: occurrences
    are taken from left to right and do not overlap.  [skip] counts the
    characters of the occurrence just replaced that are still to be
    passed over. *)
Fixpoint replace_from (old new : text) (skip : nat) (s : text) : text :=
  match s with
  | [] => []
  | c :: s' =>
      match skip with
      | S k => replace_from old new k s'
      | O =>
          if starts_with old s
          then new ++ replace_from old new (length old - 1) s'
          else c :: replace_from old new 0 s'
      end
  end.

(** [s.replace(old, new)].  An empty [old] matches between any two
    characters and at both ends. *)
Definition replace (old new s : text) : text :=
  match old with
  | [] => new ++ flat_map (fun c => c :: new) s
  | _ :: _ => replace_from old new 0 s
  end.

End Text.

(** ** The fragment of Python's [re] used by the code generator

  Every repetition in the patterns of [codegen.py] is over a single
  character class, so a pattern is a sequence of atoms and the matcher is
  the backtracking matcher of [re] restricted to such sequences. *)

Module Re.

Definition nl : ascii := ascii_of_nat 10.

(** [\s] *)
Definition is_space (c : ascii) : bool :=
  let n := nat_of_ascii c in
  ((9 <=? n) && (n <=? 13)) || ((28 <=? n) && (n <=? 32)).

(** [\w] *)
Definition is_word (c : ascii) : bool :=
  let n := nat_of_ascii c in
  ((48 <=? n) && (n <=? 57)) || ((65 <=? n) && (n <=? 90))
  || (n =? 95) || ((97 <=? n) && (n <=? 122)).

(** [.] without [re.DOTALL] *)
Definition dot (c : ascii) : bool := negb (Ascii.eqb c nl).

(** [.] with [re.DOTALL] *)
Definition dot_all (_ : ascii) : bool := true.

Inductive atom : Type :=
| Lit (c : ascii)               (* the character itself *)
| Cls (p : ascii -> bool)       (* one character of a class *)
| StarG (p : ascii -> bool)     (* [p*], greedy *)
| StarL (p : ascii -> bool)     (* [p*?], lazy *)
| Bol                           (* [^] under [re.MULTILINE] *)
| WordB                         (* [\b] *)
| GOpen                         (* [(] of group 1 *)
| GClose.                       (* [)] of group 1 *)

Definition pattern := list atom.

Definition lit (s : string) : pattern := map Lit (txt s).

(** [p+], greedy *)
Definition plusG (p : ascii -> bool) : pattern := [Cls p; StarG p].

(** A match: the text left after it and, when the group took part, the
    texts that were left when the group was entered and when it was left. *)
Record mres : Type := MRes {
  m_rest : text;
  m_open : option text;
  m_close : option text
}.

Definition at_bol (prev : option ascii) : bool :=
  match prev with
  | None => true
  | Some c => Ascii.eqb c nl
  end.

Definition word_before (prev : option ascii) : bool :=
  match prev with
  | None => false
  | Some c => is_word c
  end.

Definition word_after (s : text) : bool :=
  match s with
  | [] => false
  | c :: _ => is_word c
  end.

Definition at_boundary (prev : option ascii) (s : text) : bool :=
  xorb (word_before prev) (word_after s).

(** [match_here r prev s]: the first match of [r] found by backtracking at
    the start of [s], the character before [s] being [prev]. *)
Fixpoint match_here (r : pattern) : option ascii -> text -> option mres :=
  match r with
  | [] => fun _ s => Some (MRes s None None)
  | Lit c :: r' =>
      fun _ s =>
        match s with
        | x :: s' => if Ascii.eqb c x then match_here r' (Some x) s' else None
        | [] => None
        end
  | Cls p :: r' =>
      fun _ s =>
        match s with
        | x :: s' => if p x then match_here r' (Some x) s' else None
        | [] => None
        end
  | StarG p :: r' =>
      fix star (prev : option ascii) (s : text) {struct s} : option mres :=
        match s with
        | x :: s' =>
            if p x then
              match star (Some x) s' with
              | Some m => Some m
              | None => match_here r' prev s
              end
            else match_here r' prev s
        | [] => match_here r' prev s
        end
  | StarL p :: r' =>
      fix star (prev : option ascii) (s : text) {struct s} : option mres :=
        match match_here r' prev s with
        | Some m => Some m
        | None =>
            match s with
            | x :: s' => if p x then star (Some x) s' else None
            | [] => None
            end
        end
  | Bol :: r' =>
      fun prev s => if at_bol prev then match_here r' prev s else None
  | WordB :: r' =>
      fun prev s => if at_boundary prev s then match_here r' prev s else None
  | GOpen :: r' =>
      fun prev s =>
        match match_here r' prev s with
        | Some m => Some (MRes (m_rest m) (Some s) (m_close m))
        | None => None
        end
  | GClose :: r' =>
      fun prev s =>
        match match_here r' prev s with
        | Some m => Some (MRes (m_rest m) (m_open m) (Some s))
        | None => None
        end
  end.

(** [match.group(1)] *)
Definition group1 (m : mres) : option text :=
  match m_open m, m_close m with
  | Some o, Some c => Some (firstn (length o - length c) o)
  | _, _ => None
  end.

(** [re.search(r, s)]: the match at the leftmost position that has one. *)
Fixpoint search_from (r : pattern) (prev : option ascii) (s : text)
  : option mres :=
  match match_here r prev s with
  | Some m => Some m
  | None =>
      match s with
      | [] => None
      | x :: s' => search_from r (Some x) s'
      end
  end.

Definition search (r : pattern) (s : text) : option mres :=
  search_from r None s.

(** The scan of [re.sub(r, repl, s)].  [skip] counts the characters of
    the match just replaced that are still to be passed over.  An empty
    match is replaced and the scan moves on by one character. *)
Fixpoint sub_from (r : pattern) (repl : text) (skip : nat)
    (prev : option ascii) (s : text) : text :=
  match s with
  | [] =>
      match skip with
      | O => match match_here r prev [] with
             | Some _ => repl
             | None => []
             end
      | S _ => []
      end
  | x :: s' =>
      match skip with
      | S k => sub_from r repl k (Some x) s'
      | O =>
          match match_here r prev s with
          | Some m =>
              match length s - length (m_rest m) with
              | O => repl ++ x :: sub_from r repl 0 (Some x) s'
              | S k => repl ++ sub_from r repl k (Some x) s'
              end
          | None => x :: sub_from r repl 0 (Some x) s'
          end
      end
  end.

Definition sub (r : pattern) (repl s : text) : text :=
  sub_from r repl 0 None s.

End Re.

(** ** Paths and the file system *)

Module FS.

(** A resolved absolute path, as its components: [/a/b] is [[a; b]]. *)
Definition path := list text.

Definition text_eq_dec : forall a b : text, {a = b} + {a <> b} :=
  list_eq_dec ascii_dec.

Definition path_eq_dec : forall a b : path, {a = b} + {a <> b} :=
  list_eq_dec text_eq_dec.

(** [str(p)] *)
Definition str (p : path) : text :=
  txt "/" ++ Text.join (txt "/") p.

(** [p.parent] *)
Definition parent (p : path) : path := removelast p.

(** [p.name] *)
Definition name (p : path) : text := last p [].

(** The components of a path written as text; empty components and [.]
    are dropped as [pathlib] does, [..] is kept as it is. *)
Fixpoint split_from (cur : text) (s : text) : list text :=
  match s with
  | [] => [rev cur]
  | c :: s' =>
      if Ascii.eqb c "/"
      then rev cur :: split_from [] s'
      else split_from (c :: cur) s'
  end.

Definition components (s : text) : list text :=
  filter (fun c => negb (Text.eqb c [] || Text.eqb c (txt "."))) (split_from [] s).

(** [d / s] for a resolved directory [d] *)
Definition div (d : path) (s : text) : path :=
  if Text.starts_with (txt "/") s then components s else d ++ components s.

(** An entry of a directory: a file with its content, or a directory with
    its entries in the order in which the system lists them. *)
#[local] Unset Elimination Schemes.
Inductive node : Type :=
| File (n : text) (content : text)
| Dir (n : text) (entries : list node).
#[local] Set Elimination Schemes.

Definition node_name (e : node) : text :=
  match e with
  | File n _ => n
  | Dir n _ => n
  end.

Fixpoint find_entry (n : text) (es : list node) : option node :=
  match es with
  | [] => None
  | e :: es' => if text_eq_dec (node_name e) n then Some e else find_entry n es'
  end.

(** The node at path [p] below the root directory [t]. *)
Fixpoint lookup (p : path) (t : node) : option node :=
  match p with
  | [] => Some t
  | c :: p' =>
      match t with
      | File _ _ => None
      | Dir _ es =>
          match find_entry c es with
          | Some e => lookup p' e
          | None => None
          end
      end
  end.

(** [fnmatch(n, "*_unit_test.sv")] *)
Definition is_unit_test_name (n : text) : bool :=
  Text.ends_with (txt "_unit_test.sv") n.

(** [dir.rglob("*_unit_test.sv")] for the directory [t] at path [dir]: the
    matching entries of the directory itself, then those of each
    sub-directory in turn. *)
Fixpoint rglob (dir : path) (t : node) : list path :=
  match t with
  | File _ _ => []
  | Dir _ es =>
      map (fun e => dir ++ [node_name e])
          (filter (fun e => is_unit_test_name (node_name e)) es)
      ++ flat_map (fun e => rglob (dir ++ [node_name e]) e) es
  end.

(** The number of entries below [t] whose name has the suffix. *)
Fixpoint count_matching (t : node) : nat :=
  match t with
  | File _ _ => 0
  | Dir _ es =>
      length (filter (fun e => is_unit_test_name (node_name e)) es)
      + list_sum (map count_matching es)
  end.

(** The number of directories, [t] included, that hold at least one entry
    whose name has the suffix. *)
Fixpoint count_parents (t : node) : nat :=
  match t with
  | File _ _ => 0
  | Dir _ es =>
      (if existsb (fun e => is_unit_test_name (node_name e)) es then 1 else 0)
      + list_sum (map count_parents es)
  end.

Fixpoint distinct (l : list text) : bool :=
  match l with
  | [] => true
  | x :: l' => negb (existsb (Text.eqb x) l') && distinct l'
  end.

(** No directory lists a name twice. *)
Fixpoint well_formed (t : node) : bool :=
  match t with
  | File _ _ => true
  | Dir _ es => distinct (map node_name es) && forallb well_formed es
  end.

(** The directories, [t] at path [dir] included, that hold at least one
    entry whose name has the suffix. *)
Fixpoint match_dirs (dir : path) (t : node) : list path :=
  match t with
  | File _ _ => []
  | Dir _ es =>
      (if existsb (fun e => is_unit_test_name (node_name e)) es
       then [dir] else [])
      ++ flat_map (fun e => match_dirs (dir ++ [node_name e]) e) es
  end.

End FS.

(** ** [discovery.py] *)

Module Discovery.

Import FS.

Record TestDiscovery : Type := mkTestDiscovery {
  directories : list path;
  tests : option (list text);
  found_tests : list path
}.

(** [if self.tests:] *)
Definition has_tests (o : option (list text)) : bool :=
  match o with
  | Some (_ :: _) => true
  | _ => false
  end.

Definition exists_ (root : node) (p : path) : bool :=
  match lookup p root with
  | Some _ => true
  | None => false
  end.

(** One turn of the loop over the requested tests. *)
Definition find_named_test (root : node) (directory : path)
    (found : list path) (test : text) : list path :=
  let test_path := div directory test in
  if exists_ root test_path then found ++ [test_path]
  else if negb (Text.ends_with (txt "_unit_test.sv") test) then
    let test_path_suffix := div directory (test ++ txt "_unit_test.sv") in
    if exists_ root test_path_suffix then found ++ [test_path_suffix]
    else found
  else found.

(** [_find_tests_in_directory]: [found] is [self.found_tests] before the
    call, the result is [self.found_tests] after it. *)
Definition _find_tests_in_directory (root : node)
    (tests : option (list text)) (found : list path) (directory : path)
  : list path :=
  match lookup directory root with
  | None => found
  | Some t =>
      if has_tests tests then
        fold_left (find_named_test root directory)
                  (match tests with Some l => l | None => [] end) found
      else
        fold_left (fun found test_file => found ++ [test_file])
                  (rglob directory t) found
  end.

Definition discover (root : node) (d : TestDiscovery) : TestDiscovery :=
  mkTestDiscovery (directories d) (tests d)
    (fold_left (_find_tests_in_directory root (tests d)) (directories d) []).

(** The [dict] of [get_test_suites]: keys in insertion order. *)
Definition suites_dict := list (path * list path).

Fixpoint dict_mem (k : path) (d : suites_dict) : bool :=
  match d with
  | [] => false
  | (k', _) :: d' => if path_eq_dec k k' then true else dict_mem k d'
  end.

Fixpoint dict_get (k : path) (d : suites_dict) : list path :=
  match d with
  | [] => []
  | (k', v) :: d' => if path_eq_dec k k' then v else dict_get k d'
  end.

(** [d[k] = v]: a new key goes last, a known key keeps its place. *)
Fixpoint dict_set (k : path) (v : list path) (d : suites_dict) : suites_dict :=
  match d with
  | [] => [(k, v)]
  | (k', v') :: d' =>
      if path_eq_dec k k' then (k', v) :: d' else (k', v') :: dict_set k v d'
  end.

Definition add_test_file (suites : suites_dict) (test_file : path)
  : suites_dict :=
  let parent_dir := parent test_file in
  let suites :=
    if dict_mem parent_dir suites then suites
    else dict_set parent_dir [] suites in
  dict_set parent_dir (dict_get parent_dir suites ++ [test_file]) suites.

Definition get_test_suites (d : TestDiscovery) : suites_dict :=
  fold_left add_test_file (found_tests d) [].

(** The distinct elements of a list, each at its first occurrence. *)
Fixpoint first_seen (l : list path) : list path :=
  match l with
  | [] => []
  | x :: l' =>
      x :: filter (fun y => if path_eq_dec y x then false else true)
                  (first_seen l')
  end.

Definition with_parent (k : path) (l : list path) : list path :=
  filter (fun f => if path_eq_dec (parent f) k then true else false) l.

End Discovery.

(** ** The world of a run

  What a run reads and changes: the file system it starts from, the
  directories it makes, the files it opens for writing with every
  [write] made to each, and the commands it hands to the shell.  A step
  is a function of the world that either returns or raises; what is
  printed is not recorded. *)

Module Run.

Import FS.

Record world : Type := mkWorld {
  w_root : node;                        (* the file system at the start *)
  w_cwd : path;                         (* [Path.cwd()] *)
  w_install : text;                     (* the installation root, as text *)
  w_made : list path;                   (* directories made *)
  w_files : list (path * list text);    (* files written, write by write *)
  w_launched : list text;               (* commands started, in order *)
  w_exit : text -> nat                  (* the exit status of a command *)
}.

Definition M (A : Type) : Type := world -> option A * world.

Definition ret {A : Type} (a : A) : M A := fun w => (Some a, w).

Definition raise {A : Type} : M A := fun w => (None, w).

Definition bind {A B : Type} (m : M A) (k : A -> M B) : M B :=
  fun w =>
    match m w with
    | (Some a, w') => k a w'
    | (None, w') => (None, w')
    end.

Fixpoint store_get (p : path) (st : list (path * list text))
  : option (list text) :=
  match st with
  | [] => None
  | (q, v) :: st' => if path_eq_dec p q then Some v else store_get p st'
  end.

Fixpoint store_set (p : path) (v : list text) (st : list (path * list text))
  : list (path * list text) :=
  match st with
  | [] => [(p, v)]
  | (q, v') :: st' =>
      if path_eq_dec p q then (q, v) :: st' else (q, v') :: store_set p v st'
  end.

Definition set_files (w : world) (st : list (path * list text)) : world :=
  mkWorld (w_root w) (w_cwd w) (w_install w) (w_made w) st
          (w_launched w) (w_exit w).

(** [open(p, 'w')] *)
Definition open_w (p : path) : M unit :=
  fun w => (Some tt, set_files w (store_set p [] (w_files w))).

(** [f.write(chunk)] on the file opened at [p] *)
Definition write (p : path) (chunk : text) : M unit :=
  fun w =>
    let old := match store_get p (w_files w) with
               | Some l => l
               | None => []
               end in
    (Some tt, set_files w (store_set p (old ++ [chunk]) (w_files w))).

Fixpoint write_all (p : path) (chunks : list text) : M unit :=
  match chunks with
  | [] => ret tt
  | c :: chunks' => bind (write p c) (fun _ => write_all p chunks')
  end.

(** [open(p, 'r').read()]: raises when [p] is not a file. *)
Definition read_file (p : path) : M text :=
  fun w =>
    match store_get p (w_files w) with
    | Some chunks => (Some (concat chunks), w)
    | None =>
        match lookup p (w_root w) with
        | Some (File _ c) => (Some c, w)
        | _ => (None, w)
        end
    end.

(** [p.exists()] *)
Definition path_exists (p : path) : M bool :=
  fun w =>
    (Some (match store_get p (w_files w) with
           | Some _ => true
           | None =>
               match lookup p (w_root w) with
               | Some _ => true
               | None => if in_dec path_eq_dec p (w_made w) then true else false
               end
           end), w).

(** [p.mkdir(parents=True)] *)
Definition mkdir (p : path) : M unit :=
  fun w =>
    (Some tt, mkWorld (w_root w) (w_cwd w) (w_install w) (w_made w ++ [p])
                      (w_files w) (w_launched w) (w_exit w)).

(** [subprocess.call(cmd, shell=True, ...)] *)
Definition call (cmd : text) : M nat :=
  fun w =>
    (Some (w_exit w cmd),
     mkWorld (w_root w) (w_cwd w) (w_install w) (w_made w) (w_files w)
             (w_launched w ++ [cmd]) (w_exit w)).

Definition get_cwd : M path := fun w => (Some (w_cwd w), w).

Definition get_install : M text := fun w => (Some (w_install w), w).

Definition get_root : M node := fun w => (Some (w_root w), w).

(** The writes made to [p], none when it was not opened. *)
Definition writes_of (w : world) (p : path) : list text :=
  match store_get p (w_files w) with
  | Some l => l
  | None => []
  end.

(** What has been written to [p], as one text. *)
Definition content_of (w : world) (p : path) : option text :=
  option_map (@concat ascii) (store_get p (w_files w)).

End Run.

Declare Scope run_scope.
Delimit Scope run_scope with run.
Notation "x <- c ;; k" := (Run.bind c (fun x => k))
(at level 61, c at next level, right associativity) : run_scope.
Notation "c ;;; k" := (Run.bind c (fun _ => k))
(at level 61, right associativity) : run_scope.

(** ** [codegen.py]: extraction of the module name *)

Module CodeGen.

Import Re FS Run.
Local Open Scope run_scope.

(** [r'//.*'] *)
Definition re_line_comment : pattern := lit "//" ++ [StarG dot].

(** [r'/\*.*?\*/'] with [re.DOTALL] *)
Definition re_block_comment : pattern :=
  lit "/*" ++ [StarL dot_all] ++ lit "*/".

(** [r'\bstatic\b'] *)
Definition re_static : pattern := [WordB] ++ lit "static" ++ [WordB].

(** [r'\bautomatic\b'] *)
Definition re_automatic : pattern := [WordB] ++ lit "automatic" ++ [WordB].

(** [r'^\s*module\s+(\w+_unit_test)\s*;'] with [re.MULTILINE] *)
Definition re_module : pattern :=
  [Bol; StarG is_space] ++ lit "module" ++ plusG is_space
  ++ [GOpen] ++ plusG is_word ++ lit "_unit_test" ++ [GClose]
  ++ [StarG is_space] ++ lit ";".

Definition strip_line_comments (content : text) : text :=
  sub re_line_comment [] content.

Definition strip_block_comments (content : text) : text :=
  sub re_block_comment [] content.

Definition strip_keywords (content : text) : text :=
  sub re_automatic [] (sub re_static [] content).

(** The body of [_parse_unit_test_name] after the file has been read. *)
Definition parse_content (content : text) : option text :=
  let content := strip_line_comments content in
  let content := strip_block_comments content in
  let content := strip_keywords content in
  match search re_module content with
  | Some m => group1 m
  | None => None
  end.



Definition nl : text := [Re.nl].

(** The double quote *)
Definition dq : text := [ascii_of_nat 34].

(** [if s:] for a string that may be [None] *)
Definition truthy (o : option text) : bool :=
  match o with
  | Some (_ :: _) => true
  | _ => false
  end.

Definition _parse_unit_test_name (file_path : path) : M (option text) :=
  content <- read_file file_path ;;
  ret (parse_content content).

Fixpoint rfind (c : ascii) (s : text) (i : nat) (found : option nat)
  : option nat :=
  match s with
  | [] => found
  | x :: s' => rfind c s' (S i) (if Ascii.eqb x c then Some i else found)
  end.

(** [p.stem] *)
Definition stem (p : path) : text :=
  let n := name p in
  match rfind "." n 0 None with
  | Some i => if (0 <? i) && (i <? length n - 1) then firstn i n else n
  | None => n
  end.

(** The instance name of a unit test module. *)
Definition unit_test_instance (module_name : text) : text :=
  Text.replace (txt "_unit_test") (txt "_ut") module_name.

(** The instance name of a test suite. *)
Definition suite_instance (name : text) : text :=
  Text.replace (txt "_testsuite") (txt "_ts") name.

(** The first loop of [create_testsuite]: the module names found and
    their instance names. *)
Fixpoint collect_unit_tests (unit_tests : list path)
    (unit_test_classes unit_test_instances : list text)
  : M (list text * list text) :=
  match unit_tests with
  | [] => ret (unit_test_classes, unit_test_instances)
  | ut :: rest =>
      module_name <- _parse_unit_test_name ut ;;
      if truthy module_name then
        let m := match module_name with Some m => m | None => [] end in
        collect_unit_tests rest
          (unit_test_classes ++ [m])
          (unit_test_instances ++ [unit_test_instance m])
      else collect_unit_tests rest unit_test_classes unit_test_instances
  end.

(** The writes of [create_testsuite], one element for each [f.write]. *)
Definition testsuite_writes (class_name instance_name : text)
    (unit_test_classes unit_test_instances : list text) : list text :=
  [ txt "module " ++ class_name ++ txt ";" ++ nl;
    txt "  import svunit_pkg::svunit_testsuite;" ++ nl ++ nl;
    txt "  string name = " ++ dq ++ instance_name ++ dq ++ txt ";" ++ nl;
    txt "  svunit_testsuite svunit_ts;" ++ nl;
    txt "  " ++ nl;
    txt "  " ++ nl;
    txt "  //===================================" ++ nl;
    txt "  // These are the unit tests that we" ++ nl;
    txt "  // want included in this testsuite" ++ nl;
    txt "  //===================================" ++ nl ]
  ++ map (fun '(cls, inst) => txt "  " ++ cls ++ txt " " ++ inst ++ txt "();" ++ nl)
         (combine unit_test_classes unit_test_instances)
  ++ [ nl ++ nl;
       txt "  //===================================" ++ nl;
       txt "  // Build" ++ nl;
       txt "  //===================================" ++ nl;
       txt "  function void build();" ++ nl ]
  ++ flat_map (fun inst =>
                 [ txt "    " ++ inst ++ txt ".build();" ++ nl;
                   txt "    " ++ inst ++ txt ".__register_tests();" ++ nl ])
              unit_test_instances
  ++ [ txt "    svunit_ts = new(name);" ++ nl ]
  ++ map (fun inst => txt "    svunit_ts.add_testcase(" ++ inst ++ txt ".svunit_ut);" ++ nl)
         unit_test_instances
  ++ [ txt "  endfunction" ++ nl ++ nl;
       nl;
       txt "  //===================================" ++ nl;
       txt "  // Run" ++ nl;
       txt "  //===================================" ++ nl;
       txt "  task run();" ++ nl;
       txt "    svunit_ts.run();" ++ nl ]
  ++ map (fun inst => txt "    " ++ inst ++ txt ".run();" ++ nl)
         unit_test_instances
  ++ [ txt "    svunit_ts.report();" ++ nl;
       txt "  endtask" ++ nl ++ nl;
       txt "endmodule" ++ nl ].

(** [class_name] in [create_testsuite] *)
Definition testsuite_class (output_file : path) : text :=
  let class_name := stem output_file in
  Text.replace (txt ".") [] class_name.

Definition create_testsuite (output_file : path) (unit_tests : list path)
  : M unit :=
  let class_name := testsuite_class output_file in
  let instance_name := Text.replace (txt "_testsuite") (txt "_ts") class_name in
  r <- collect_unit_tests unit_tests [] [] ;;
  let '(unit_test_classes, unit_test_instances) := r in
  open_w output_file ;;;
  write_all output_file
    (testsuite_writes class_name instance_name
                      unit_test_classes unit_test_instances).

(** The name of a suite, from the path of its generated file. *)
Definition suite_class (ts : path) : text :=
  let name := name ts in
  let name := Text.replace (txt ".sv") [] name in
  Text.replace (txt ".") [] name.

(** The first loop of [create_testrunner]. *)
Definition collect_suites (test_suites : list path) : list text * list text :=
  fold_left
    (fun '(suite_classes, suite_instances) ts =>
       let name := suite_class ts in
       (suite_classes ++ [name], suite_instances ++ [suite_instance name]))
    test_suites ([], []).

(** The writes of [create_testrunner], one element for each [f.write]. *)
Definition testrunner_writes (class_name : text)
    (suite_classes suite_instances : list text) : list text :=
  [ nl;
    txt "module " ++ class_name ++ txt "();" ++ nl;
    txt "  import svunit_pkg::svunit_testrunner;" ++ nl;
    txt "`ifdef RUN_SVUNIT_WITH_UVM" ++ nl;
    txt "  import uvm_pkg::*;" ++ nl;
    txt "  import svunit_uvm_mock_pkg::svunit_uvm_test_inst;" ++ nl;
    txt "  import svunit_uvm_mock_pkg::uvm_report_mock;" ++ nl;
    txt "`endif" ++ nl ++ nl;
    txt "  string name = " ++ dq ++ class_name ++ dq ++ txt ";" ++ nl;
    txt "  svunit_testrunner svunit_tr;" ++ nl ++ nl ++ nl;
    txt "  //==================================" ++ nl;
    txt "  // These are the test suites that we" ++ nl;
    txt "  // want included in this testrunner" ++ nl;
    txt "  //==================================" ++ nl ]
  ++ map (fun '(cls, inst) => txt "  " ++ cls ++ txt " " ++ inst ++ txt "();" ++ nl)
         (combine suite_classes suite_instances)
  ++ [ nl ++ nl;
       txt "  //===================================" ++ nl;
       txt "  // Main" ++ nl;
       txt "  //===================================" ++ nl;
       txt "  initial" ++ nl;
       txt "  begin" ++ nl;
       nl;
       txt "    `ifdef RUN_SVUNIT_WITH_UVM_REPORT_MOCK" ++ nl;
       txt "      uvm_report_cb::add(null, uvm_report_mock::reports);" ++ nl;
       txt "    `endif" ++ nl;
       nl;
       txt "    build();" ++ nl;
       nl;
       txt "    `ifdef RUN_SVUNIT_WITH_UVM" ++ nl;
       txt "      svunit_uvm_test_inst(" ++ dq ++ txt "svunit_uvm_test" ++ dq ++ txt ");" ++ nl;
       txt "    `endif" ++ nl;
       nl;
       txt "    run();" ++ nl;
       txt "    $finish();" ++ nl;
       txt "  end" ++ nl;
       nl ++ nl;
       txt "  //===================================" ++ nl;
       txt "  // Build" ++ nl;
       txt "  //===================================" ++ nl;
       txt "  function void build();" ++ nl;
       txt "    svunit_tr = new(name);" ++ nl ]
  ++ flat_map (fun inst =>
                 [ txt "    " ++ inst ++ txt ".build();" ++ nl;
                   txt "    svunit_tr.add_testsuite(" ++ inst ++ txt ".svunit_ts);" ++ nl ])
              suite_instances
  ++ [ txt "  endfunction" ++ nl ++ nl ++ nl;
       txt "  //===================================" ++ nl;
       txt "  // Run" ++ nl;
       txt "  //===================================" ++ nl;
       txt "  task run();" ++ nl ]
  ++ map (fun inst => txt "    " ++ inst ++ txt ".run();" ++ nl)
         suite_instances
  ++ [ txt "    svunit_tr.report();" ++ nl;
       txt "  endtask" ++ nl;
       nl ++ nl;
       txt "endmodule" ++ nl ].

Definition create_testrunner (output_file : path) (test_suites : list path)
  : M unit :=
  let class_name := txt "testrunner" in
  let '(suite_classes, suite_instances) := collect_suites test_suites in
  open_w output_file ;;;
  write_all output_file
    (testrunner_writes class_name suite_classes suite_instances).

End CodeGen.

(** ** [simulators.py] *)

Module Simulators.

Import FS Run.
Local Open Scope run_scope.

Inductive backend : Type :=
| ModelSim | Irun | Xrun | Vcs | Verilator | Xsim | Dsim | Qrun.

Record Simulator : Type := mkSimulator {
  kind : backend;
  name : text;
  executable : text;
  defines : list text;
  filelists : list text;
  sim_args : list text;
  compile_args : list text;
  elab_args : list text;
  uvm : bool;
  vhdl_file : option text;
  logfile : text;
  outdir : text;
  filter : option text;
  list_tests : bool
}.

(** [Simulator.__init__] *)
Definition init (k : backend) (name executable : text) : Simulator :=
  mkSimulator k name executable [] [] [] [] [] false None
              (txt "run.log") (txt ".") None false.

Definition or_empty (o : option (list text)) : list text :=
  match o with
  | Some l => l
  | None => []
  end.

Definition set_options (self : Simulator)
    (defines filelists sim_args compile_args elab_args : option (list text))
    (uvm : bool) (vhdl_file : option text) (logfile outdir : text)
    (filter : option text) (list_tests : bool) : Simulator :=
  mkSimulator (kind self) (name self) (executable self)
              (or_empty defines) (or_empty filelists) (or_empty sim_args)
              (or_empty compile_args) (or_empty elab_args)
              uvm vhdl_file logfile outdir filter list_tests.

Definition set_defines (self : Simulator) (d : list text) : Simulator :=
  mkSimulator (kind self) (name self) (executable self) d (filelists self)
              (sim_args self) (compile_args self) (elab_args self) (uvm self)
              (vhdl_file self) (logfile self) (outdir self) (filter self)
              (list_tests self).

Definition set_sim_args (self : Simulator) (a : list text) : Simulator :=
  mkSimulator (kind self) (name self) (executable self) (defines self)
              (filelists self) a (compile_args self) (elab_args self)
              (uvm self) (vhdl_file self) (logfile self) (outdir self)
              (filter self) (list_tests self).

(** [if s:] for a string that may be [None] *)
Definition truthy (o : option text) : bool :=
  match o with
  | Some (_ :: _) => true
  | _ => false
  end.

(** [f"{s}"] *)
Definition fmt (o : option text) : text :=
  match o with
  | Some s => s
  | None => txt "None"
  end.

Definition nonempty (l : list text) : bool :=
  match l with
  | [] => false
  | _ :: _ => true
  end.

Definition dq : text := [ascii_of_nat 34].

Definition _run_command (self : Simulator) (cmd : text) : M bool :=
  ret_ <- call cmd ;;
  ret (ret_ =? 0).

(** [for f in self.filelists: cmd += f" -f {f}"] *)
Definition add_filelists (self : Simulator) (cmd : text) : text :=
  fold_left (fun cmd f => cmd ++ txt " -f " ++ f) (filelists self) cmd.

(** [self.defines.append("RUN_SVUNIT_WITH_UVM")] *)
Definition append_uvm_define (self : Simulator) : Simulator :=
  set_defines self (defines self ++ [txt "RUN_SVUNIT_WITH_UVM"]).

(** [" +define+" + "+define+".join(self.defines)] when there are any *)
Definition add_defines (self : Simulator) (cmd : text) : text :=
  if nonempty (defines self)
  then cmd ++ txt " +define+" ++ Text.join (txt "+define+") (defines self)
  else cmd.

Definition add_args (args : list text) (cmd : text) : text :=
  if nonempty args then cmd ++ txt " " ++ Text.join (txt " ") args else cmd.

Definition add_filter (self : Simulator) (cmd : text) : text :=
  if truthy (filter self)
  then cmd ++ txt " +SVUNIT_FILTER=" ++ fmt (filter self) else cmd.

Definition add_list_tests (self : Simulator) (cmd : text) : text :=
  if list_tests self then cmd ++ txt " +SVUNIT_LIST_TESTS" else cmd.

Definition is_mode_flag (arg : text) : bool :=
  existsb (Text.eqb arg) [txt "-c"; txt "-gui"; txt "-i"].

Definition ModelSim_run (self : Simulator) : M (bool * Simulator) :=
  let cmd := [] in
  let cmd := cmd ++ txt "vlib work && " in
  let cmd := if truthy (vhdl_file self)
             then cmd ++ txt "vcom -work work -f " ++ fmt (vhdl_file self)
                      ++ txt " && "
             else cmd in
  let cmd := cmd ++ txt "vlog -l " ++ logfile self ++ txt " " in
  let self := if uvm self then append_uvm_define self else self in
  let cmd := add_filelists self cmd in
  let cmd := cmd ++ txt " -f .svunit.f" in
  let cmd := add_defines self cmd in
  let cmd := add_args (compile_args self) cmd in
  let has_mode_flag := existsb is_mode_flag (sim_args self) in
  let self := if negb has_mode_flag
              then set_sim_args self (sim_args self ++ [txt "-c"])
              else self in
  let vopt_elab_args :=
    if nonempty (elab_args self)
    then txt "-voptargs=" ++ dq ++ Text.join (txt " ") (elab_args self) ++ dq
    else [] in
  let cmd := cmd ++ txt " && vsim " ++ vopt_elab_args ++ txt " "
                 ++ Text.join (txt " ") (sim_args self)
                 ++ txt " -lib work -do " ++ dq ++ txt "run -all; quit" ++ dq
                 ++ txt " -l " ++ logfile self ++ txt " testrunner" in
  let cmd := add_filter self cmd in
  let cmd := add_list_tests self cmd in
  ok <- _run_command self cmd ;;
  ret (ok, self).

(** The part that [Irun], [Vcs], [Dsim] and [Qrun] have in common, from
    the file lists on. *)
Definition one_step_tail (self : Simulator) (cmd : text) : text :=
  let cmd := add_filelists self cmd in
  let cmd := cmd ++ txt " -f .svunit.f" in
  let cmd := add_defines self cmd in
  let cmd := add_args (compile_args self) cmd in
  let cmd := add_args (elab_args self) cmd in
  let cmd := add_args (sim_args self) cmd in
  let cmd := cmd ++ txt " -top testrunner" in
  let cmd := add_filter self cmd in
  add_list_tests self cmd.

Definition add_vhdl_f (self : Simulator) (cmd : text) : text :=
  if truthy (vhdl_file self)
  then cmd ++ txt "-f " ++ fmt (vhdl_file self) ++ txt " " else cmd.

Definition Irun_run (self : Simulator) : M (bool * Simulator) :=
  let cmd := executable self ++ txt " -l " ++ logfile self ++ txt " " in
  let cmd := add_vhdl_f self cmd in
  let cmd := if uvm self then cmd ++ txt " -uvm" else cmd in
  let self := if uvm self then append_uvm_define self else self in
  let cmd := one_step_tail self cmd in
  ok <- _run_command self cmd ;;
  ret (ok, self).

Definition Vcs_run (self : Simulator) : M (bool * Simulator) :=
  let cmd := executable self ++ txt " -R -sverilog -l " ++ logfile self
                        ++ txt " " in
  let cmd := add_vhdl_f self cmd in
  let cmd := if uvm self then cmd ++ txt " -ntb_opts uvm" else cmd in
  let self := if uvm self then append_uvm_define self else self in
  let cmd := one_step_tail self cmd in
  ok <- _run_command self cmd ;;
  ret (ok, self).

Definition Verilator_run (self : Simulator) : M (bool * Simulator) :=
  if uvm self then ret (false, self)
  else if truthy (vhdl_file self) then ret (false, self)
  else
    let cmd := txt "verilator --binary --top-module testrunner" in
    let cmd := add_args (compile_args self) cmd in
    let cmd := add_args (elab_args self) cmd in
    let cmd := add_filelists self cmd in
    let cmd := cmd ++ txt " -f .svunit.f" in
    let cmd := add_defines self cmd in
    let sim_args_str :=
      if nonempty (sim_args self)
      then Text.join (txt " ") (sim_args self) else [] in
    let sim_args_str := add_filter self sim_args_str in
    let sim_args_str := add_list_tests self sim_args_str in
    let cmd := cmd ++ txt " && obj_dir/Vtestrunner " ++ sim_args_str
                   ++ txt " 2>&1 | tee " ++ logfile self in
    ok <- _run_command self cmd ;;
    ret (ok, self).

(** [os.path.join(a, b)] *)
Definition os_path_join (a b : text) : text :=
  if Text.starts_with (txt "/") b then b
  else if Text.eqb a [] || Text.ends_with (txt "/") a then a ++ b
  else a ++ txt "/" ++ b.

(** The rewrite that [Xsim.run] applies to the text of [.svunit.f]. *)
Definition xsim_rewrite (content : text) : text :=
  Text.replace (txt "+incdir+") (txt "--include ") content.

(** [svunit_f_path] in [Xsim.run], resolved from the working directory *)
Definition svunit_f_path (self : Simulator) (cwd : path) : path :=
  div cwd (os_path_join (outdir self) (txt ".svunit.f")).

(** The first step of [Xsim.run]: [.svunit.f] rewritten in place. *)
Definition Xsim_rewrite_manifest (self : Simulator) : M unit :=
  cwd <- get_cwd ;;
  let svunit_f_path := svunit_f_path self cwd in
  e <- path_exists svunit_f_path ;;
  if e then
    content <- read_file svunit_f_path ;;
    let content := xsim_rewrite content in
    open_w svunit_f_path ;;;
    write svunit_f_path content
  else ret tt.

Definition Xsim_run (self : Simulator) : M (bool * Simulator) :=
  Xsim_rewrite_manifest self ;;;
  let cmd := [] in
  let cmd := if truthy (vhdl_file self)
             then cmd ++ txt "xvhdl -f " ++ fmt (vhdl_file self) ++ txt " && "
             else cmd in
  let cmd := cmd ++ txt "xvlog --sv --log " ++ logfile self ++ txt " " in
  let cmd := if uvm self then cmd ++ txt " --lib uvm" else cmd in
  let self := if uvm self then append_uvm_define self else self in
  let cmd := add_filelists self cmd in
  let cmd := cmd ++ txt " -f .svunit.f" in
  let cmd := if nonempty (defines self)
             then cmd ++ txt " "
                      ++ Text.join (txt " ")
                           (map (fun d => txt "--define " ++ d) (defines self))
             else cmd in
  let cmd := add_args (compile_args self) cmd in
  let cmd := cmd ++ txt " && xelab testrunner" in
  let cmd := add_args (elab_args self) cmd in
  let cmd := cmd ++ txt " && xsim" in
  let cmd := add_args (sim_args self) cmd in
  let cmd := cmd ++ txt " --R --log " ++ logfile self ++ txt " testrunner" in
  let cmd := if truthy (filter self)
             then cmd ++ txt " --testplusarg SVUNIT_FILTER=" ++ fmt (filter self)
             else cmd in
  let cmd := if list_tests self
             then cmd ++ txt " --testplusarg SVUNIT_LIST_TESTS" else cmd in
  ok <- _run_command self cmd ;;
  ret (ok, self).

Definition Dsim_run (self : Simulator) : M (bool * Simulator) :=
  let cmd := executable self ++ txt " -l " ++ logfile self ++ txt " " in
  let cmd := add_vhdl_f self cmd in
  let cmd :=
    if uvm self
    then cmd ++ txt " +incdir+$UVM_HOME/src $UVM_HOME/src/uvm.sv -sv_lib $UVM_HOME/src/dpi/libuvm_dpi.so"
    else cmd in
  let self := if uvm self then append_uvm_define self else self in
  let cmd := one_step_tail self cmd in
  ok <- _run_command self cmd ;;
  ret (ok, self).

Definition Qrun_run (self : Simulator) : M (bool * Simulator) :=
  let cmd := executable self ++ txt " -l " ++ logfile self ++ txt " " in
  let cmd := add_vhdl_f self cmd in
  let self := if uvm self then append_uvm_define self else self in
  let cmd := one_step_tail self cmd in
  ok <- _run_command self cmd ;;
  ret (ok, self).

(** [self.run()]: the method of the simulator's class.  [Xrun] inherits
    the method of [Irun]. *)
Definition run (self : Simulator) : M (bool * Simulator) :=
  match kind self with
  | ModelSim => ModelSim_run self
  | Irun => Irun_run self
  | Xrun => Irun_run self
  | Vcs => Vcs_run self
  | Verilator => Verilator_run self
  | Xsim => Xsim_run self
  | Dsim => Dsim_run self
  | Qrun => Qrun_run self
  end.

(** The constructors of the classes. *)
Definition new (k : backend) : Simulator :=
  match k with
  | ModelSim => init ModelSim (txt "modelsim") (txt "vsim")
  | Irun => init Irun (txt "irun") (txt "irun")
  | Xrun => init Xrun (txt "xrun") (txt "xrun")
  | Vcs => init Vcs (txt "vcs") (txt "vcs")
  | Verilator => init Verilator (txt "verilator") (txt "verilator")
  | Xsim => init Xsim (txt "xsim") (txt "xsim")
  | Dsim => init Dsim (txt "dsim") (txt "dsim")
  | Qrun => init Qrun (txt "qrun") (txt "qrun")
  end.

Definition lower_char (c : ascii) : ascii :=
  let n := nat_of_ascii c in
  if (65 <=? n) && (n <=? 90) then ascii_of_nat (n + 32) else c.

(** [s.lower()] *)
Definition lower (s : text) : text := map lower_char s.

Definition named (a : text) (b : string) : bool := Text.eqb a (txt b).

Definition get_simulator (name_ : text) : option Simulator :=
  let name_ := lower name_ in
  if named name_ "modelsim" || named name_ "questa" then Some (new ModelSim)
  else if named name_ "irun" || named name_ "ius" then Some (new Irun)
  else if named name_ "xrun" || named name_ "xcelium" then Some (new Xrun)
  else if named name_ "vcs" then Some (new Vcs)
  else if named name_ "verilator" then Some (new Verilator)
  else if named name_ "xsim" then Some (new Xsim)
  else if named name_ "dsim" then Some (new Dsim)
  else if named name_ "qrun" then Some (new Qrun)
  else if named name_ "riviera" then
    Some (init ModelSim (txt "riviera") (txt "vsim"))
  else None.

(** The simulator that [detect_simulator] builds for a launcher found. *)
Definition of_launcher (sim : text) : option Simulator :=
  if named sim "vsim" then Some (new ModelSim)
  else if named sim "xrun" then Some (new Xrun)
  else if named sim "irun" then Some (new Irun)
  else if named sim "vcs" then Some (new Vcs)
  else if named sim "verilator" then Some (new Verilator)
  else if named sim "xsim" then Some (new Xsim)
  else if named sim "dsim" then Some (new Dsim)
  else if named sim "qrun" then Some (new Qrun)
  else None.

Fixpoint detect_among (sims : list text) : M (option Simulator) :=
  match sims with
  | [] => ret None
  | sim :: rest =>
      st <- call (txt "which " ++ sim ++ txt " > /dev/null 2>&1") ;;
      if st =? 0 then
        match of_launcher sim with
        | Some s => ret (Some s)
        | None => detect_among rest
        end
      else detect_among rest
  end.

Definition detect_simulator : M (option Simulator) :=
  detect_among [txt "xrun"; txt "irun"; txt "qrun"; txt "vsim"; txt "vcs";
                txt "dsim"; txt "verilator"; txt "xsim"].

End Simulators.

(** ** [main.py], run mode *)

Module Main.

Import FS Run Discovery.
Local Open Scope run_scope.

(** The parsed arguments that the run mode reads. *)
Record Args : Type := mkArgs {
  simulator : option text;
  logfile : text;
  define : option (list text);
  filelist : option (list text);
  uvm : bool;
  r_arg : option (list text);
  c_arg : option (list text);
  e_arg : option (list text);
  outdir : text;
  tests : option (list text);
  vhdlfile : option text;
  filter : option text;
  directory : option (list text);
  enable_experimental : bool;
  list_tests : bool
}.

Definition nl : text := [Re.nl].

(** [p.relative_to(base)], [None] for [ValueError] *)
Fixpoint relative_to (p base : path) : option path :=
  match base, p with
  | [], _ => Some p
  | b :: base', c :: p' =>
      if text_eq_dec b c then relative_to p' base' else None
  | _ :: _, [] => None
  end.

(** [str(p)] for a relative path *)
Definition str_rel (p : path) : text :=
  match p with
  | [] => txt "."
  | _ :: _ => Text.join (txt "/") p
  end.

Definition sanitize (s : text) : text :=
  Text.replace (txt "-") (txt "_")
    (Text.replace (txt ".") (txt "_")
       (Text.replace (txt "/") (txt "_") s)).

Definition dir_id_of (cwd suite_dir : path) : text :=
  match relative_to suite_dir cwd with
  | Some rel_dir => sanitize (str_rel rel_dir)
  | None =>
      let dir_id := sanitize (str suite_dir) in
      if Text.starts_with (txt "_") dir_id then skipn 1 dir_id else dir_id
  end.

(** One turn of the loop over the suites: [f] is the path of the open
    [.svunit.f], the result is [generated_test_suites]. *)
Definition generate_suite (f outdir : path) (generated_test_suites : list path)
    (suite : path * list path) : M (list path) :=
  let '(suite_dir, tests) := suite in
  cwd <- get_cwd ;;
  let dir_id := dir_id_of cwd suite_dir in
  let ts_filename := txt "." ++ dir_id ++ txt "_testsuite.sv" in
  let ts_path := outdir ++ [ts_filename] in
  CodeGen.create_testsuite ts_path tests ;;;
  let generated_test_suites := generated_test_suites ++ [ts_path] in
  write_all f (map (fun test => str test ++ nl) tests) ;;;
  write f (txt "+incdir+" ++ str suite_dir ++ nl) ;;;
  write f (str ts_path ++ nl) ;;;
  ret generated_test_suites.

Fixpoint generate_suites (f outdir : path) (generated_test_suites : list path)
    (suites : suites_dict) : M (list path) :=
  match suites with
  | [] => ret generated_test_suites
  | suite :: rest =>
      g <- generate_suite f outdir generated_test_suites suite ;;
      generate_suites f outdir g rest
  end.

(** The code generation phase: the [with] block that writes [.svunit.f],
    the suites and the runner. *)
Definition generate (args : Args) (outdir : path) (suites : suites_dict)
  : M unit :=
  cwd <- get_cwd ;;
  svunit_install <- get_install ;;
  let svunit_f_path := outdir ++ [txt ".svunit.f"] in
  let f := svunit_f_path in
  open_w f ;;;
  write f (txt "+incdir+" ++ str cwd ++ nl) ;;;
  write f (txt "+incdir+" ++ svunit_install ++ txt "/svunit_base/junit-xml" ++ nl) ;;;
  write f (svunit_install ++ txt "/svunit_base/junit-xml/junit_xml.sv" ++ nl) ;;;
  write f (txt "+incdir+" ++ svunit_install ++ txt "/svunit_base" ++ nl) ;;;
  write f (svunit_install ++ txt "/svunit_base/svunit_pkg.sv" ++ nl) ;;;
  (if uvm args then
     write f (txt "+incdir+" ++ svunit_install ++ txt "/svunit_base/uvm-mock" ++ nl) ;;;
     write f (svunit_install ++ txt "/svunit_base/uvm-mock/svunit_uvm_mock_pkg.sv" ++ nl)
   else ret tt) ;;;
  (if enable_experimental args then
     write f (txt "+incdir+" ++ svunit_install ++ txt "/src/experimental/sv" ++ nl) ;;;
     write f (svunit_install ++ txt "/src/experimental/sv/svunit.sv" ++ nl)
   else ret tt) ;;;
  generated_test_suites <- generate_suites f outdir [] suites ;;
  let tr_path := outdir ++ [txt ".testrunner.sv"] in
  CodeGen.create_testrunner tr_path generated_test_suites ;;;
  write f (str tr_path ++ nl).

(** The simulation phase. *)
Definition simulate (args : Args) (outdir : path) : M nat :=
  simulator <-
    (if Simulators.truthy (simulator args)
     then ret (Simulators.get_simulator (Simulators.fmt (simulator args)))
     else Simulators.detect_simulator) ;;
  match simulator with
  | None => ret 1
  | Some simulator =>
      let simulator :=
        Simulators.set_options simulator
          (define args) (filelist args) (r_arg args) (c_arg args)
          (e_arg args) (uvm args) (vhdlfile args) (logfile args)
          (str outdir) (filter args) (list_tests args) in
      r <- Simulators.run simulator ;;
      if fst r then ret 0 else ret 1
  end.

(** [directories] of the [TestDiscovery] that [main] builds. *)
Definition search_directories (cwd : path) (directory : option (list text))
  : list path :=
  match directory with
  | Some (d :: ds) => map (div cwd) (d :: ds)
  | _ => [cwd]
  end.

(** [main] in run mode, that is when [args.command] is not [create]. *)
Definition main (args : Args) : M nat :=
  cwd <- get_cwd ;;
  let outdir := div cwd (outdir args) in
  e <- path_exists outdir ;;
  (if e then ret tt else mkdir outdir) ;;;
  root <- get_root ;;
  let discovery :=
    mkTestDiscovery (search_directories cwd (directory args)) (tests args) [] in
  let discovery := discover root discovery in
  let found_tests := found_tests discovery in
  match found_tests with
  | [] => ret 0
  | _ :: _ =>
      let suites := get_test_suites discovery in
      generate args outdir suites ;;;
      simulate args outdir
  end.

End Main.

(** ** Readings of the design document

  The functions below follow the words of the design document; they are
  what the code above is compared with. *)

Module Design.

Import FS Run.

(** [s] with its trailing [suffix] replaced by [new]; a text that does not
    end in [suffix] is left as it is. *)
Definition replace_trailing (suffix new s : text) : text :=
  if Text.ends_with suffix s
  then firstn (length s - length suffix) s ++ new
  else s.

(** A block comment taken greedily: from [/*] to the furthest [*/]. *)
Definition re_block_comment_greedy : Re.pattern :=
  Re.lit "/*" ++ [Re.StarG Re.dot_all] ++ Re.lit "*/".

Definition strip_block_comments_greedy (content : text) : text :=
  Re.sub re_block_comment_greedy [] content.

(** A well-formed block comment with the given body. *)
Definition block_comment (body : text) : text :=
  txt "/*" ++ body ++ txt "*/".

(** [text] with [ins] put in at position [i]. *)
Definition insert_at (i : nat) (ins s : text) : text :=
  firstn i s ++ ins ++ skipn i s.

(** The run of [self] has put the default mode flag [-c] behind the
    simulation arguments it was given. *)
Definition injects_default_mode (self : Simulators.Simulator) (w : world)
  : bool :=
  match Simulators.run self w with
  | (Some (_, self'), _) =>
      if list_eq_dec text_eq_dec (Simulators.sim_args self')
                     (Simulators.sim_args self ++ [txt "-c"])
      then true else false
  | (None, _) => false
  end.

(** The caller has given a flag that selects the mode. *)
Definition has_mode_flag (self : Simulators.Simulator) : bool :=
  existsb Simulators.is_mode_flag (Simulators.sim_args self).

End Design.

(** * Properties *)

(** ** Text *)

Module TextFacts.

Import Text.

Lemma starts_with_refl_app (p s : text) : starts_with p (p ++ s) = true.
Proof.
  induction p as [|a p IH]; simpl; [reflexivity|].
  now rewrite Ascii.eqb_refl, IH.
Qed.

Lemma starts_with_app_long (p x y : text) :
  length p <= length x -> starts_with p (x ++ y) = starts_with p x.
Proof.
  revert x; induction p as [|a p IH]; intros [|b x] L; simpl in *;
    try reflexivity; try lia.
  rewrite IH by lia. reflexivity.
Qed.

Lemma contains_nil_r (p : text) : p <> [] -> contains p [] = false.
Proof. destruct p; [congruence | reflexivity]. Qed.

Lemma contains_cons (p : text) (c : ascii) (s : text) :
  contains p (c :: s) = starts_with p (c :: s) || contains p s.
Proof. reflexivity. Qed.

Lemma replace_from_skip (old new m s : text) :
  replace_from old new (length m) (m ++ s) = replace_from old new 0 s.
Proof. induction m as [|c m IH]; simpl; [reflexivity | exact IH]. Qed.

(** A text without occurrence of [old] is left as it is. *)
Lemma replace_from_absent (old new s : text) :
  contains old s = false -> replace_from old new 0 s = s.
Proof.
  induction s as [|c s IH]; intros H; [reflexivity|].
  rewrite contains_cons in H. apply orb_false_iff in H as [H1 H2].
  cbn [replace_from]. rewrite H1, IH by assumption. reflexivity.
Qed.

(** The first occurrence of [old] is replaced, and the scan goes on
    after it. *)
Lemma replace_from_first (old new a b : text) :
  old <> [] ->
  contains old (a ++ removelast old) = false ->
  replace_from old new 0 (a ++ old ++ b)
  = a ++ new ++ replace_from old new 0 b.
Proof.
  intros Hne. induction a as [|c a IH]; intros H.
  - destruct old as [|o old]; [congruence|].
    cbn [app replace_from].
    change (o :: old ++ b) with ((o :: old) ++ b).
    rewrite starts_with_refl_app.
    replace (length (o :: old) - 1) with (length old) by (simpl; lia).
    now rewrite replace_from_skip.
  - cbn [app] in H. rewrite contains_cons in H.
    apply orb_false_iff in H as [H1 H2].
    cbn [app replace_from].
    assert (E : c :: a ++ old ++ b
                = (c :: a ++ removelast old) ++ [last old c] ++ b).
    { rewrite (app_removelast_last c Hne) at 1.
      cbn [app]. now rewrite <- !app_assoc. }
    rewrite E at 1.
    rewrite starts_with_app_long, H1.
    + rewrite IH by assumption. reflexivity.
    + simpl. rewrite length_app.
      destruct old as [|o old]; [congruence|].
      assert (L : length (removelast (o :: old)) = length old).
      { clear. revert o. induction old as [|x old IH]; intros o; [reflexivity|].
        cbn [removelast length] in *. now rewrite IH. }
      rewrite L. simpl. lia.
Qed.

Section Idempotence.

Variables (p0 r0 : ascii) (old' new' : text).
Let old := p0 :: old'.
Let new := r0 :: new'.
Hypothesis first_of_old_not_in_new : existsb (Ascii.eqb p0) new = false.
Hypothesis first_of_new_not_in_old : existsb (Ascii.eqb r0) old = false.

Lemma starts_with_copied (q s : text) :
  existsb (Ascii.eqb r0) q = false ->
  starts_with q (replace_from old new 0 s) = true ->
  starts_with q s = true.
Proof.
  revert s. induction q as [|x q IH]; intros s Hq H; [reflexivity|].
  cbn [existsb] in Hq. apply orb_false_iff in Hq as [Hx Hq].
  destruct s as [|d s]; [discriminate H|].
  cbn [replace_from] in H.
  destruct (starts_with old (d :: s)).
  - unfold new in H. cbn [app starts_with] in H.
    rewrite Ascii.eqb_sym, Hx in H. discriminate H.
  - cbn [starts_with] in H |- *.
    apply andb_true_iff in H as [H1 H2].
    rewrite H1. simpl. now apply IH.
Qed.

Lemma contains_after_new (r x : text) :
  existsb (Ascii.eqb p0) r = false ->
  contains old x = false -> contains old (r ++ x) = false.
Proof.
  induction r as [|a r IH]; intros Hr Hx; [exact Hx|].
  cbn [existsb] in Hr. apply orb_false_iff in Hr as [Ha Hr].
  cbn [app]. rewrite contains_cons. unfold old. cbn [starts_with].
  rewrite Ha. simpl. now apply IH.
Qed.

(** Nothing to replace is left after a replacement. *)
Lemma replaced_has_no_occurrence (s : text) (skip : nat) :
  contains old (replace_from old new skip s) = false.
Proof.
  revert skip. induction s as [|c s IH]; intros skip; [reflexivity|].
  cbn [replace_from]. destruct skip as [|k]; [|apply IH].
  destruct (starts_with old (c :: s)) eqn:E.
  - apply contains_after_new; [assumption | apply IH].
  - rewrite contains_cons, IH, orb_false_r.
    destruct (starts_with old (c :: replace_from old new 0 s)) eqn:F;
      [|reflexivity].
    unfold old in E, F. cbn [starts_with] in E, F.
    apply andb_true_iff in F as [F1 F2].
    apply starts_with_copied in F2.
    + rewrite F1, F2 in E. discriminate E.
    + cbn [existsb] in first_of_new_not_in_old.
      now apply orb_false_iff in first_of_new_not_in_old.
Qed.

Lemma replace_idempotent (s : text) :
  replace old new (replace old new s) = replace old new s.
Proof.
  unfold replace, old. cbn iota. fold old.
  apply replace_from_absent, replaced_has_no_occurrence.
Qed.

End Idempotence.

End TextFacts.

Module InstanceNames.

Import Text TextFacts FS Run CodeGen.

Ltac split_eqb :=
  cbn -[Ascii.eqb];
  repeat match goal with
         | |- context [Ascii.eqb ?x ?y] =>
             first [ is_var y; destruct (Ascii.eqb x y)
                   | let b := eval vm_compute in (Ascii.eqb x y) in
                     change (Ascii.eqb x y) with b ];
             cbn -[Ascii.eqb]
         end;
  try reflexivity.

(** [_unit_test] does not overlap itself: an occurrence cannot begin
    inside another one. *)
Lemma unit_test_no_overlap (a : text) :
  contains (txt "_unit_test") a = false ->
  contains (txt "_unit_test") (a ++ removelast (txt "_unit_test")) = false.
Proof.
  induction a as [|c a IH]; intros H; [reflexivity|].
  rewrite contains_cons in H. apply orb_false_iff in H as [H1 H2].
  cbn [app]. rewrite contains_cons, (IH H2), orb_false_r.
  destruct (le_lt_dec (length (txt "_unit_test")) (length (c :: a))) as [L|L].
  - change (c :: a ++ removelast (txt "_unit_test"))
      with ((c :: a) ++ removelast (txt "_unit_test")).
    now rewrite starts_with_app_long.
  - clear IH H1 H2.
    do 9 (destruct a as [|? a]; [split_eqb|]).
    simpl in L. lia.
Qed.

Lemma testsuite_no_overlap (a : text) :
  contains (txt "_testsuite") a = false ->
  contains (txt "_testsuite") (a ++ removelast (txt "_testsuite")) = false.
Proof.
  induction a as [|c a IH]; intros H; [reflexivity|].
  rewrite contains_cons in H. apply orb_false_iff in H as [H1 H2].
  cbn [app]. rewrite contains_cons, (IH H2), orb_false_r.
  destruct (le_lt_dec (length (txt "_testsuite")) (length (c :: a))) as [L|L].
  - change (c :: a ++ removelast (txt "_testsuite"))
      with ((c :: a) ++ removelast (txt "_testsuite")).
    now rewrite starts_with_app_long.
  - clear IH H1 H2.
    do 9 (destruct a as [|? a]; [split_eqb|]).
    simpl in L. lia.
Qed.

Lemma unit_test_instance_occurrence (a b : text) :
  contains (txt "_unit_test") a = false ->
  unit_test_instance (a ++ txt "_unit_test" ++ b)
  = a ++ txt "_ut" ++ unit_test_instance b.
Proof.
  intros H. unfold unit_test_instance, replace.
  change (txt "_unit_test") with ("_"%char :: txt "unit_test") at 1 3.
  cbn iota.
  apply replace_from_first; [discriminate|].
  now apply unit_test_no_overlap.
Qed.

Lemma suite_instance_occurrence (a b : text) :
  contains (txt "_testsuite") a = false ->
  suite_instance (a ++ txt "_testsuite" ++ b)
  = a ++ txt "_ts" ++ suite_instance b.
Proof.
  intros H. unfold suite_instance, replace.
  change (txt "_testsuite") with ("_"%char :: txt "testsuite") at 1 3.
  cbn iota.
  apply replace_from_first; [discriminate|].
  now apply testsuite_no_overlap.
Qed.

Lemma collect_unit_tests_instances (uts : list path) :
  forall cls insts w cls' insts' w',
    insts = map unit_test_instance cls ->
    collect_unit_tests uts cls insts w = (Some (cls', insts'), w') ->
    insts' = map unit_test_instance cls'.
Proof.
  induction uts as [|ut uts IH]; intros cls insts w cls' insts' w' E H.
  - cbn in H. injection H as -> -> _. exact E.
  - cbn [collect_unit_tests] in H. unfold bind in H.
    destruct (_parse_unit_test_name ut w) as [[m|] w1]; [|discriminate H].
    destruct (truthy m).
    + eapply IH; [|exact H]. rewrite map_app, E. reflexivity.
    + eapply IH; [exact E | exact H].
Qed.

Lemma collect_suites_from (tss : list path) :
  forall cls insts,
    insts = map suite_instance cls ->
    snd (fold_left
           (fun '(suite_classes, suite_instances) ts =>
              let name := suite_class ts in
              (suite_classes ++ [name], suite_instances ++ [suite_instance name]))
           tss (cls, insts))
    = map suite_instance
        (fst (fold_left
           (fun '(suite_classes, suite_instances) ts =>
              let name := suite_class ts in
              (suite_classes ++ [name], suite_instances ++ [suite_instance name]))
           tss (cls, insts))).
Proof.
  induction tss as [|ts tss IH]; intros cls insts E; [exact E|].
  cbn [fold_left]. apply IH. rewrite map_app, E. reflexivity.
Qed.

End InstanceNames.

Module StoreFacts.

Import FS Run.

Lemma store_get_set_same p v st : store_get p (store_set p v st) = Some v.
Proof.
  induction st as [|[q v'] st IH]; cbn.
  - destruct (path_eq_dec p p); congruence.
  - destruct (path_eq_dec p q) eqn:E; cbn; rewrite E; [reflexivity | exact IH].
Qed.

Lemma store_get_set_other p q v st :
  p <> q -> store_get p (store_set q v st) = store_get p st.
Proof.
  intros N. induction st as [|[r v'] st IH]; cbn.
  - destruct (path_eq_dec p q); congruence.
  - destruct (path_eq_dec q r); cbn; destruct (path_eq_dec p r);
      congruence.
Qed.

Lemma store_set_set p v v' st :
  store_set p v (store_set p v' st) = store_set p v st.
Proof.
  induction st as [|[q u] st IH]; cbn.
  - destruct (path_eq_dec p p); congruence.
  - destruct (path_eq_dec p q) eqn:E; cbn; rewrite E; [reflexivity|].
    now rewrite IH.
Qed.

End StoreFacts.

Module XsimFacts.

Import Text TextFacts FS Run Simulators StoreFacts.

Lemma xsim_rewrite_twice (content : text) :
  xsim_rewrite (xsim_rewrite content) = xsim_rewrite content.
Proof.
  unfold xsim_rewrite.
  apply (replace_idempotent "+"%char "-"%char (txt "incdir+") (txt "-include "));
    reflexivity.
Qed.

#[local] Abbreviation manifest_path self w := (svunit_f_path self (w_cwd w)).

Lemma rewrite_manifest_readable (self : Simulator) (w : world) (c : text) :
  fst (read_file (manifest_path self w) w) = Some c ->
  snd (Xsim_rewrite_manifest self w)
  = set_files w (store_set (manifest_path self w) [xsim_rewrite c] (w_files w)).
Proof.
  unfold Xsim_rewrite_manifest, bind, get_cwd, path_exists, read_file,
    open_w, write, ret.
  set (p := svunit_f_path self (w_cwd w)).
  destruct (store_get p (w_files w)) as [chunks|] eqn:G.
  - cbn [fst]. intros [= <-]. cbv beta iota. rewrite G.
    cbn [snd set_files w_files].
    rewrite store_get_set_same, store_set_set. reflexivity.
  - destruct (lookup p (w_root w)) as [[n c'|n es]|] eqn:L;
      cbn [fst]; intros [= <-].
    cbv beta iota. rewrite G, L. cbn [snd set_files w_files].
    rewrite store_get_set_same, store_set_set. reflexivity.
Qed.

Lemma rewrite_manifest_unreadable (self : Simulator) (w : world) :
  fst (read_file (manifest_path self w) w) = None ->
  snd (Xsim_rewrite_manifest self w) = w.
Proof.
  unfold Xsim_rewrite_manifest, bind, get_cwd, path_exists, read_file,
    open_w, write, ret.
  set (p := svunit_f_path self (w_cwd w)).
  destruct (store_get p (w_files w)) as [chunks|] eqn:G;
    [discriminate|].
  destruct (lookup p (w_root w)) as [[n c'|n es]|] eqn:L;
    [discriminate| |]; intros _.
  - cbv beta iota. rewrite G, L. reflexivity.
  - destruct (in_dec path_eq_dec p (w_made w)); cbv beta iota;
      [rewrite G, L|]; reflexivity.
Qed.

Lemma rewrite_manifest_again (self : Simulator) (w : world) :
  snd (Xsim_rewrite_manifest self (snd (Xsim_rewrite_manifest self w)))
  = snd (Xsim_rewrite_manifest self w).
Proof.
  destruct (fst (read_file (manifest_path self w) w)) as [c|] eqn:R.
  - rewrite (rewrite_manifest_readable self w c R).
    set (w1 := set_files w _).
    assert (R1 : fst (read_file (manifest_path self w1) w1)
                 = Some (xsim_rewrite c)).
    { unfold read_file, w1. cbn [set_files w_cwd w_files].
      rewrite store_get_set_same. cbn. now rewrite app_nil_r. }
    rewrite (rewrite_manifest_readable self w1 _ R1).
    unfold w1. cbn [set_files w_cwd w_files].
    rewrite store_set_set, xsim_rewrite_twice. reflexivity.
  - rewrite (rewrite_manifest_unreadable self w R).
    now apply rewrite_manifest_unreadable.
Qed.

End XsimFacts.

(** C6.  The rewrite that the Xsim backend applies to the manifest, every
  [+incdir+] becoming [--include ], is idempotent: on every text, applying
  it twice gives what applying it once gives; and rewriting the manifest
  file in place a second time leaves the world as the first rewrite left
  it. *)
Theorem C6_xsim_rewrite_idempotent :
(forall content : text,
    Simulators.xsim_rewrite (Simulators.xsim_rewrite content)
    = Simulators.xsim_rewrite content)
/\ (forall (self : Simulators.Simulator) (w : Run.world),
      snd (Simulators.Xsim_rewrite_manifest self
             (snd (Simulators.Xsim_rewrite_manifest self w)))
      = snd (Simulators.Xsim_rewrite_manifest self w)).
Proof.
split.
- exact XsimFacts.xsim_rewrite_twice.
- exact XsimFacts.rewrite_manifest_again.
Qed.

(** ** Regular expressions *)

Module ReFacts.

Import Text TextFacts Re.

Lemma match_here_lazy (p : ascii -> bool) (r : pattern) prev s :
  match_here (StarL p :: r) prev s
  = match match_here r prev s with
    | Some m => Some m
    | None =>
        match s with
        | x :: s' => if p x then match_here (StarL p :: r) (Some x) s' else None
        | [] => None
        end
    end.
Proof. destruct s; reflexivity. Qed.

Lemma match_here_greedy (p : ascii -> bool) (r : pattern) prev s :
  match_here (StarG p :: r) prev s
  = match s with
    | x :: s' =>
        if p x then
          match match_here (StarG p :: r) (Some x) s' with
          | Some m => Some m
          | None => match_here r prev s
          end
        else match_here r prev s
    | [] => match_here r prev s
    end.
Proof. destruct s; reflexivity. Qed.

Lemma last_default (m : text) (a c d : ascii) :
  last (a :: m) c = last (a :: m) d.
Proof.
  revert a. induction m as [|b m IH]; intros a; [reflexivity|].
  change (last (b :: m) c = last (b :: m) d). apply IH.
Qed.

(** After a match the scan passes over the matched text. *)
Lemma sub_from_skip (r : pattern) (repl m s : text) prev :
  sub_from r repl (length m) prev (m ++ s)
  = sub_from r repl 0
      (match m with [] => prev | c :: m' => Some (last m' c) end) s.
Proof.
  revert prev. induction m as [|c m IH]; intros prev; [reflexivity|].
  change (sub_from r repl (length (c :: m)) prev ((c :: m) ++ s))
    with (sub_from r repl (length m) (Some c) (m ++ s)).
  rewrite IH. destruct m as [|d m]; [reflexivity|].
  do 2 f_equal. change (last (d :: m) c) with (last (d :: m) c).
  destruct m as [|e m]; [reflexivity|].
  change (last (e :: m) d = last (e :: m) c). apply last_default.
Qed.

End ReFacts.

Module ParseFacts.

Import Text TextFacts Re ReFacts CodeGen.

#[local] Abbreviation closing := (lit "*/").

Lemma closing_fails_inside (c : ascii) (body rest : text) prev :
  contains (txt "*/") (c :: body) = false ->
  match_here closing prev (c :: body ++ txt "*/" ++ rest) = None.
Proof.
  intros H. rewrite contains_cons in H. apply orb_false_iff in H as [H _].
  cbn -[Ascii.eqb] in H |- *.
  destruct (Ascii.eqb "*" c); [|reflexivity].
  destruct body as [|d body]; [reflexivity|].
  cbn -[Ascii.eqb] in H |- *.
  destruct (Ascii.eqb "/" d); [discriminate H | reflexivity].
Qed.

(** The lazy repetition stops at the nearest [*/]. *)
Lemma lazy_body (body rest : text) prev :
  contains (txt "*/") body = false ->
  match_here (StarL dot_all :: closing) prev (body ++ txt "*/" ++ rest)
  = Some (MRes rest None None).
Proof.
  revert prev. induction body as [|c body IH]; intros prev H.
  - reflexivity.
  - rewrite match_here_lazy. cbn [app].
    rewrite closing_fails_inside by assumption.
    cbn [dot_all]. apply IH.
    rewrite contains_cons in H. now apply orb_false_iff in H as [_ H].
Qed.

Lemma block_comment_matches (body rest : text) prev :
  contains (txt "*/") body = false ->
  match_here re_block_comment prev (Design.block_comment body ++ rest)
  = Some (MRes rest None None).
Proof.
  intros H. unfold Design.block_comment. rewrite <- !app_assoc.
  change (match_here (StarL dot_all :: closing) (Some "*"%char)
            (body ++ txt "*/" ++ rest) = Some (MRes rest None None)).
  now apply lazy_body.
Qed.

Lemma block_comment_needs_opening (s : text) prev :
  starts_with (txt "/*") s = false ->
  match_here re_block_comment prev s = None.
Proof.
  intros H. destruct s as [|a s]; [reflexivity|].
  cbn -[Ascii.eqb] in H |- *.
  destruct (Ascii.eqb "/" a); [|reflexivity].
  destruct s as [|b s]; [reflexivity|].
  cbn -[Ascii.eqb] in H |- *.
  destruct (Ascii.eqb "*" b); [discriminate H | reflexivity].
Qed.

(** No assertion in the pattern: the character before does not matter. *)
Lemma block_sub_prev (s : text) :
  forall skip prev prev',
    sub_from re_block_comment [] skip prev s
    = sub_from re_block_comment [] skip prev' s.
Proof.
  induction s as [|c s IH]; intros skip prev prev'.
  - destruct skip; reflexivity.
  - cbn [sub_from]. destruct skip as [|k]; [|reflexivity].
    replace (match_here re_block_comment prev (c :: s))
      with (match_here re_block_comment prev' (c :: s)) by reflexivity.
    reflexivity.
Qed.

Lemma strip_block_comment_first (pre body rest : text) :
  contains (txt "/*") pre = false ->
  contains (txt "*/") body = false ->
  strip_block_comments (pre ++ Design.block_comment body ++ rest)
  = pre ++ strip_block_comments rest.
Proof.
  intros Hpre Hbody. unfold strip_block_comments, sub.
  enough (G : forall prev,
             sub_from re_block_comment [] 0 prev
               (pre ++ Design.block_comment body ++ rest)
             = pre ++ sub_from re_block_comment [] 0 None rest)
    by apply G.
  induction pre as [|c pre IH]; intros prev.
  - cbn [app].
    pose proof (block_comment_matches body rest prev Hbody) as M.
    remember ("*"%char :: body ++ txt "*/") as m eqn:Em.
    assert (E : Design.block_comment body ++ rest = "/"%char :: m ++ rest).
    { subst m. unfold Design.block_comment. cbn. rewrite <- !app_assoc.
      reflexivity. }
    rewrite E in M |- *. cbn [sub_from]. rewrite M. cbn [m_rest].
    replace (length ("/"%char :: m ++ rest) - length rest) with (S (length m))
      by (cbn [length]; rewrite length_app; lia).
    cbn [app]. rewrite sub_from_skip. apply block_sub_prev.
  - rewrite contains_cons in Hpre. apply orb_false_iff in Hpre as [H1 H2].
    cbn [app sub_from].
    rewrite block_comment_needs_opening.
    + f_equal. now apply IH.
    + destruct pre as [|d pre].
      * cbn -[Ascii.eqb] in H1 |- *.
        destruct (Ascii.eqb "/" c); reflexivity.
      * exact H1.
Qed.

End ParseFacts.

Module LineFacts.

Import Text TextFacts Re ReFacts CodeGen.

Lemma rest_of_line (body rest : text) prev :
  forallb dot body = true ->
  match_here [StarG dot] prev (body ++ Re.nl :: rest)
  = Some (MRes (Re.nl :: rest) None None).
Proof.
  revert prev. induction body as [|c body IH]; intros prev H.
  - reflexivity.
  - cbn [forallb] in H. apply andb_true_iff in H as [H1 H2].
    rewrite match_here_greedy. cbn [app]. rewrite H1, IH by assumption.
    reflexivity.
Qed.

Lemma line_comment_needs_opening (s : text) prev :
  starts_with (txt "//") s = false ->
  match_here re_line_comment prev s = None.
Proof.
  intros H. destruct s as [|a s]; [reflexivity|].
  cbn -[Ascii.eqb] in H |- *.
  destruct (Ascii.eqb "/" a); [|reflexivity].
  destruct s as [|b s]; [reflexivity|].
  cbn -[Ascii.eqb] in H |- *.
  destruct (Ascii.eqb "/" b); [discriminate H | reflexivity].
Qed.

Lemma line_sub_prev (s : text) :
  forall skip prev prev',
    sub_from re_line_comment [] skip prev s
    = sub_from re_line_comment [] skip prev' s.
Proof.
  induction s as [|c s IH]; intros skip prev prev'.
  - destruct skip; reflexivity.
  - cbn [sub_from]. destruct skip as [|k]; [|reflexivity].
    replace (match_here re_line_comment prev (c :: s))
      with (match_here re_line_comment prev' (c :: s)) by reflexivity.
    reflexivity.
Qed.

(** A line comment is removed up to the end of its line. *)
Lemma strip_line_comment_first (pre body rest : text) :
  contains (txt "//") (pre ++ txt "/") = false ->
  forallb dot body = true ->
  strip_line_comments (pre ++ txt "//" ++ body ++ Re.nl :: rest)
  = pre ++ Re.nl :: strip_line_comments rest.
Proof.
  intros Hpre Hbody. unfold strip_line_comments, sub.
  enough (G : forall prev,
             sub_from re_line_comment [] 0 prev
               (pre ++ txt "//" ++ body ++ Re.nl :: rest)
             = pre ++ Re.nl :: sub_from re_line_comment [] 0 None rest)
    by apply G.
  induction pre as [|c pre IH]; intros prev.
  - cbn [app].
    pose proof (rest_of_line body rest (Some "/"%char) Hbody) as M.
    remember ("/"%char :: body) as m eqn:Em.
    assert (E : txt "//" ++ body ++ Re.nl :: rest
                = "/"%char :: m ++ Re.nl :: rest) by (subst m; reflexivity).
    assert (M' : match_here re_line_comment prev ("/"%char :: m ++ Re.nl :: rest)
                 = Some (MRes (Re.nl :: rest) None None)) by (subst m; exact M).
    rewrite E. cbn [sub_from]. rewrite M'. cbn [m_rest].
    replace (length ("/"%char :: m ++ Re.nl :: rest) - length (Re.nl :: rest))
      with (S (length m))
      by (cbn [length]; rewrite length_app; cbn [length]; lia).
    cbn [app]. rewrite sub_from_skip.
    cbn [sub_from].
    rewrite line_comment_needs_opening by reflexivity.
    f_equal. apply line_sub_prev.
  - cbn [app] in Hpre. rewrite contains_cons in Hpre.
    apply orb_false_iff in Hpre as [H1 H2].
    cbn [app sub_from].
    rewrite line_comment_needs_opening.
    + f_equal. now apply IH.
    + destruct pre as [|d pre].
      * cbn -[Ascii.eqb] in H1 |- *.
        destruct (Ascii.eqb "/" c); [discriminate H1 | reflexivity].
      * cbn -[Ascii.eqb] in H1 |- *.
        destruct (Ascii.eqb "/" c); [|reflexivity].
        destruct (Ascii.eqb "/" d); [discriminate H1 | reflexivity].
Qed.

End LineFacts.

(** C3, as the code has it.  The instance name of a unit test is its module
  name with every occurrence of [_unit_test] replaced by [_ut], from left
  to right, and the instance name of a suite is the suite name with every
  occurrence of [_testsuite] replaced by [_ts]; the instance names that
  the generators declare are these.  When the only occurrence is the
  trailing one, only the suffix is replaced. *)
Theorem C3_instance_names_replace_every_occurrence :
(forall uts w cls insts w',
    CodeGen.collect_unit_tests uts [] [] w = (Some (cls, insts), w') ->
    insts = map CodeGen.unit_test_instance cls)
/\ (forall tss,
      snd (CodeGen.collect_suites tss)
      = map CodeGen.suite_instance (fst (CodeGen.collect_suites tss)))
/\ (forall a b,
      Text.contains (txt "_unit_test") a = false ->
      CodeGen.unit_test_instance (a ++ txt "_unit_test" ++ b)
      = a ++ txt "_ut" ++ CodeGen.unit_test_instance b)
/\ (forall a,
      Text.contains (txt "_unit_test") a = false ->
      CodeGen.unit_test_instance (a ++ txt "_unit_test") = a ++ txt "_ut")
/\ (forall a b,
      Text.contains (txt "_testsuite") a = false ->
      CodeGen.suite_instance (a ++ txt "_testsuite" ++ b)
      = a ++ txt "_ts" ++ CodeGen.suite_instance b)
/\ (forall a,
      Text.contains (txt "_testsuite") a = false ->
      CodeGen.suite_instance (a ++ txt "_testsuite") = a ++ txt "_ts").
Proof.
repeat split.
- intros uts w cls insts w' H.
  now apply (InstanceNames.collect_unit_tests_instances uts [] [] w cls insts w').
- intros tss. now apply InstanceNames.collect_suites_from.
- exact InstanceNames.unit_test_instance_occurrence.
- intros a H.
  pose proof (InstanceNames.unit_test_instance_occurrence a [] H) as E.
  now rewrite !app_nil_r in E.
- exact InstanceNames.suite_instance_occurrence.
- intros a H.
  pose proof (InstanceNames.suite_instance_occurrence a [] H) as E.
  now rewrite !app_nil_r in E.
Qed.

Lemma C3_witness :
(Text.contains (txt "_unit_test") (txt "a") = false
 /\ CodeGen.unit_test_instance (txt "a" ++ txt "_unit_test" ++ txt "_b_unit_test")
    = txt "a" ++ txt "_ut" ++ CodeGen.unit_test_instance (txt "_b_unit_test"))
/\ (Text.contains (txt "_unit_test") (txt "foo") = false
    /\ CodeGen.unit_test_instance (txt "foo" ++ txt "_unit_test")
       = txt "foo" ++ txt "_ut")
/\ (Text.contains (txt "_testsuite") (txt "a_b") = false
    /\ CodeGen.suite_instance (txt "a_b" ++ txt "_testsuite") = txt "a_b" ++ txt "_ts").
Proof.
pose proof C3_instance_names_replace_every_occurrence as (_ & _ & H3 & H4 & _ & H6).
split; [|split].
- split; [reflexivity|].
  exact (H3 (txt "a") (txt "_b_unit_test") eq_refl).
- split; [reflexivity|].
  exact (H4 (txt "foo") eq_refl).
- split; [reflexivity|].
  exact (H6 (txt "a_b") eq_refl).
Defined.

(** C3 as stated fails: a module name that [_parse_unit_test_name] extracts
  and that holds [_unit_test] twice has both occurrences replaced. *)
Lemma C3_counterexample :
CodeGen.parse_content (txt "module a_unit_test_b_unit_test;")
= Some (txt "a_unit_test_b_unit_test")
/\ CodeGen.unit_test_instance (txt "a_unit_test_b_unit_test") = txt "a_ut_b_ut"
/\ Design.replace_trailing (txt "_unit_test") (txt "_ut")
     (txt "a_unit_test_b_unit_test") = txt "a_unit_test_b_ut"
/\ CodeGen.unit_test_instance (txt "a_unit_test_b_unit_test")
   <> Design.replace_trailing (txt "_unit_test") (txt "_ut")
        (txt "a_unit_test_b_unit_test").
Proof.
split; [reflexivity|]. split; [reflexivity|]. split; [reflexivity|].
vm_compute. discriminate.
Qed.

(** C4, as the code has it.  Line comments are removed up to the end of
  their line, then block comments: a block comment opened by [/*] ends at
  the nearest following [*/], and what follows it is scanned in turn;
  only then is the module declaration searched for, in what is left once
  [static] and [automatic] are removed too. *)
Theorem C4_block_comment_ends_at_nearest_close :
(forall pre body rest,
    Text.contains (txt "/*") pre = false ->
    Text.contains (txt "*/") body = false ->
    CodeGen.strip_block_comments (pre ++ Design.block_comment body ++ rest)
    = pre ++ CodeGen.strip_block_comments rest)
/\ (forall pre body rest,
      Text.contains (txt "//") (pre ++ txt "/") = false ->
      forallb Re.dot body = true ->
      CodeGen.strip_line_comments (pre ++ txt "//" ++ body ++ Re.nl :: rest)
      = pre ++ Re.nl :: CodeGen.strip_line_comments rest)
/\ (forall content,
      CodeGen.parse_content content
      = match Re.search CodeGen.re_module
                (CodeGen.strip_keywords
                   (CodeGen.strip_block_comments
                      (CodeGen.strip_line_comments content))) with
        | Some m => Re.group1 m
        | None => None
        end).
Proof.
split; [|split].
- exact ParseFacts.strip_block_comment_first.
- exact LineFacts.strip_line_comment_first.
- reflexivity.
Qed.

Lemma C4_witness :
(Text.contains (txt "/*") (txt "a ") = false
 /\ Text.contains (txt "*/") (txt " x ") = false
 /\ CodeGen.strip_block_comments
      (txt "a " ++ Design.block_comment (txt " x ") ++ txt " b /* y */ c */")
    = txt "a " ++ CodeGen.strip_block_comments (txt " b /* y */ c */"))
/\ (Text.contains (txt "//") (txt "a " ++ txt "/") = false
    /\ forallb Re.dot (txt " x") = true
    /\ CodeGen.strip_line_comments
         (txt "a " ++ txt "//" ++ txt " x" ++ Re.nl :: txt "b")
       = txt "a " ++ Re.nl :: CodeGen.strip_line_comments (txt "b")).
Proof.
pose proof C4_block_comment_ends_at_nearest_close as (H1 & H2 & _).
split.
- split; [reflexivity|]. split; [reflexivity|].
  exact (H1 (txt "a ") (txt " x ") (txt " b /* y */ c */") eq_refl eq_refl).
- split; [reflexivity|]. split; [reflexivity|].
  exact (H2 (txt "a ") (txt " x") (txt "b") eq_refl eq_refl).
Defined.

(** C4 as stated fails: with two block comments on either side of the
  declaration, greedy stripping would remove the declaration with them;
  the code keeps it and extracts the name. *)
Lemma C4_counterexample :
CodeGen.strip_block_comments (txt "/* a */ module foo_unit_test; /* b */")
= txt " module foo_unit_test; "
/\ Design.strip_block_comments_greedy
     (txt "/* a */ module foo_unit_test; /* b */") = []
/\ CodeGen.strip_block_comments (txt "/* a */ module foo_unit_test; /* b */")
   <> Design.strip_block_comments_greedy
        (txt "/* a */ module foo_unit_test; /* b */")
/\ CodeGen.parse_content (txt "/* a */ module foo_unit_test; /* b */")
   = Some (txt "foo_unit_test").
Proof.
split; [reflexivity|]. split; [reflexivity|]. split; [|reflexivity].
vm_compute. discriminate.
Qed.

(** C5 at the failing input.  From [module widget_unit_test;] the name
  [widget_unit_test] is extracted, and the file of the design document's
  example gives [widget_unit_test] too; but with a well-formed block
  comment put before the declaration, whose last line holds [//], the
  name extracted is the one inside the comment. *)
Theorem C5_comment_before_declaration_changes_name :
let nl := [Re.nl] in
let declaration := txt "module widget_unit_test;" in
let body := nl ++ txt "module fake_unit_test;" ++ nl ++ txt "// " in
Text.contains (txt "*/") body = false
/\ CodeGen.parse_content declaration = Some (txt "widget_unit_test")
/\ CodeGen.parse_content
     (txt "// module fake_unit_test;" ++ nl ++ declaration)
   = Some (txt "widget_unit_test")
/\ CodeGen.parse_content
     (Design.insert_at 0 (Design.block_comment body) declaration)
   = Some (txt "fake_unit_test")
/\ CodeGen.parse_content
     (Design.insert_at 0 (Design.block_comment (txt " // ")) declaration)
   = None.
Proof. cbv zeta. repeat (split; [vm_compute; reflexivity|]). vm_compute; reflexivity. Qed.

Module BackendFacts.

Import FS Run Simulators.

Lemma append_uvm_define_sim_args (self : Simulator) :
  sim_args (append_uvm_define self) = sim_args self.
Proof. reflexivity. Qed.

Lemma uvm_define_sim_args (self : Simulator) :
  sim_args (if uvm self then append_uvm_define self else self) = sim_args self.
Proof. destruct (uvm self); reflexivity. Qed.

#[local] Abbreviation same_sim_args self w :=
  (match run self w with
   | (Some (_, self'), _) => sim_args self' = sim_args self
   | (None, _) => True
   end).

Lemma not_self_append (l : list text) (x : text) : l <> l ++ [x].
Proof.
  intros E. apply (f_equal (@length text)) in E.
  rewrite length_app in E. simpl in E. lia.
Qed.

Lemma others_keep_sim_args (self : Simulator) (w : world) :
  kind self <> ModelSim -> same_sim_args self w.
Proof.
  intros N. unfold run.
  destruct (kind self) eqn:K; try congruence.
  - unfold Irun_run, bind, _run_command, call, ret. cbn.
    apply uvm_define_sim_args.
  - unfold Irun_run, bind, _run_command, call, ret. cbn.
    apply uvm_define_sim_args.
  - unfold Vcs_run, bind, _run_command, call, ret. cbn.
    apply uvm_define_sim_args.
  - unfold Verilator_run, bind, _run_command, call, ret.
    destruct (uvm self); [reflexivity|].
    destruct (truthy (vhdl_file self)); reflexivity.
  - unfold Xsim_run, bind.
    destruct (Xsim_rewrite_manifest self w) as [[[]|] w1]; [|exact I].
    unfold _run_command, bind, call, ret. cbn.
    apply uvm_define_sim_args.
  - unfold Dsim_run, bind, _run_command, call, ret. cbn.
    apply uvm_define_sim_args.
  - unfold Qrun_run, bind, _run_command, call, ret. cbn.
    apply uvm_define_sim_args.
Qed.

Lemma modelsim_sim_args (self : Simulator) (w : world) :
  kind self = ModelSim ->
  exists ok w',
    run self w
    = (Some (ok,
             if existsb is_mode_flag (sim_args self)
             then (if uvm self then append_uvm_define self else self)
             else set_sim_args (if uvm self then append_uvm_define self else self)
                               (sim_args self ++ [txt "-c"])), w').
Proof.
  intros K. unfold run. rewrite K.
  unfold ModelSim_run, bind, _run_command, call, ret.
  cbv zeta. rewrite uvm_define_sim_args.
  destruct (existsb is_mode_flag (sim_args self)); cbn [negb];
    eexists; eexists; reflexivity.
Qed.

End BackendFacts.

(** C7.  When the verification-methodology toggle is set, or a VHDL file
  list is given (a non-empty path), the run of the Verilator backend
  returns false and leaves the world as it was: no command is started. *)
Theorem C7_verilator_fails_fast :
forall (self : Simulators.Simulator) (w : Run.world),
  Simulators.kind self = Simulators.Verilator ->
  Simulators.uvm self = true
  \/ Simulators.truthy (Simulators.vhdl_file self) = true ->
  Simulators.run self w = (Some (false, self), w).
Proof.
intros self w K H. unfold Simulators.run. rewrite K.
unfold Simulators.Verilator_run.
destruct (Simulators.uvm self); [reflexivity|].
destruct H as [H|H]; [discriminate H|].
rewrite H. reflexivity.
Qed.

Lemma C7_witness :
let self :=
  Simulators.set_options (Simulators.new Simulators.Verilator)
    None None None None None false (Some (txt "vhdl.f"))
    (txt "run.log") (txt "/w") None false in
let w := Run.mkWorld (FS.Dir [] []) [txt "w"] (txt "/opt/svunit") [] [] []
                     (fun _ => 0) in
Simulators.kind self = Simulators.Verilator
/\ (Simulators.uvm self = true
    \/ Simulators.truthy (Simulators.vhdl_file self) = true)
/\ Simulators.run self w = (Some (false, self), w).
Proof.
cbv zeta. split; [reflexivity|]. split; [right; reflexivity|].
apply C7_verilator_fails_fast; [reflexivity | right; reflexivity].
Defined.

(** C9, as the code has it.  The run of the ModelSim backend puts the
  default flag [-c] behind the simulation arguments exactly when none of
  them is [-c], [-gui] or [-i]; the run of any other backend leaves the
  simulation arguments as they were given. *)
Theorem C9_only_modelsim_injects_default_mode :
forall (self : Simulators.Simulator) (w : Run.world),
  (Simulators.kind self = Simulators.ModelSim ->
   (Design.injects_default_mode self w = true
    <-> Design.has_mode_flag self = false))
  /\ (Simulators.kind self <> Simulators.ModelSim ->
      Design.injects_default_mode self w = false
      /\ forall ok self' w',
          Simulators.run self w = (Some (ok, self'), w') ->
          Simulators.sim_args self' = Simulators.sim_args self).
Proof.
intros self w. split.
- intros K. unfold Design.injects_default_mode, Design.has_mode_flag.
  destruct (BackendFacts.modelsim_sim_args self w K) as (ok & w' & E).
  rewrite E.
  destruct (existsb Simulators.is_mode_flag (Simulators.sim_args self)).
  + rewrite BackendFacts.uvm_define_sim_args.
    destruct (list_eq_dec _ _ _) as [F|F].
    * now apply BackendFacts.not_self_append in F.
    * split; discriminate.
  + cbn [Simulators.set_sim_args Simulators.sim_args].
    destruct (list_eq_dec _ _ _) as [F|F]; [tauto | congruence].
- intros N. pose proof (BackendFacts.others_keep_sim_args self w N) as S. cbv beta in S.
  unfold Design.injects_default_mode. split.
  + destruct (Simulators.run self w) as [[[ok self']|] w']; [|reflexivity].
    rewrite S.
    destruct (list_eq_dec _ _ _) as [F|F]; [|reflexivity].
    now apply BackendFacts.not_self_append in F.
  + intros ok self' w' E. now rewrite E in S.
Qed.

Lemma C9_witness :
let w := Run.mkWorld (FS.Dir [] []) [txt "w"] (txt "/opt/svunit") [] [] []
                     (fun _ => 0) in
(Simulators.kind (Simulators.new Simulators.ModelSim) = Simulators.ModelSim
 /\ (Design.injects_default_mode (Simulators.new Simulators.ModelSim) w = true
     <-> Design.has_mode_flag (Simulators.new Simulators.ModelSim) = false))
/\ (Simulators.kind (Simulators.new Simulators.Irun) <> Simulators.ModelSim
    /\ Design.injects_default_mode (Simulators.new Simulators.Irun) w = false).
Proof.
cbv zeta. split.
- split; [reflexivity|].
  exact (proj1 (C9_only_modelsim_injects_default_mode
                  (Simulators.new Simulators.ModelSim) _) eq_refl).
- assert (N : Simulators.kind (Simulators.new Simulators.Irun)
              <> Simulators.ModelSim) by discriminate.
  split; [exact N|].
  exact (proj1 (proj2 (C9_only_modelsim_injects_default_mode
                         (Simulators.new Simulators.Irun) _) N)).
Defined.

(** C9 as stated fails: the VCS backend, given no mode flag, starts its
  command with the simulation arguments as they are and adds none. *)
Lemma C9_counterexample :
let w := Run.mkWorld (FS.Dir [] []) [txt "w"] (txt "/opt/svunit") [] [] []
                     (fun _ => 0) in
let self := Simulators.new Simulators.Vcs in
Design.has_mode_flag self = false
/\ Design.injects_default_mode self w = false
/\ Run.w_launched (snd (Simulators.run self w))
   = [txt "vcs -R -sverilog -l run.log  -f .svunit.f -top testrunner"]
/\ ~ (Design.injects_default_mode self w = true
      <-> Design.has_mode_flag self = false).
Proof.
cbv zeta. split; [reflexivity|]. split; [reflexivity|]. split; [reflexivity|].
intros [_ H]. specialize (H eq_refl). vm_compute in H. discriminate H.
Qed.

(** C10.  When discovery finds no test file, [main] returns 0, and neither
  a file has been written (no manifest, no suite, no runner) nor a
  command started (no probe for a backend, no simulation). *)
Theorem C10_no_tests_no_effects :
forall (args : Main.Args) (w : Run.world),
  Discovery.found_tests
    (Discovery.discover (Run.w_root w)
       (Discovery.mkTestDiscovery
          (Main.search_directories (Run.w_cwd w) (Main.directory args))
          (Main.tests args) [])) = [] ->
  exists w',
    Main.main args w = (Some 0, w')
    /\ Run.w_files w' = Run.w_files w
    /\ Run.w_launched w' = Run.w_launched w.
Proof.
intros args w H. unfold Main.main, Run.bind, Run.get_cwd, Run.get_root,
  Run.path_exists, Run.mkdir, Run.ret.
match goal with
| |- context [if ?b then _ else _] => destruct b
end; cbn [Run.w_root Run.w_cwd]; rewrite H; eexists; repeat split.
Qed.

Lemma C10_witness :
let w := Run.mkWorld (FS.Dir [] [FS.Dir (txt "w") [FS.File (txt "a.sv") []]])
                     [txt "w"] (txt "/opt/svunit") [] [] [] (fun _ => 0) in
let args := Main.mkArgs None (txt "run.log") None None false None None None
                        (txt "out") None None None None false false in
exists w',
  Main.main args w = (Some 0, w')
  /\ Run.w_files w' = Run.w_files w
  /\ Run.w_launched w' = Run.w_launched w.
Proof.
cbv zeta. apply C10_no_tests_no_effects. reflexivity.
Defined.

(** ** Discovery *)

Module GroupFacts.

Import FS Discovery.

Lemma in_first_seen (l : list path) (x : path) :
  In x (first_seen l) <-> In x l.
Proof.
  induction l as [|y l IH]; [reflexivity|].
  cbn [first_seen In]. rewrite filter_In, IH.
  destruct (path_eq_dec x y) as [->|N]; [tauto|].
  split; [tauto|]. intros [E|I]; [congruence | tauto].
Qed.

Lemma NoDup_first_seen (l : list path) : NoDup (first_seen l).
Proof.
  induction l as [|y l IH]; [constructor|].
  cbn [first_seen]. constructor.
  - rewrite filter_In. intros [_ H].
    destruct (path_eq_dec y y); [discriminate | congruence].
  - now apply NoDup_filter.
Qed.

Lemma first_seen_snoc (l : list path) (x : path) :
  first_seen (l ++ [x])
  = if in_dec path_eq_dec x l then first_seen l else first_seen l ++ [x].
Proof.
  induction l as [|y l IH]; [reflexivity|].
  cbn [app first_seen]. rewrite IH.
  destruct (in_dec path_eq_dec x l) as [I|I];
    destruct (in_dec path_eq_dec x (y :: l)) as [J|J];
    try reflexivity.
  - exfalso. apply J. now right.
  - destruct J as [->|J]; [|contradiction].
    rewrite filter_app. cbn [filter].
    destruct (path_eq_dec x x); [|congruence]. now rewrite app_nil_r.
  - rewrite filter_app. cbn [filter].
    destruct (path_eq_dec x y) as [->|N]; [|reflexivity].
    exfalso. apply J. now left.
Qed.

Lemma with_parent_snoc (k : path) (l : list path) (f : path) :
  with_parent k (l ++ [f])
  = with_parent k l ++ (if path_eq_dec (parent f) k then [f] else []).
Proof.
  unfold with_parent. rewrite filter_app. cbn [filter].
  destruct (path_eq_dec (parent f) k); reflexivity.
Qed.

Lemma with_parent_absent (k : path) (l : list path) :
  ~ In k (map parent l) -> with_parent k l = [].
Proof.
  induction l as [|f l IH]; intros N; [reflexivity|].
  cbn [map In] in N. unfold with_parent in *. cbn [filter].
  destruct (path_eq_dec (parent f) k); [tauto|]. apply IH. tauto.
Qed.

Section Dict.

Variable h : path -> list path.
Let g (k : path) : path * list path := (k, h k).

Lemma dict_mem_map (k : path) (keys : list path) :
  dict_mem k (map g keys) = if in_dec path_eq_dec k keys then true else false.
Proof.
  induction keys as [|k' keys IH]; [reflexivity|].
  cbn [map dict_mem]. unfold g at 1.
  destruct (path_eq_dec k k') as [->|N].
  - destruct (in_dec path_eq_dec k' (k' :: keys)) as [|J];
      [reflexivity | exfalso; apply J; now left].
  - rewrite IH.
    destruct (in_dec path_eq_dec k keys) as [I|I];
      destruct (in_dec path_eq_dec k (k' :: keys)) as [J|J];
      try reflexivity.
    + exfalso. apply J. now right.
    + destruct J; [congruence | contradiction].
Qed.

Lemma dict_get_map (k : path) (keys : list path) :
  In k keys -> dict_get k (map g keys) = h k.
Proof.
  induction keys as [|k' keys IH]; intros I; [destruct I|].
  cbn [map dict_get]. unfold g at 1.
  destruct (path_eq_dec k k') as [->|N]; [reflexivity|].
  apply IH. destruct I; [congruence | assumption].
Qed.

Lemma dict_set_map_new (k : path) (v : list path) (keys : list path) :
  ~ In k keys -> dict_set k v (map g keys) = map g keys ++ [(k, v)].
Proof.
  induction keys as [|k' keys IH]; intros N; [reflexivity|].
  cbn [map dict_set app]. unfold g at 1.
  destruct (path_eq_dec k k') as [->|D].
  - exfalso. apply N. now left.
  - unfold g at 1. f_equal. apply IH. intros I. apply N. now right.
Qed.

Lemma dict_set_map_known (k : path) (v : list path) (keys : list path) :
  NoDup keys -> In k keys ->
  dict_set k v (map g keys)
  = map (fun k' => if path_eq_dec k k' then (k', v) else g k') keys.
Proof.
  induction keys as [|k' keys IH]; intros ND I; [destruct I|].
  inversion ND as [|? ? N ND']; subst.
  cbn [map dict_set]. unfold g at 1.
  destruct (path_eq_dec k k') as [->|D].
  - f_equal. apply map_ext_in. intros a Ia.
    destruct (path_eq_dec k' a); [congruence | reflexivity].
  - unfold g at 1. f_equal. apply IH; [assumption|].
    destruct I; [congruence | assumption].
Qed.

End Dict.

(** The dictionary built from the files found: the parents in the order
    in which they were first seen, each with its files in the order
    found. *)
Lemma suites_closed_form (l : list path) :
  fold_left add_test_file l []
  = map (fun k => (k, with_parent k l)) (first_seen (map parent l)).
Proof.
  induction l as [|f l IH] using rev_ind; [reflexivity|].
  rewrite fold_left_app, IH. cbn [fold_left].
  unfold add_test_file. rewrite map_app.
  change (map parent [f]) with [parent f]. rewrite first_seen_snoc.
  rewrite (dict_mem_map (fun k => with_parent k l)).
  destruct (in_dec path_eq_dec (parent f) (first_seen (map parent l))) as [I|I];
    destruct (in_dec path_eq_dec (parent f) (map parent l)) as [J|J];
    try (exfalso; rewrite in_first_seen in I; tauto).
  - rewrite (dict_get_map (fun k => with_parent k l)) by assumption.
    rewrite (dict_set_map_known (fun k => with_parent k l))
      by (auto using NoDup_first_seen).
    apply map_ext. intros k. rewrite with_parent_snoc.
    destruct (path_eq_dec (parent f) k) as [<-|N]; [reflexivity|].
    now rewrite app_nil_r.
  - rewrite (dict_set_map_new (fun k => with_parent k l)) by assumption.
    assert (G : dict_get (parent f)
                  (map (fun k => (k, with_parent k l))
                       (first_seen (map parent l)) ++ [(parent f, [])]) = []).
    { clear -I. induction (first_seen (map parent l)) as [|k ks IHk].
      - cbn. destruct (path_eq_dec (parent f) (parent f)); congruence.
      - cbn [map app dict_get].
        destruct (path_eq_dec (parent f) k) as [E|N].
        + exfalso. apply I. now left.
        + apply IHk. intros K. apply I. now right. }
    rewrite G. cbn [app].
    assert (S : forall v ks,
               ~ In (parent f) ks ->
               dict_set (parent f) v
                 (map (fun k => (k, with_parent k l)) ks ++ [(parent f, [])])
               = map (fun k => (k, with_parent k l)) ks ++ [(parent f, v)]).
    { clear. intros v ks. induction ks as [|k ks IHk]; intros N.
      - cbn. destruct (path_eq_dec (parent f) (parent f)); congruence.
      - cbn [map app dict_set].
        destruct (path_eq_dec (parent f) k) as [E|D].
        + exfalso. apply N. now left.
        + f_equal. apply IHk. intros K. apply N. now right. }
    rewrite S by assumption. rewrite map_app. cbn [map]. f_equal.
    + apply map_ext_in. intros k Ik. rewrite with_parent_snoc.
      destruct (path_eq_dec (parent f) k) as [<-|N]; [contradiction|].
      now rewrite app_nil_r.
    + rewrite with_parent_snoc, with_parent_absent by assumption.
      destruct (path_eq_dec (parent f) (parent f)); [reflexivity | congruence].
Qed.

Lemma filter_split (P Q : path -> bool) (l : list path) :
  (forall x, P x = true -> Q x = true -> False) ->
  Permutation (filter P l ++ filter Q l) (filter (fun x => P x || Q x) l).
Proof.
  intros D. induction l as [|x l IH]; [constructor|].
  cbn [filter]. destruct (P x) eqn:EP, (Q x) eqn:EQ; cbn [orb app].
  - exfalso. eauto.
  - now constructor.
  - rewrite <- Permutation_middle. now constructor.
  - exact IH.
Qed.

Lemma groups_cover (keys l : list path) :
  NoDup keys ->
  Permutation (flat_map (fun k => with_parent k l) keys)
              (filter (fun f => if in_dec path_eq_dec (parent f) keys
                                then true else false) l).
Proof.
  induction keys as [|k keys IH]; intros ND.
  - cbn. induction l; [constructor | exact IHl].
  - inversion ND as [|? ? N ND']; subst. cbn [flat_map].
    rewrite (IH ND'). unfold with_parent. rewrite filter_split.
    + rewrite (filter_ext _ (fun f => if in_dec path_eq_dec (parent f) (k :: keys)
                                      then true else false)); [reflexivity|].
      intros f.
      destruct (path_eq_dec (parent f) k) as [E|E];
        destruct (in_dec path_eq_dec (parent f) keys) as [I|I];
        destruct (in_dec path_eq_dec (parent f) (k :: keys)) as [J|J];
        try reflexivity; exfalso.
      * apply J. left. congruence.
      * apply J. left. congruence.
      * apply J. now right.
      * destruct J; [congruence | contradiction].
    + intros f Hk Hin.
      destruct (path_eq_dec (parent f) k) as [E|E]; [|discriminate].
      destruct (in_dec path_eq_dec (parent f) keys) as [I|I]; [|discriminate].
      apply N. congruence.
Qed.

Lemma groups_partition (l : list path) :
  Permutation
    (concat (map snd (map (fun k => (k, with_parent k l))
                          (first_seen (map parent l)))))
    l.
Proof.
  rewrite map_map. cbn [snd]. rewrite <- flat_map_concat_map.
  rewrite groups_cover by apply NoDup_first_seen.
  assert (E : forall l', incl l' l ->
               filter (fun f => if in_dec path_eq_dec (parent f)
                                           (first_seen (map parent l))
                                then true else false) l' = l').
  { induction l' as [|f l' IH]; intros I; [reflexivity|].
    cbn [filter].
    destruct (in_dec path_eq_dec (parent f) (first_seen (map parent l))) as [J|J].
    - f_equal. apply IH. intros x Hx. apply I. now right.
    - exfalso. apply J. rewrite in_first_seen. apply in_map. apply I. now left. }
  rewrite E by apply incl_refl. reflexivity.
Qed.

End GroupFacts.

Module TreeFacts.

Import FS Discovery.

Lemma node_ind (P : node -> Prop) :
  (forall n c, P (File n c)) ->
  (forall n es, Forall P es -> P (Dir n es)) ->
  forall t, P t.
Proof.
  intros HF HD. fix IH 1. intros [n c|n es].
  - apply HF.
  - apply HD. induction es as [|e es IHes]; constructor.
    + apply IH.
    + exact IHes.
Qed.

Lemma text_eqb_eq (a b : text) : Text.eqb a b = true <-> a = b.
Proof.
  revert b. induction a as [|x a IH]; intros [|y b]; cbn;
    try (split; [discriminate | congruence]); [tauto|].
  rewrite andb_true_iff, Ascii.eqb_eq, IH.
  split; [intros [-> ->]; reflexivity | intros [= -> ->]; tauto].
Qed.

Lemma distinct_NoDup (l : list text) : distinct l = true -> NoDup l.
Proof.
  induction l as [|x l IH]; intros H; [constructor|].
  cbn [distinct] in H. apply andb_true_iff in H as [H1 H2].
  constructor; [|now apply IH].
  intros I. apply negb_true_iff in H1.
  assert (E : existsb (Text.eqb x) l = true).
  { apply existsb_exists. exists x. split; [exact I | now apply text_eqb_eq]. }
  congruence.
Qed.

Lemma parent_child (dir : path) (n : text) : parent (dir ++ [n]) = dir.
Proof. apply removelast_last. Qed.

Lemma length_rglob (t : node) :
  forall dir, length (rglob dir t) = count_matching t.
Proof.
  induction t as [n c|n es IH] using node_ind; intros dir; [reflexivity|].
  cbn [rglob count_matching]. rewrite length_app, length_map. f_equal.
  rewrite length_flat_map. f_equal.
  induction IH as [|e es He _ IHes]; [reflexivity|].
  cbn [map]. now rewrite He, IHes.
Qed.

Lemma length_match_dirs (t : node) :
  forall dir, length (match_dirs dir t) = count_parents t.
Proof.
  induction t as [n c|n es IH] using node_ind; intros dir; [reflexivity|].
  cbn [match_dirs count_parents]. rewrite length_app. f_equal.
  - destruct (existsb _ es); reflexivity.
  - rewrite length_flat_map. f_equal.
    induction IH as [|e es He _ IHes]; [reflexivity|].
    cbn [map]. now rewrite He, IHes.
Qed.

Lemma match_dirs_below (t : node) :
  forall dir k, In k (match_dirs dir t) -> exists q, k = dir ++ q.
Proof.
  induction t as [n c|n es IH] using node_ind; intros dir k I; [destruct I|].
  cbn [match_dirs] in I. apply in_app_or in I as [I|I].
  - destruct (existsb _ es); [|destruct I].
    destruct I as [<-|[]]. exists []. now rewrite app_nil_r.
  - apply in_flat_map in I as (e & Ie & I).
    rewrite Forall_forall in IH.
    destruct (IH e Ie _ _ I) as [q ->].
    exists (node_name e :: q). now rewrite <- app_assoc.
Qed.

Lemma own_matches_parent (dir : path) (es : list node) (k : path) :
  In k (map parent
          (map (fun e => dir ++ [node_name e])
               (filter (fun e => is_unit_test_name (node_name e)) es)))
  <-> In k (if existsb (fun e => is_unit_test_name (node_name e)) es
            then [dir] else []).
Proof.
  rewrite map_map.
  assert (A : forall l, In k (map (fun e => parent (dir ++ [node_name e])) l)
                        -> dir = k).
  { intros l I. apply in_map_iff in I as (e & E & _).
    now rewrite parent_child in E. }
  induction es as [|e es IH]; [reflexivity|].
  cbn [filter existsb].
  destruct (is_unit_test_name (node_name e)); cbn [orb map In].
  - rewrite parent_child. split.
    + intros [E|I]; [now left | left; now apply (A _ I)].
    + intros [E|[]]. now left.
  - exact IH.
Qed.

(** The directories that hold a match are the parents of the files
    found. *)
Lemma match_dirs_parents (t : node) :
  forall dir k, In k (match_dirs dir t) <-> In k (map parent (rglob dir t)).
Proof.
  induction t as [n c|n es IH] using node_ind; intros dir k; [reflexivity|].
  cbn [match_dirs rglob]. rewrite map_app, !in_app_iff, own_matches_parent.
  apply or_iff_compat_l.
  rewrite in_map_iff. rewrite Forall_forall in IH. split.
  - intros I. apply in_flat_map in I as (e & Ie & I).
    apply (IH e Ie) in I. apply in_map_iff in I as (f & <- & If).
    exists f. split; [reflexivity|]. apply in_flat_map. eauto.
  - intros (f & <- & If). apply in_flat_map in If as (e & Ie & If).
    apply in_flat_map. exists e. split; [exact Ie|].
    apply (IH e Ie). now apply in_map.
Qed.

Lemma forallb_well_formed (es : list node) :
  forallb well_formed es = true -> forall e, In e es -> well_formed e = true.
Proof. intros H e I. rewrite forallb_forall in H. now apply H. Qed.

Lemma NoDup_match_dirs (t : node) :
  forall dir, well_formed t = true -> NoDup (match_dirs dir t).
Proof.
  induction t as [n c|n es IH] using node_ind; intros dir W; [constructor|].
  cbn [well_formed] in W. apply andb_true_iff in W as [W1 W2].
  apply distinct_NoDup in W1.
  cbn [match_dirs].
  assert (Below : forall e k,
             In e es -> In k (match_dirs (dir ++ [node_name e]) e) ->
             exists q, k = dir ++ node_name e :: q).
  { intros e k Ie Ik. apply match_dirs_below in Ik as [q ->].
    exists q. now rewrite <- app_assoc. }
  assert (Sub : NoDup (flat_map (fun e => match_dirs (dir ++ [node_name e]) e) es)).
  { clear n. induction es as [|e es IHes]; [constructor|].
    cbn [flat_map map] in *.
    inversion IH as [|? ? He Hes]; subst.
    inversion W1 as [|? ? N ND]; subst.
    cbn [forallb] in W2. apply andb_true_iff in W2 as [We Wes].
    apply NoDup_app.
    - now apply He.
    - apply IHes; try assumption.
      intros e' k Ie'. apply Below. now right.
    - intros k Ik Ik'. apply in_flat_map in Ik' as (e' & Ie' & Ik').
      apply (Below e k (or_introl eq_refl)) in Ik as [q ->].
      apply (Below e' _ (or_intror Ie')) in Ik' as [q' E].
      apply app_inv_head in E. injection E as E _.
      apply N. rewrite E. now apply in_map. }
  destruct (existsb _ es); [|exact Sub].
  cbn [app]. constructor; [|exact Sub].
  intros I. apply in_flat_map in I as (e & Ie & I).
  apply (Below e _ Ie) in I as [q E].
  apply (f_equal (@length text)) in E. rewrite length_app in E.
  cbn [length] in E. lia.
Qed.

Lemma collect_found (l found : list path) :
  fold_left (fun found test_file => found ++ [test_file]) l found = found ++ l.
Proof.
  revert found. induction l as [|x l IH]; intros found; cbn [fold_left].
  - now rewrite app_nil_r.
  - rewrite IH, <- app_assoc. reflexivity.
Qed.

Lemma discover_one_tree (root : node) (dir : path) (t : node)
    (tests : option (list text)) :
  lookup dir root = Some t ->
  has_tests tests = false ->
  found_tests (discover root (mkTestDiscovery [dir] tests []))
  = rglob dir t.
Proof.
  intros L H. unfold discover. cbn [found_tests directories Discovery.tests fold_left].
  unfold _find_tests_in_directory. rewrite L, H. apply collect_found.
Qed.

End TreeFacts.

(** C2.  Let a directory tree, in which no directory lists a name twice,
  hold [N] entries whose names end in [_unit_test.sv], in [D] directories.
  Discovery from its root with no test named finds [N] files, and
  [get_test_suites] makes [D] groups of them: the keys are the parents of
  the files, each once and in the order in which discovery first met
  them; the group of a key holds the files found with that parent, in the
  order found, and is not empty; and the groups together hold the files
  found, each once. *)
Theorem C2_discovery_groups_by_parent :
forall (root : FS.node) (dir : FS.path) (t : FS.node)
       (tests : option (list text)),
  FS.lookup dir root = Some t ->
  FS.well_formed t = true ->
  Discovery.has_tests tests = false ->
  let d := Discovery.discover root (Discovery.mkTestDiscovery [dir] tests []) in
  let found := Discovery.found_tests d in
  let suites := Discovery.get_test_suites d in
  length found = FS.count_matching t
  /\ length suites = FS.count_parents t
  /\ map fst suites = Discovery.first_seen (map FS.parent found)
  /\ NoDup (map fst suites)
  /\ (forall k files,
        In (k, files) suites ->
        files = Discovery.with_parent k found
        /\ files <> []
        /\ forall f, In f files -> FS.parent f = k)
  /\ Permutation (concat (map snd suites)) found.
Proof.
intros root dir t tests L W H d found suites.
assert (F : found = FS.rglob dir t)
  by (apply TreeFacts.discover_one_tree; assumption).
assert (S : suites
            = map (fun k => (k, Discovery.with_parent k found))
                  (Discovery.first_seen (map FS.parent found)))
  by apply GroupFacts.suites_closed_form.
assert (K : map fst suites = Discovery.first_seen (map FS.parent found)).
{ rewrite S, map_map. cbn [fst]. apply map_id. }
split; [|split; [|split; [|split; [|split]]]].
- rewrite F. apply TreeFacts.length_rglob.
- rewrite <- (length_map fst), K, <- (TreeFacts.length_match_dirs t dir).
  apply Permutation_length, NoDup_Permutation.
  + apply GroupFacts.NoDup_first_seen.
  + now apply TreeFacts.NoDup_match_dirs.
  + intros k. rewrite GroupFacts.in_first_seen, F.
    symmetry. apply TreeFacts.match_dirs_parents.
- exact K.
- rewrite K. apply GroupFacts.NoDup_first_seen.
- intros k files I. rewrite S in I. apply in_map_iff in I as (k' & E & I).
  injection E as -> <-. split; [reflexivity|]. split.
  + apply GroupFacts.in_first_seen, in_map_iff in I as (f & E & I).
    intros N.
    assert (J : In f (Discovery.with_parent k found)).
    { apply filter_In. split; [exact I|].
      destruct (FS.path_eq_dec (FS.parent f) k); [reflexivity | contradiction]. }
    rewrite N in J. destruct J.
  + intros f J. apply filter_In in J as [_ J].
    destruct (FS.path_eq_dec (FS.parent f) k); [assumption | discriminate].
- rewrite S. apply GroupFacts.groups_partition.
Qed.

Lemma C2_witness :
let root :=
  FS.Dir []
    [FS.Dir (txt "a") [FS.File (txt "foo_unit_test.sv") [];
                       FS.File (txt "bar_unit_test.sv") []];
     FS.Dir (txt "b") [FS.File (txt "baz_unit_test.sv") [];
                       FS.File (txt "readme.txt") []]] in
let d := Discovery.discover root (Discovery.mkTestDiscovery [[]] None []) in
length (Discovery.found_tests d) = 3
/\ length (Discovery.get_test_suites d) = 2
/\ Discovery.get_test_suites d
   = [([txt "a"], [[txt "a"; txt "foo_unit_test.sv"];
                   [txt "a"; txt "bar_unit_test.sv"]]);
      ([txt "b"], [[txt "b"; txt "baz_unit_test.sv"]])].
Proof.
cbv zeta.
pose proof (C2_discovery_groups_by_parent
              (FS.Dir []
                 [FS.Dir (txt "a") [FS.File (txt "foo_unit_test.sv") [];
                                    FS.File (txt "bar_unit_test.sv") []];
                  FS.Dir (txt "b") [FS.File (txt "baz_unit_test.sv") [];
                                    FS.File (txt "readme.txt") []]])
              [] _ None eq_refl eq_refl eq_refl) as (H1 & H2 & _).
split; [exact H1|]. split; [exact H2|]. reflexivity.
Defined.

(** ** Steps of a run *)

Module RunFacts.

Import FS Run StoreFacts.

(** Everything but the files written is as before. *)
#[local] Abbreviation same_env w w' :=
  (w_root w' = w_root w /\ w_cwd w' = w_cwd w /\ w_install w' = w_install w
   /\ w_made w' = w_made w /\ w_launched w' = w_launched w).

Lemma bind_some {A B : Type} (m : M A) (k : A -> M B) w b w2 :
  bind m k w = (Some b, w2) ->
  exists a w1, m w = (Some a, w1) /\ k a w1 = (Some b, w2).
Proof.
  unfold bind. destruct (m w) as [[a|] w1]; [|discriminate].
  intros H. now exists a, w1.
Qed.

Lemma open_w_effect p w :
  exists w',
    open_w p w = (Some tt, w')
    /\ store_get p (w_files w') = Some []
    /\ (forall q, q <> p -> store_get q (w_files w') = store_get q (w_files w))
    /\ same_env w w'.
Proof.
  eexists. split; [reflexivity|]. cbn [set_files w_files]. split.
  - apply store_get_set_same.
  - split; [|repeat split]. intros q N. now apply store_get_set_other.
Qed.

Lemma write_effect p c w :
  exists w',
    write p c w = (Some tt, w')
    /\ store_get p (w_files w') = Some (writes_of w p ++ [c])
    /\ (forall q, q <> p -> store_get q (w_files w') = store_get q (w_files w))
    /\ same_env w w'.
Proof.
  eexists. split; [reflexivity|]. cbn [set_files w_files]. split.
  - apply store_get_set_same.
  - split; [|repeat split]. intros q N. now apply store_get_set_other.
Qed.

Lemma writes_of_get w p l : store_get p (w_files w) = Some l -> writes_of w p = l.
Proof. unfold writes_of. now intros ->. Qed.

Lemma write_all_effect p chunks :
  forall w,
    exists w',
      write_all p chunks w = (Some tt, w')
      /\ writes_of w' p = writes_of w p ++ chunks
      /\ (chunks <> [] -> store_get p (w_files w') = Some (writes_of w p ++ chunks))
      /\ (store_get p (w_files w) <> None -> store_get p (w_files w') <> None)
      /\ (forall q, q <> p -> store_get q (w_files w') = store_get q (w_files w))
      /\ same_env w w'.
Proof.
  induction chunks as [|c chunks IH]; intros w.
  - exists w. cbn. rewrite app_nil_r. repeat split; try tauto; try congruence.
  - cbn [write_all]. unfold bind.
    destruct (write_effect p c w) as (w1 & E1 & G1 & F1 & R1 & C1 & I1 & M1 & L1).
    rewrite E1.
    destruct (IH w1) as (w2 & E2 & W2 & G2 & N2 & F2 & R2 & C2 & I2 & M2 & L2).
    exists w2. rewrite E2.
    assert (W : writes_of w2 p = writes_of w p ++ c :: chunks).
    { rewrite W2, (writes_of_get _ _ _ G1), <- app_assoc. reflexivity. }
    split; [reflexivity|]. split; [exact W|]. split.
    { intros _.
      assert (G : store_get p (w_files w2) <> None)
        by (apply N2; rewrite G1; discriminate).
      unfold writes_of in W at 1.
      destruct (store_get p (w_files w2)); [now rewrite W | contradiction]. }
    split.
    { intros _. apply N2. rewrite G1. discriminate. }
    split.
    { intros q N. rewrite F2, F1 by assumption. reflexivity. }
    repeat split; congruence.
Qed.

End RunFacts.

(** ** Code generation *)

Module GenFacts.

Import FS Run StoreFacts RunFacts CodeGen.

Lemma collect_unit_tests_pure uts :
  forall cls insts w, snd (collect_unit_tests uts cls insts w) = w.
Proof.
  induction uts as [|ut uts IH]; intros cls insts w; [reflexivity|].
  cbn [collect_unit_tests]. unfold bind, _parse_unit_test_name at 1, bind, read_file, ret.
  destruct (store_get ut (w_files w)) as [chunks|].
  - destruct (truthy _); apply IH.
  - destruct (lookup ut (w_root w)) as [[n c|n es]|]; try reflexivity.
    destruct (truthy _); apply IH.
Qed.

Lemma create_testsuite_effect out uts w cls insts :
  fst (collect_unit_tests uts [] [] w) = Some (cls, insts) ->
  exists w',
    create_testsuite out uts w = (Some tt, w')
    /\ store_get out (w_files w')
       = Some (testsuite_writes (testsuite_class out)
                 (Text.replace (txt "_testsuite") (txt "_ts") (testsuite_class out))
                 cls insts)
    /\ (forall q, q <> out -> store_get q (w_files w') = store_get q (w_files w))
    /\ (w_root w' = w_root w /\ w_cwd w' = w_cwd w /\ w_install w' = w_install w
        /\ w_made w' = w_made w /\ w_launched w' = w_launched w).
Proof.
  intros H. unfold create_testsuite. unfold bind at 1.
  pose proof (collect_unit_tests_pure uts [] [] w) as P.
  destruct (collect_unit_tests uts [] [] w) as [r w0]. cbn in H, P. subst w0 r.
  unfold bind.
  destruct (open_w_effect out w) as (w1 & E1 & G1 & F1 & R1 & C1 & I1 & M1 & L1).
  rewrite E1.
  destruct (write_all_effect out
              (testsuite_writes (testsuite_class out)
                 (Text.replace (txt "_testsuite") (txt "_ts") (testsuite_class out))
                 cls insts) w1)
    as (w2 & E2 & W2 & G2 & N2 & F2 & R2 & C2 & I2 & M2 & L2).
  exists w2. split; [exact E2|]. split.
  { rewrite G2; [|discriminate]. now rewrite (writes_of_get _ _ _ G1). }
  split.
  { intros q N. rewrite F2, F1 by assumption. reflexivity. }
  repeat split; congruence.
Qed.

Lemma create_testsuite_raises out uts w :
  fst (collect_unit_tests uts [] [] w) = None ->
  create_testsuite out uts w = (None, w).
Proof.
  intros H. unfold create_testsuite. unfold bind at 1.
  pose proof (collect_unit_tests_pure uts [] [] w) as P.
  destruct (collect_unit_tests uts [] [] w) as [r w0]. cbn in H, P.
  now subst w0 r.
Qed.

Lemma create_testrunner_effect out tss w :
  exists w',
    create_testrunner out tss w = (Some tt, w')
    /\ store_get out (w_files w')
       = Some (testrunner_writes (txt "testrunner")
                 (fst (collect_suites tss)) (snd (collect_suites tss)))
    /\ (forall q, q <> out -> store_get q (w_files w') = store_get q (w_files w))
    /\ (w_root w' = w_root w /\ w_cwd w' = w_cwd w /\ w_install w' = w_install w
        /\ w_made w' = w_made w /\ w_launched w' = w_launched w).
Proof.
  unfold create_testrunner.
  destruct (collect_suites tss) as [cls insts]. cbn [fst snd]. unfold bind.
  destruct (open_w_effect out w) as (w1 & E1 & G1 & F1 & R1 & C1 & I1 & M1 & L1).
  rewrite E1.
  destruct (write_all_effect out (testrunner_writes (txt "testrunner") cls insts) w1)
    as (w2 & E2 & W2 & G2 & N2 & F2 & R2 & C2 & I2 & M2 & L2).
  exists w2. split; [exact E2|]. split.
  { rewrite G2; [|discriminate]. now rewrite (writes_of_get _ _ _ G1). }
  split.
  { intros q N. rewrite F2, F1 by assumption. reflexivity. }
  repeat split; congruence.
Qed.

Lemma combine_map {A B : Type} (f : A -> B) (l : list A) :
  combine l (map f l) = map (fun x => (x, f x)) l.
Proof. induction l as [|x l IH]; cbn; [reflexivity | now rewrite IH]. Qed.

Lemma flat_map_map {A B C : Type} (f : A -> B) (g : B -> list C) (l : list A) :
  flat_map g (map f l) = flat_map (fun x => g (f x)) l.
Proof. induction l as [|x l IH]; cbn; [reflexivity | now rewrite IH]. Qed.

(** The layout of a generated suite: fixed parts, and between them one
    part for each module name, which depends on that name only. *)
Lemma testsuite_layout (class_name instance_name : text) :
  exists (h0 h1 h2 h3 h4 : list text) (decl add run_ : text -> text)
         (build : text -> list text),
  forall ids,
    testsuite_writes class_name instance_name ids (map unit_test_instance ids)
    = h0 ++ map decl ids ++ h1 ++ flat_map build ids ++ h2
         ++ map add ids ++ h3 ++ map run_ ids ++ h4.
Proof.
  do 9 eexists. intros ids. unfold testsuite_writes.
  rewrite combine_map, !map_map, flat_map_map. reflexivity.
Qed.

Lemma testrunner_layout (class_name : text) :
  exists (h0 h1 h2 h3 : list text) (decl run_ : text -> text)
         (build : text -> list text),
  forall names,
    testrunner_writes class_name names (map suite_instance names)
    = h0 ++ map decl names ++ h1 ++ flat_map build names ++ h2
         ++ map run_ names ++ h3.
Proof.
  do 7 eexists. intros ids. unfold testrunner_writes.
  rewrite combine_map, !map_map, flat_map_map. reflexivity.
Qed.

Lemma collect_suites_classes tss :
  forall cls insts,
    fst (fold_left
           (fun '(suite_classes, suite_instances) ts =>
              let name := suite_class ts in
              (suite_classes ++ [name], suite_instances ++ [suite_instance name]))
           tss (cls, insts))
    = cls ++ map suite_class tss.
Proof.
  induction tss as [|ts tss IH]; intros cls insts; cbn [fold_left map].
  - now rewrite app_nil_r.
  - rewrite IH, <- app_assoc. reflexivity.
Qed.

End GenFacts.

Module OrderFacts.

Import FS Run CodeGen GenFacts.

Lemma testsuite_writes_permuted class_name instance_name ids ids' :
  Permutation ids ids' ->
  Permutation
    (testsuite_writes class_name instance_name ids (map unit_test_instance ids))
    (testsuite_writes class_name instance_name ids' (map unit_test_instance ids')).
Proof.
  intros P.
  destruct (testsuite_layout class_name instance_name)
    as (h0 & h1 & h2 & h3 & h4 & decl & add & run_ & build & E).
  rewrite !E.
  repeat first
    [ apply Permutation_app_head
    | apply Permutation_app;
      [ first [ now apply Permutation_map | now apply Permutation_flat_map ] | ]
    | reflexivity ].
Qed.

Lemma testrunner_writes_permuted class_name names names' :
  Permutation names names' ->
  Permutation
    (testrunner_writes class_name names (map suite_instance names))
    (testrunner_writes class_name names' (map suite_instance names')).
Proof.
  intros P.
  destruct (testrunner_layout class_name)
    as (h0 & h1 & h2 & h3 & decl & run_ & build & E).
  rewrite !E.
  repeat first
    [ apply Permutation_app_head
    | apply Permutation_app;
      [ first [ now apply Permutation_map | now apply Permutation_flat_map ] | ]
    | reflexivity ].
Qed.

Lemma testsuite_content out uts w names insts :
  fst (collect_unit_tests uts [] [] w) = Some (names, insts) ->
  fst (create_testsuite out uts w) = Some tt
  /\ content_of (snd (create_testsuite out uts w)) out
     = Some (concat
               (testsuite_writes (testsuite_class out)
                  (Text.replace (txt "_testsuite") (txt "_ts") (testsuite_class out))
                  names (map unit_test_instance names))).
Proof.
  intros H.
  assert (I : insts = map unit_test_instance names).
  { pose proof (collect_unit_tests_pure uts [] [] w) as Pw.
    destruct (collect_unit_tests uts [] [] w) as [r w0] eqn:E.
    cbn in H, Pw. subst r w0.
    now apply (InstanceNames.collect_unit_tests_instances uts [] [] w names insts w). }
  destruct (create_testsuite_effect out uts w names insts H) as (w' & E & G & _).
  rewrite E. cbn [fst snd]. split; [reflexivity|].
  unfold content_of. rewrite G, I. reflexivity.
Qed.

Lemma testrunner_content out tss w :
  fst (create_testrunner out tss w) = Some tt
  /\ content_of (snd (create_testrunner out tss w)) out
     = Some (concat
               (testrunner_writes (txt "testrunner") (map suite_class tss)
                  (map suite_instance (map suite_class tss)))).
Proof.
  destruct (create_testrunner_effect out tss w) as (w' & E & G & _).
  rewrite E. cbn [fst snd]. split; [reflexivity|].
  unfold content_of. rewrite G.
  assert (S : snd (collect_suites tss)
              = map suite_instance (fst (collect_suites tss)))
    by exact (InstanceNames.collect_suites_from tss [] [] eq_refl).
  assert (C : fst (collect_suites tss) = map suite_class tss)
    by exact (collect_suites_classes tss [] []).
  rewrite S, C. reflexivity.
Qed.

End OrderFacts.

(** C1.  The text of a generated suite depends on the output file and on
    the module names extracted from the test files, in their order, and on
    nothing else: two generations that extract the same names write the
    same text.  The text of the generated runner depends on the suite names
    in their order only.  Both are made of fixed parts and, between them,
    one part for each name, which depends on that name only; so when the
    names are permuted the writes are the same writes in another order. *)
Theorem C1_generation_is_a_function_of_the_ordered_names :
  (forall out uts1 w1 uts2 w2 names insts1 insts2,
      fst (CodeGen.collect_unit_tests uts1 [] [] w1) = Some (names, insts1) ->
      fst (CodeGen.collect_unit_tests uts2 [] [] w2) = Some (names, insts2) ->
      fst (CodeGen.create_testsuite out uts1 w1) = Some tt
      /\ fst (CodeGen.create_testsuite out uts2 w2) = Some tt
      /\ Run.content_of (snd (CodeGen.create_testsuite out uts1 w1)) out <> None
      /\ Run.content_of (snd (CodeGen.create_testsuite out uts1 w1)) out
         = Run.content_of (snd (CodeGen.create_testsuite out uts2 w2)) out)
  /\ (forall out tss1 w1 tss2 w2,
        map CodeGen.suite_class tss1 = map CodeGen.suite_class tss2 ->
        fst (CodeGen.create_testrunner out tss1 w1) = Some tt
        /\ fst (CodeGen.create_testrunner out tss2 w2) = Some tt
        /\ Run.content_of (snd (CodeGen.create_testrunner out tss1 w1)) out <> None
        /\ Run.content_of (snd (CodeGen.create_testrunner out tss1 w1)) out
           = Run.content_of (snd (CodeGen.create_testrunner out tss2 w2)) out)
  /\ (forall class_name instance_name,
        exists (h0 h1 h2 h3 h4 : list text) (decl add run_ : text -> text)
               (build : text -> list text),
        forall names,
          CodeGen.testsuite_writes class_name instance_name names
            (map CodeGen.unit_test_instance names)
          = h0 ++ map decl names ++ h1 ++ flat_map build names ++ h2
               ++ map add names ++ h3 ++ map run_ names ++ h4)
  /\ (forall class_name,
        exists (h0 h1 h2 h3 : list text) (decl run_ : text -> text)
               (build : text -> list text),
        forall names,
          CodeGen.testrunner_writes class_name names
            (map CodeGen.suite_instance names)
          = h0 ++ map decl names ++ h1 ++ flat_map build names ++ h2
               ++ map run_ names ++ h3)
  /\ (forall class_name instance_name names names',
        Permutation names names' ->
        Permutation
          (CodeGen.testsuite_writes class_name instance_name names
             (map CodeGen.unit_test_instance names))
          (CodeGen.testsuite_writes class_name instance_name names'
             (map CodeGen.unit_test_instance names')))
  /\ (forall class_name names names',
        Permutation names names' ->
        Permutation
          (CodeGen.testrunner_writes class_name names
             (map CodeGen.suite_instance names))
          (CodeGen.testrunner_writes class_name names'
             (map CodeGen.suite_instance names'))).
Proof.
  split; [|split; [|split; [|split; [|split]]]].
  - intros out uts1 w1 uts2 w2 names insts1 insts2 H1 H2.
    destruct (OrderFacts.testsuite_content out uts1 w1 names insts1 H1) as [R1 C1].
    destruct (OrderFacts.testsuite_content out uts2 w2 names insts2 H2) as [R2 C2].
    rewrite C1, C2. repeat split; try assumption. discriminate.
  - intros out tss1 w1 tss2 w2 H.
    destruct (OrderFacts.testrunner_content out tss1 w1) as [R1 C1].
    destruct (OrderFacts.testrunner_content out tss2 w2) as [R2 C2].
    rewrite C1, C2, H. repeat split; try assumption. discriminate.
  - exact GenFacts.testsuite_layout.
  - exact GenFacts.testrunner_layout.
  - exact OrderFacts.testsuite_writes_permuted.
  - exact OrderFacts.testrunner_writes_permuted.
Qed.

Lemma C1_witness :
  let root :=
    FS.Dir []
      [FS.Dir (txt "a") [FS.File (txt "foo_unit_test.sv") (txt "module foo_unit_test;");
                         FS.File (txt "bar_unit_test.sv") (txt "module bar_unit_test;")]] in
  let w := Run.mkWorld root [] (txt "/opt/svunit") [] [] [] (fun _ => 0) in
  let foo := [txt "a"; txt "foo_unit_test.sv"] in
  let bar := [txt "a"; txt "bar_unit_test.sv"] in
  let out := [txt ".a_testsuite.sv"] in
  (Run.content_of (snd (CodeGen.create_testsuite out [foo; bar] w)) out
   = Run.content_of
       (snd (CodeGen.create_testsuite out [foo; bar]
               (snd (CodeGen.create_testsuite out [foo; bar] w)))) out)
  /\ Permutation
       (CodeGen.testsuite_writes (txt "a_testsuite") (txt "a_ts")
          [txt "foo_unit_test"; txt "bar_unit_test"]
          (map CodeGen.unit_test_instance [txt "foo_unit_test"; txt "bar_unit_test"]))
       (CodeGen.testsuite_writes (txt "a_testsuite") (txt "a_ts")
          [txt "bar_unit_test"; txt "foo_unit_test"]
          (map CodeGen.unit_test_instance [txt "bar_unit_test"; txt "foo_unit_test"])).
Proof.
  cbv zeta.
  pose proof C1_generation_is_a_function_of_the_ordered_names
    as (H1 & _ & _ & _ & H5 & _).
  split.
  - refine (proj2 (proj2 (proj2 (H1 _ _ _ _ _
              [txt "foo_unit_test"; txt "bar_unit_test"]
              [txt "foo_ut"; txt "bar_ut"] [txt "foo_ut"; txt "bar_ut"] _ _))));
      vm_compute; reflexivity.
  - apply H5. apply perm_swap.
Defined.

(** ** The manifest *)

Module ManifestFacts.

Import FS Run StoreFacts RunFacts CodeGen GenFacts Main.
Local Open Scope run_scope.

(** From [w] to [w'] the lines [l] were added to [f]; the working directory
    and the installation root are the same. *)
#[local] Abbreviation added f l w w' :=
  (writes_of w' f = writes_of w f ++ l
   /\ w_cwd w' = w_cwd w /\ w_install w' = w_install w).

Lemma bind_added {A B : Type} f (m : M A) (k : A -> M B) l1 l2 w b w2 :
  bind m k w = (Some b, w2) ->
  (forall a w1, m w = (Some a, w1) -> added f l1 w w1) ->
  (forall a w1, added f l1 w w1 -> k a w1 = (Some b, w2) -> added f l2 w1 w2) ->
  added f (l1 ++ l2) w w2.
Proof.
  intros H H1 H2. apply bind_some in H as (a & w1 & E & K).
  destruct (H1 a w1 E) as (A1 & C1 & I1).
  destruct (H2 a w1 (conj A1 (conj C1 I1)) K) as (A2 & C2 & I2).
  rewrite A2, A1, <- app_assoc. repeat split; congruence.
Qed.

Lemma write_added f c w a w' :
  write f c w = (Some a, w') -> added f [c] w w'.
Proof.
  destruct (write_effect f c w) as (w1 & E & G & _ & _ & C & I & _).
  rewrite E. intros [= _ <-].
  rewrite (writes_of_get _ _ _ G). repeat split; assumption.
Qed.

Lemma write_all_added f chunks w a w' :
  write_all f chunks w = (Some a, w') -> added f chunks w w'.
Proof.
  destruct (write_all_effect f chunks w) as (w1 & E & W & _ & _ & _ & _ & C & I & _).
  rewrite E. intros [= _ <-]. repeat split; assumption.
Qed.

Lemma ret_added {A : Type} f (x : A) w a w' :
  ret x w = (Some a, w') -> added f [] w w'.
Proof. intros [= _ <-]. rewrite app_nil_r. repeat split. Qed.

Lemma writes_of_other w w' f :
  store_get f (w_files w') = store_get f (w_files w) ->
  writes_of w' f = writes_of w f.
Proof. unfold writes_of. now intros ->. Qed.

Lemma create_testsuite_added f out uts w a w' :
  out <> f ->
  create_testsuite out uts w = (Some a, w') -> added f [] w w'.
Proof.
  intros N H. rewrite app_nil_r.
  destruct (fst (collect_unit_tests uts [] [] w)) as [[cls insts]|] eqn:E.
  - destruct (create_testsuite_effect out uts w cls insts E)
      as (w1 & E1 & _ & F & _ & C & I & _).
    rewrite E1 in H. injection H as _ <-.
    split; [|split; assumption].
    apply writes_of_other, F. congruence.
  - rewrite (create_testsuite_raises out uts w E) in H. discriminate H.
Qed.

Lemma create_testrunner_added f out tss w a w' :
  out <> f ->
  create_testrunner out tss w = (Some a, w') -> added f [] w w'.
Proof.
  intros N H. rewrite app_nil_r.
  destruct (create_testrunner_effect out tss w) as (w1 & E1 & _ & F & _ & C & I & _).
  rewrite E1 in H. injection H as _ <-.
  split; [|split; assumption].
  apply writes_of_other, F. congruence.
Qed.

Lemma testsuite_file_is_not_manifest (outdir : path) (dir_id : text) :
  outdir ++ [txt "." ++ dir_id ++ txt "_testsuite.sv"]
  <> outdir ++ [txt ".svunit.f"].
Proof.
  intros E. apply app_inv_head in E. injection E as E.
  apply (f_equal (@rev ascii)) in E.
  rewrite !rev_app_distr in E. cbn in E. discriminate E.
Qed.

Lemma testrunner_file_is_not_manifest (outdir : path) :
  outdir ++ [txt ".testrunner.sv"] <> outdir ++ [txt ".svunit.f"].
Proof. intros E. apply app_inv_head in E. discriminate E. Qed.

(** The lines of the manifest for one suite. *)
#[local] Abbreviation suite_lines cwd outdir suite :=
  (map (fun test => str test ++ nl) (snd suite)
   ++ [txt "+incdir+" ++ str (fst suite) ++ nl;
       str (outdir ++ [txt "." ++ dir_id_of cwd (fst suite) ++ txt "_testsuite.sv"])
       ++ nl]).

Lemma generate_suite_added outdir g suite w g' w' :
  generate_suite (outdir ++ [txt ".svunit.f"]) outdir g suite w = (Some g', w') ->
  added (outdir ++ [txt ".svunit.f"]) (suite_lines (w_cwd w) outdir suite) w w'.
Proof.
  destruct suite as [suite_dir tests]. unfold generate_suite.
  unfold bind at 1, get_cwd. cbn [fst snd]. intros H.
  change (map (fun test => str test ++ nl) tests
          ++ [txt "+incdir+" ++ str suite_dir ++ nl;
              str (outdir ++ [txt "." ++ dir_id_of (w_cwd w) suite_dir
                                   ++ txt "_testsuite.sv"]) ++ nl])
    with ([] ++ map (fun test => str test ++ nl) tests
             ++ [txt "+incdir+" ++ str suite_dir ++ nl]
             ++ [str (outdir ++ [txt "." ++ dir_id_of (w_cwd w) suite_dir
                                      ++ txt "_testsuite.sv"]) ++ nl]
             ++ []).
  eapply bind_added; [exact H | |].
  { intros a w1. apply create_testsuite_added, testsuite_file_is_not_manifest. }
  intros a1 w1 _ H1.
  eapply bind_added; [exact H1 | |].
  { intros a w2. apply write_all_added. }
  intros a2 w2 _ H2.
  eapply bind_added; [exact H2 | |].
  { intros a w3. apply write_added. }
  intros a3 w3 _ H3.
  eapply bind_added; [exact H3 | |].
  { intros a w4. apply write_added. }
  intros a4 w4 _ H4. cbv beta in H4. eapply ret_added, H4.
Qed.

Lemma generate_suites_added outdir suites :
  forall g w g' w',
    generate_suites (outdir ++ [txt ".svunit.f"]) outdir g suites w = (Some g', w') ->
    added (outdir ++ [txt ".svunit.f"])
          (flat_map (fun suite => suite_lines (w_cwd w) outdir suite) suites) w w'.
Proof.
  induction suites as [|suite suites IH]; intros g w g' w' H.
  - cbn [flat_map]. eapply ret_added, H.
  - cbn [generate_suites flat_map] in H |- *.
    eapply bind_added; [exact H | |].
    + intros a w1. apply generate_suite_added.
    + intros a w1 (_ & C & _) H1. rewrite <- C.
      now apply IH in H1.
Qed.

Ltac next H lem :=
  eapply bind_added; [exact H | intros ? ?; lem | ];
  let a := fresh "a" in
  let w := fresh "w" in
  let C := fresh "C" in
  let I := fresh "I" in
  intros a w (_ & C & I); clear H; intros H; cbv beta in H.

Lemma generate_added args outdir suites w w' :
  generate args outdir suites w = (Some tt, w') ->
  writes_of w' (outdir ++ [txt ".svunit.f"])
  = [ txt "+incdir+" ++ str (w_cwd w) ++ nl;
      txt "+incdir+" ++ w_install w ++ txt "/svunit_base/junit-xml" ++ nl;
      w_install w ++ txt "/svunit_base/junit-xml/junit_xml.sv" ++ nl;
      txt "+incdir+" ++ w_install w ++ txt "/svunit_base" ++ nl;
      w_install w ++ txt "/svunit_base/svunit_pkg.sv" ++ nl ]
    ++ (if uvm args
        then [ txt "+incdir+" ++ w_install w ++ txt "/svunit_base/uvm-mock" ++ nl;
               w_install w ++ txt "/svunit_base/uvm-mock/svunit_uvm_mock_pkg.sv" ++ nl ]
        else [])
    ++ (if enable_experimental args
        then [ txt "+incdir+" ++ w_install w ++ txt "/src/experimental/sv" ++ nl;
               w_install w ++ txt "/src/experimental/sv/svunit.sv" ++ nl ]
        else [])
    ++ flat_map (fun suite => suite_lines (w_cwd w) outdir suite) suites
    ++ [ str (outdir ++ [txt ".testrunner.sv"]) ++ nl ].
Proof.
  unfold generate. unfold bind at 1, get_cwd. unfold bind at 1, get_install.
  intros H. apply bind_some in H as ([] & w0 & E0 & H).
  destruct (open_w_effect (outdir ++ [txt ".svunit.f"]) w)
    as (w0' & E0' & G0 & _ & _ & C0 & I0 & _).
  rewrite E0' in E0. injection E0 as <-.
  pose proof (writes_of_get _ _ _ G0) as W0.
  enough (A : added (outdir ++ [txt ".svunit.f"])
                ([txt "+incdir+" ++ str (w_cwd w) ++ nl]
                 ++ [txt "+incdir+" ++ w_install w ++ txt "/svunit_base/junit-xml" ++ nl]
                 ++ [w_install w ++ txt "/svunit_base/junit-xml/junit_xml.sv" ++ nl]
                 ++ [txt "+incdir+" ++ w_install w ++ txt "/svunit_base" ++ nl]
                 ++ [w_install w ++ txt "/svunit_base/svunit_pkg.sv" ++ nl]
                 ++ (if uvm args
                     then [ txt "+incdir+" ++ w_install w ++ txt "/svunit_base/uvm-mock" ++ nl ]
                          ++ [ w_install w ++ txt "/svunit_base/uvm-mock/svunit_uvm_mock_pkg.sv" ++ nl ]
                     else [])
                 ++ (if enable_experimental args
                     then [ txt "+incdir+" ++ w_install w ++ txt "/src/experimental/sv" ++ nl ]
                          ++ [ w_install w ++ txt "/src/experimental/sv/svunit.sv" ++ nl ]
                     else [])
                 ++ flat_map (fun suite => suite_lines (w_cwd w) outdir suite) suites
                 ++ [] ++ [str (outdir ++ [txt ".testrunner.sv"]) ++ nl])
                w0' w').
  { destruct A as (A & _). rewrite A, W0.
    destruct (uvm args), (enable_experimental args); reflexivity. }
  next H ltac:(apply write_added).
  next H ltac:(apply write_added).
  next H ltac:(apply write_added).
  next H ltac:(apply write_added).
  next H ltac:(apply write_added).
  eapply bind_added; [exact H | |].
  { intros ? ? K. destruct (uvm args).
    - next K ltac:(apply write_added).
      eapply write_added, K.
    - eapply ret_added, K. }
  intros ? ? (_ & ? & ?); clear H; intros H; cbv beta in H.
  eapply bind_added; [exact H | |].
  { intros ? ? K. destruct (enable_experimental args).
    - next K ltac:(apply write_added).
      eapply write_added, K.
    - eapply ret_added, K. }
  intros ? ? (_ & ? & ?); clear H; intros H; cbv beta in H.
  eapply bind_added; [exact H | |].
  { intros ? ? K. apply generate_suites_added in K.
    match goal with
    | K : context [w_cwd ?x] |- _ =>
        replace (w_cwd w) with (w_cwd x) by congruence
    end.
    exact K. }
  intros ? ? (_ & ? & ?); clear H; intros H; cbv beta in H.
  next H ltac:(apply create_testrunner_added, testrunner_file_is_not_manifest).
  eapply write_added, H.
Qed.

Lemma last_of_five {A : Type} (a b c d : list A) (x d0 : A) :
  last (a ++ b ++ c ++ d ++ [x]) d0 = x.
Proof. rewrite !app_assoc. apply last_last. Qed.

Lemma split_at_test {A : Type} (h u e s1 t1 t2 s2 r : list A) (x i p : A) :
  h ++ u ++ e ++ (s1 ++ ((t1 ++ x :: t2) ++ [i; p]) ++ s2) ++ r
  = (h ++ u ++ e ++ s1 ++ t1) ++ [x] ++ t2 ++ [i; p] ++ (s2 ++ r).
Proof. rewrite <- !app_assoc. reflexivity. Qed.

End ManifestFacts.

(** C8.  When the generation phase returns, the manifest [.svunit.f] holds,
    in this order: the working directory as include directive; the include
    directive of the JUnit support and its source file, the include
    directive of the framework and its package; when the methodology toggle
    is set, the include directive of its shim and the shim; when the
    experimental toggle is set, the include directive of the experimental
    module and the module; then for each suite, in the order of the suites,
    its test files, its include directive and the path of its generated
    file; and last the path of the generated runner.  So the runner is the
    last line, and for each suite every test file comes before the suite's
    include directive, which comes right before the generated suite file. *)
Theorem C8_manifest_order :
  forall (args : Main.Args) (outdir : FS.path) (suites : Discovery.suites_dict)
         (w w' : Run.world),
    Main.generate args outdir suites w = (Some tt, w') ->
    let manifest := Run.writes_of w' (outdir ++ [txt ".svunit.f"]) in
    let install := Run.w_install w in
    let ts_path := fun suite_dir : FS.path =>
      outdir ++ [txt "." ++ Main.dir_id_of (Run.w_cwd w) suite_dir
                     ++ txt "_testsuite.sv"] in
    let incdir := fun suite_dir : FS.path =>
      txt "+incdir+" ++ FS.str suite_dir ++ Main.nl in
    manifest
    = [ txt "+incdir+" ++ FS.str (Run.w_cwd w) ++ Main.nl;
        txt "+incdir+" ++ install ++ txt "/svunit_base/junit-xml" ++ Main.nl;
        install ++ txt "/svunit_base/junit-xml/junit_xml.sv" ++ Main.nl;
        txt "+incdir+" ++ install ++ txt "/svunit_base" ++ Main.nl;
        install ++ txt "/svunit_base/svunit_pkg.sv" ++ Main.nl ]
      ++ (if Main.uvm args
          then [ txt "+incdir+" ++ install ++ txt "/svunit_base/uvm-mock" ++ Main.nl;
                 install ++ txt "/svunit_base/uvm-mock/svunit_uvm_mock_pkg.sv"
                         ++ Main.nl ]
          else [])
      ++ (if Main.enable_experimental args
          then [ txt "+incdir+" ++ install ++ txt "/src/experimental/sv" ++ Main.nl;
                 install ++ txt "/src/experimental/sv/svunit.sv" ++ Main.nl ]
          else [])
      ++ flat_map
           (fun suite =>
              map (fun test => FS.str test ++ Main.nl) (snd suite)
              ++ [ incdir (fst suite); FS.str (ts_path (fst suite)) ++ Main.nl ])
           suites
      ++ [ FS.str (outdir ++ [txt ".testrunner.sv"]) ++ Main.nl ]
    /\ last manifest [] = FS.str (outdir ++ [txt ".testrunner.sv"]) ++ Main.nl
    /\ (forall suite_dir tests test,
          In (suite_dir, tests) suites -> In test tests ->
          exists before between after,
            manifest
            = before ++ [FS.str test ++ Main.nl] ++ between
                     ++ [ incdir suite_dir; FS.str (ts_path suite_dir) ++ Main.nl ]
                     ++ after).
Proof.
  intros args outdir suites w w' H manifest install ts_path incdir.
  pose proof (ManifestFacts.generate_added args outdir suites w w' H) as E.
  split; [exact E|]. split.
  - unfold manifest. rewrite E. apply ManifestFacts.last_of_five.
  - intros suite_dir tests test Is It.
    apply in_split in Is as (s1 & s2 & ->).
    apply in_split in It as (t1 & t2 & ->).
    unfold manifest. rewrite E, flat_map_app.
    change (flat_map ?f ((suite_dir, t1 ++ test :: t2) :: s2))
      with (f (suite_dir, t1 ++ test :: t2) ++ flat_map f s2).
    cbv beta. change (snd (suite_dir, t1 ++ test :: t2)) with (t1 ++ test :: t2).
    change (fst (suite_dir, t1 ++ test :: t2)) with suite_dir.
    rewrite map_app.
    change (map ?f (test :: t2)) with (f test :: map f t2).
    cbv beta. do 3 eexists. apply ManifestFacts.split_at_test.
Qed.

Lemma C8_witness :
  let root :=
    FS.Dir []
      [FS.Dir (txt "w")
         [FS.Dir (txt "a")
            [FS.File (txt "foo_unit_test.sv") (txt "module foo_unit_test;");
             FS.File (txt "bar_unit_test.sv") (txt "module bar_unit_test;")];
          FS.Dir (txt "b")
            [FS.File (txt "baz_unit_test.sv") (txt "module baz_unit_test;")]]] in
  let w := Run.mkWorld root [txt "w"] (txt "/opt/svunit") [] [] [] (fun _ => 0) in
  let args := Main.mkArgs None (txt "run.log") None None true None None None
                          (txt ".") None None None None false false in
  let suites :=
    [([txt "w"; txt "a"], [[txt "w"; txt "a"; txt "foo_unit_test.sv"];
                           [txt "w"; txt "a"; txt "bar_unit_test.sv"]]);
     ([txt "w"; txt "b"], [[txt "w"; txt "b"; txt "baz_unit_test.sv"]])] in
  let w' := snd (Main.generate args [txt "w"] suites w) in
  Main.generate args [txt "w"] suites w = (Some tt, w')
  /\ last (Run.writes_of w' [txt "w"; txt ".svunit.f"]) []
     = txt "/w/.testrunner.sv" ++ Main.nl.
Proof.
  cbv zeta.
  match goal with
  | |- ?g = (Some tt, snd ?g) /\ _ =>
      assert (H : g = (Some tt, snd g)) by (vm_compute; reflexivity)
  end.
  split; [exact H|].
  exact (proj1 (proj2 (C8_manifest_order _ _ _ _ _ H))).
Defined.

(** ** More on discovery *)

Module DiscoverFacts.

Import FS Discovery TreeFacts GroupFacts.

Lemma lookup_app (dir rel : path) (root : node) :
  lookup (dir ++ rel) root
  = match lookup dir root with
    | Some t => lookup rel t
    | None => None
    end.
Proof.
  revert root. induction dir as [|c dir IH]; intros root; [reflexivity|].
  cbn [app lookup]. destruct root as [n x|n es]; [reflexivity|].
  destruct (find_entry c es); [apply IH | reflexivity].
Qed.

Lemma find_entry_first (e : node) (es : list node) :
  NoDup (map node_name es) -> In e es -> find_entry (node_name e) es = Some e.
Proof.
  induction es as [|x es IH]; intros ND I; [destruct I|].
  inversion ND as [|? ? N ND']; subst. cbn [find_entry].
  destruct (text_eq_dec (node_name x) (node_name e)) as [E|D].
  - destruct I as [->|I]; [reflexivity|].
    exfalso. apply N. rewrite E. now apply in_map.
  - destruct I as [->|I]; [congruence | now apply IH].
Qed.

Lemma find_entry_some (e : node) (es : list node) :
  In e es -> find_entry (node_name e) es <> None.
Proof.
  induction es as [|x es IH]; intros I; [destruct I|].
  cbn [find_entry].
  destruct (text_eq_dec (node_name x) (node_name e)) as [E|D]; [discriminate|].
  destruct I as [->|I]; [congruence | now apply IH].
Qed.

Lemma name_child (dir : path) (n : text) : name (dir ++ [n]) = n.
Proof. unfold name. apply last_last. Qed.

(** What [rglob] yields lies below the directory, exists, and has the
    suffix in its name. *)
Lemma rglob_sound (t : node) :
  forall dir p,
    well_formed t = true ->
    In p (rglob dir t) ->
    exists rel,
      rel <> [] /\ p = dir ++ rel /\ lookup rel t <> None
      /\ is_unit_test_name (name p) = true.
Proof.
  induction t as [n c|n es IH] using TreeFacts.node_ind; intros dir p W I;
    [destruct I|].
  cbn [well_formed] in W. apply andb_true_iff in W as [W1 W2].
  apply distinct_NoDup in W1.
  cbn [rglob] in I. apply in_app_or in I as [I|I].
  - apply in_map_iff in I as (e & <- & I). apply filter_In in I as [Ie Hm].
    exists [node_name e]. split; [discriminate|]. split; [reflexivity|]. split.
    + cbn [lookup]. rewrite (find_entry_first e es W1 Ie). discriminate.
    + now rewrite name_child.
  - apply in_flat_map in I as (e & Ie & I).
    rewrite Forall_forall in IH.
    destruct (IH e Ie _ _ (forallb_well_formed es W2 e Ie) I)
      as (rel & Hne & -> & L & S).
    exists (node_name e :: rel). split; [discriminate|]. split.
    + now rewrite <- app_assoc.
    + split; [|exact S]. cbn [lookup].
      now rewrite (find_entry_first e es W1 Ie).
Qed.

Lemma scan_directories root tests (H : has_tests tests = false) dirs :
  forall found,
    fold_left (_find_tests_in_directory root tests) dirs found
    = found ++ flat_map (fun d => match lookup d root with
                                  | Some t => rglob d t
                                  | None => []
                                  end) dirs.
Proof.
  induction dirs as [|d dirs IH]; intros found; cbn [fold_left flat_map].
  - now rewrite app_nil_r.
  - rewrite IH. unfold _find_tests_in_directory at 1.
    destruct (lookup d root) as [t|].
    + rewrite H, collect_found, <- app_assoc. reflexivity.
    + reflexivity.
Qed.

Lemma find_named_test_from root d found t :
  find_named_test root d found t = found ++ find_named_test root d [] t.
Proof.
  unfold find_named_test.
  destruct (exists_ root (div d t)); [reflexivity|].
  destruct (negb _); [|now rewrite app_nil_r].
  destruct (exists_ root _); [reflexivity | now rewrite app_nil_r].
Qed.

Lemma named_in_directory root d names :
  forall found,
    fold_left (find_named_test root d) names found
    = found ++ flat_map (find_named_test root d []) names.
Proof.
  induction names as [|t names IH]; intros found; cbn [fold_left flat_map].
  - now rewrite app_nil_r.
  - rewrite IH, (find_named_test_from root d found t), <- app_assoc.
    reflexivity.
Qed.

Lemma scan_named root names (H : has_tests (Some names) = true) dirs :
  forall found,
    fold_left (_find_tests_in_directory root (Some names)) dirs found
    = found ++ flat_map (fun d => if exists_ root d
                                  then flat_map (find_named_test root d []) names
                                  else []) dirs.
Proof.
  induction dirs as [|d dirs IH]; intros found; cbn [fold_left flat_map].
  - now rewrite app_nil_r.
  - rewrite IH. unfold _find_tests_in_directory at 1, exists_ at 2.
    destruct (lookup d root) as [t|].
    + rewrite H, named_in_directory, <- app_assoc. reflexivity.
    + reflexivity.
Qed.

Lemma find_named_test_hit root d t p :
  In p (find_named_test root d [] t) ->
  exists_ root p = true
  /\ (p = div d t
      \/ (Text.ends_with (txt "_unit_test.sv") t = false
          /\ p = div d (t ++ txt "_unit_test.sv"))).
Proof.
  unfold find_named_test.
  destruct (exists_ root (div d t)) eqn:E.
  - intros [<-|[]]. split; [exact E | now left].
  - destruct (Text.ends_with (txt "_unit_test.sv") t) eqn:S; cbn [negb];
      [intros []|].
    destruct (exists_ root (div d (t ++ txt "_unit_test.sv"))) eqn:E';
      [|intros []].
    intros [<-|[]]. split; [exact E' | right; now split].
Qed.

Lemma find_named_test_length root d t :
  length (find_named_test root d [] t) <= 1.
Proof.
  unfold find_named_test.
  destruct (exists_ root (div d t)); [cbn; lia|].
  destruct (negb _); [|cbn; lia].
  destruct (exists_ root _); cbn; lia.
Qed.

End DiscoverFacts.

(** X1.  Without test names, discovery returns, for each search directory
    in the order given, what the recursive scan of that directory yields:
    a directory that does not exist adds nothing and does not stop the
    scan, and a file below two of the directories is returned twice. *)
Theorem X1_discover_scans_each_directory_in_order :
  forall (root : FS.node) (dirs : list FS.path) (tests : option (list text)),
    Discovery.has_tests tests = false ->
    Discovery.found_tests
      (Discovery.discover root (Discovery.mkTestDiscovery dirs tests []))
    = flat_map (fun d => match FS.lookup d root with
                         | Some t => FS.rglob d t
                         | None => []
                         end) dirs.
Proof.
  intros root dirs tests H. unfold Discovery.discover.
  cbn [Discovery.found_tests Discovery.directories Discovery.tests].
  now rewrite DiscoverFacts.scan_directories.
Qed.

Lemma X1_witness :
  let root :=
    FS.Dir [] [FS.Dir (txt "a") [FS.File (txt "foo_unit_test.sv") [];
                                 FS.Dir (txt "s") [FS.File (txt "x_unit_test.sv") []]]] in
  Discovery.found_tests
    (Discovery.discover root
       (Discovery.mkTestDiscovery [[txt "a"]; [txt "nowhere"]; [txt "a"; txt "s"]]
                                  (Some []) []))
  = [[txt "a"; txt "foo_unit_test.sv"]; [txt "a"; txt "s"; txt "x_unit_test.sv"];
     [txt "a"; txt "s"; txt "x_unit_test.sv"]].
Proof.
  cbv zeta.
  rewrite (X1_discover_scans_each_directory_in_order _ _ (Some []) eq_refl).
  reflexivity.
Defined.

(** X2.  Without test names, every path that discovery returns from a
    search directory lies strictly below that directory, exists in the
    file system, and has a name ending in [_unit_test.sv]. *)
Theorem X2_discovered_paths_exist_and_match :
  forall (root : FS.node) (dir : FS.path) (t : FS.node)
         (tests : option (list text)) (p : FS.path),
    FS.lookup dir root = Some t ->
    FS.well_formed t = true ->
    Discovery.has_tests tests = false ->
    In p (Discovery.found_tests
            (Discovery.discover root (Discovery.mkTestDiscovery [dir] tests []))) ->
    Discovery.exists_ root p = true
    /\ FS.is_unit_test_name (FS.name p) = true
    /\ exists rel, rel <> [] /\ p = dir ++ rel.
Proof.
  intros root dir t tests p L W H I.
  rewrite (TreeFacts.discover_one_tree root dir t tests L H) in I.
  destruct (DiscoverFacts.rglob_sound t dir p W I) as (rel & N & -> & E & S).
  split; [|split; [exact S | now exists rel]].
  unfold Discovery.exists_. rewrite DiscoverFacts.lookup_app, L.
  destruct (FS.lookup rel t); [reflexivity | contradiction].
Qed.

Lemma X2_witness :
  let root :=
    FS.Dir [] [FS.Dir (txt "a") [FS.File (txt "foo_unit_test.sv") []]] in
  Discovery.exists_ root [txt "a"; txt "foo_unit_test.sv"] = true
  /\ FS.is_unit_test_name (FS.name [txt "a"; txt "foo_unit_test.sv"]) = true
  /\ exists rel, rel <> [] /\ [txt "a"; txt "foo_unit_test.sv"] = [] ++ rel.
Proof.
  cbv zeta.
  refine (X2_discovered_paths_exist_and_match
            (FS.Dir [] [FS.Dir (txt "a") [FS.File (txt "foo_unit_test.sv") []]])
            [] _ None [txt "a"; txt "foo_unit_test.sv"] eq_refl eq_refl eq_refl _).
  left. reflexivity.
Defined.

(** X3.  With test names, discovery returns, for each search directory
    that exists and in the order given, at most one path for each name:
    the name itself under the directory if that exists, else the name with
    [_unit_test.sv] appended if the name lacks the suffix and that exists.
    Every path returned exists; a name that matches in no directory adds
    nothing and raises no error. *)
Theorem X3_discover_named_tests :
  forall (root : FS.node) (dirs : list FS.path) (names : list text),
    names <> [] ->
    let found :=
      Discovery.found_tests
        (Discovery.discover root
           (Discovery.mkTestDiscovery dirs (Some names) [])) in
    found
    = flat_map (fun d => if Discovery.exists_ root d
                         then flat_map (Discovery.find_named_test root d []) names
                         else []) dirs
    /\ (forall p, In p found ->
          Discovery.exists_ root p = true
          /\ exists d t,
               In d dirs /\ In t names
               /\ (p = FS.div d t
                   \/ (Text.ends_with (txt "_unit_test.sv") t = false
                       /\ p = FS.div d (t ++ txt "_unit_test.sv"))))
    /\ length found <= length dirs * length names
    /\ ((forall d t, In d dirs -> In t names ->
           Discovery.find_named_test root d [] t = []) ->
        found = []).
Proof.
  intros root dirs names N found.
  assert (H : Discovery.has_tests (Some names) = true)
    by (destruct names; [congruence | reflexivity]).
  assert (E : found
              = flat_map (fun d => if Discovery.exists_ root d
                                   then flat_map (Discovery.find_named_test root d []) names
                                   else []) dirs).
  { unfold found, Discovery.discover.
    cbn [Discovery.found_tests Discovery.directories Discovery.tests].
    now rewrite DiscoverFacts.scan_named. }
  split; [exact E|]. split; [|split].
  - intros p I. rewrite E in I. apply in_flat_map in I as (d & Id & I).
    destruct (Discovery.exists_ root d); [|destruct I].
    apply in_flat_map in I as (t & It & I).
    apply DiscoverFacts.find_named_test_hit in I as [X Y].
    split; [exact X|]. now exists d, t.
  - rewrite E. clear. induction dirs as [|d dirs IH]; [cbn; lia|].
    cbn [flat_map length]. rewrite length_app.
    assert (B : length (if Discovery.exists_ root d
                        then flat_map (Discovery.find_named_test root d []) names
                        else []) <= length names).
    { clear IH. destruct (Discovery.exists_ root d); [|cbn; lia].
      induction names as [|t names IHn]; [cbn; lia|].
      cbn [flat_map length]. rewrite length_app.
      pose proof (DiscoverFacts.find_named_test_length root d t). lia. }
    lia.
  - intros Z. rewrite E. clear E found H N.
    induction dirs as [|d dirs IH]; [reflexivity|].
    cbn [flat_map]. rewrite IH by (intros; apply Z; [now right | assumption]).
    rewrite app_nil_r. destruct (Discovery.exists_ root d); [|reflexivity].
    assert (Zd : forall t, In t names -> Discovery.find_named_test root d [] t = [])
      by (intros; apply Z; [now left | assumption]).
    clear Z IH. induction names as [|t names IHn]; [reflexivity|].
    cbn [flat_map]. rewrite Zd by now left.
    apply IHn. intros. apply Zd. now right.
Qed.

Lemma X3_witness :
  let root :=
    FS.Dir [] [FS.Dir (txt "a") [FS.File (txt "foo_unit_test.sv") [];
                                 FS.File (txt "x.sv") []]] in
  Discovery.found_tests
    (Discovery.discover root
       (Discovery.mkTestDiscovery [[txt "a"]; [txt "b"]]
          (Some [txt "foo"; txt "missing"; txt "x.sv"]) []))
  = [[txt "a"; txt "foo_unit_test.sv"]; [txt "a"; txt "x.sv"]].
Proof.
  cbv zeta.
  assert (N : [txt "foo"; txt "missing"; txt "x.sv"] <> []) by discriminate.
  rewrite (proj1 (X3_discover_named_tests
                    (FS.Dir [] [FS.Dir (txt "a") [FS.File (txt "foo_unit_test.sv") [];
                                                  FS.File (txt "x.sv") []]])
                    [[txt "a"]; [txt "b"]] _ N)).
  reflexivity.
Defined.

(** X4.  [get_test_suites] groups any list of found tests, whatever way it
    was found: the keys are the parents in the order first met, without
    repetition; the suite of a key holds the tests with that parent in the
    order found, so no suite is empty; the suites together hold the tests
    found, each as often as it was found; and there is no suite exactly
    when nothing was found. *)
Theorem X4_suites_of_any_found_list :
  forall d : Discovery.TestDiscovery,
    let found := Discovery.found_tests d in
    let suites := Discovery.get_test_suites d in
    map fst suites = Discovery.first_seen (map FS.parent found)
    /\ NoDup (map fst suites)
    /\ (forall k files,
          In (k, files) suites ->
          files = Discovery.with_parent k found /\ files <> [])
    /\ Permutation (concat (map snd suites)) found
    /\ (suites = [] <-> found = []).
Proof.
  intros d found suites.
  assert (S : suites
              = map (fun k => (k, Discovery.with_parent k found))
                    (Discovery.first_seen (map FS.parent found)))
    by apply GroupFacts.suites_closed_form.
  assert (K : map fst suites = Discovery.first_seen (map FS.parent found)).
  { rewrite S, map_map. cbn [fst]. apply map_id. }
  split; [exact K|]. split; [rewrite K; apply GroupFacts.NoDup_first_seen|].
  split; [|split].
  - intros k files I. rewrite S in I. apply in_map_iff in I as (k' & E & I).
    injection E as -> <-. split; [reflexivity|].
    apply GroupFacts.in_first_seen, in_map_iff in I as (f & E & I).
    intros N.
    assert (J : In f (Discovery.with_parent k found)).
    { apply filter_In. split; [exact I|].
      destruct (FS.path_eq_dec (FS.parent f) k); [reflexivity | contradiction]. }
    rewrite N in J. destruct J.
  - rewrite S. apply GroupFacts.groups_partition.
  - rewrite S. split.
    + intros E. destruct found as [|f found']; [reflexivity|]. discriminate E.
    + intros ->. reflexivity.
Qed.

(** ** More on the extraction of module names *)

Module MatchFacts.

Import Text TextFacts Re ReFacts.

Lemma inv_lit c r prev s m :
  match_here (Lit c :: r) prev s = Some m ->
  exists s', s = c :: s' /\ match_here r (Some c) s' = Some m.
Proof.
  destruct s as [|x s]; [discriminate|]. cbn [match_here].
  destruct (Ascii.eqb_spec c x) as [<-|]; [|discriminate].
  intros H. now exists s.
Qed.

Lemma inv_cls p r prev s m :
  match_here (Cls p :: r) prev s = Some m ->
  exists x s', s = x :: s' /\ p x = true /\ match_here r (Some x) s' = Some m.
Proof.
  destruct s as [|x s]; [discriminate|]. cbn [match_here].
  destruct (p x) eqn:E; [|discriminate].
  intros H. now exists x, s.
Qed.

Lemma inv_star p r s :
  forall prev m,
    match_here (StarG p :: r) prev s = Some m ->
    exists a b prev',
      s = a ++ b /\ forallb p a = true /\ match_here r prev' b = Some m.
Proof.
  induction s as [|x s IH]; intros prev m H; rewrite match_here_greedy in H.
  - now exists [], [], prev.
  - destruct (p x) eqn:E.
    + destruct (match_here (StarG p :: r) (Some x) s) as [m'|] eqn:F.
      * injection H as ->. destruct (IH _ _ F) as (a & b & prev' & -> & A & M).
        exists (x :: a), b, prev'. cbn [forallb app]. now rewrite E, A.
      * now exists [], (x :: s), prev.
    + now exists [], (x :: s), prev.
Qed.

Lemma inv_open r prev s m :
  match_here (GOpen :: r) prev s = Some m ->
  exists m', match_here r prev s = Some m'
             /\ m = MRes (m_rest m') (Some s) (m_close m').
Proof.
  cbn [match_here]. destruct (match_here r prev s) as [m'|]; [|discriminate].
  intros [= <-]. now exists m'.
Qed.

Lemma inv_close r prev s m :
  match_here (GClose :: r) prev s = Some m ->
  exists m', match_here r prev s = Some m'
             /\ m = MRes (m_rest m') (m_open m') (Some s).
Proof.
  cbn [match_here]. destruct (match_here r prev s) as [m'|]; [|discriminate].
  intros [= <-]. now exists m'.
Qed.

Lemma inv_bol r prev s m :
  match_here (Bol :: r) prev s = Some m -> match_here r prev s = Some m.
Proof. cbn [match_here]. destruct (at_bol prev); [tauto | discriminate]. Qed.

Lemma search_from_some r s :
  forall prev m,
    search_from r prev s = Some m ->
    exists prev' s', match_here r prev' s' = Some m.
Proof.
  induction s as [|x s IH]; intros prev m H; cbn [search_from] in H.
  - destruct (match_here r prev []) eqn:E; [|discriminate].
    injection H as ->. eauto.
  - destruct (match_here r prev (x :: s)) eqn:E.
    + injection H as ->. eauto.
    + eauto.
Qed.

End MatchFacts.

Module NameFacts.

Import Text TextFacts Re ReFacts MatchFacts CodeGen.

Ltac peel_lit H :=
  let s := fresh "s" in
  let E := fresh "E" in
  apply inv_lit in H as (s & E & H).

(** The group of a match of the module pattern. *)
Lemma module_match_group prev s m :
  match_here re_module prev s = Some m ->
  exists x w,
    is_word x = true /\ forallb is_word w = true
    /\ group1 m = Some (x :: w ++ txt "_unit_test").
Proof.
  intros H. unfold re_module in H. cbn [app lit map txt list_ascii_of_string plusG] in H.
  apply inv_bol in H.
  apply inv_star in H as (a0 & t0 & p0 & _ & _ & H).
  do 6 peel_lit H.
  apply inv_cls in H as (y & ty & _ & _ & H).
  apply inv_star in H as (a1 & t1 & p1 & _ & _ & H).
  apply inv_open in H as (m1 & H & ->).
  apply inv_cls in H as (x & t2 & Ex & Wx & H).
  apply inv_star in H as (w & t3 & p3 & Ew & Ww & H).
  do 10 peel_lit H.
  apply inv_close in H as (m2 & H & ->).
  exists x, w. split; [exact Wx|]. split; [exact Ww|].
  unfold group1. cbn [m_open m_close]. subst.
  f_equal.
  match goal with
  | |- firstn (length ?o - length ?c) ?o = ?g =>
      replace o with (g ++ c) by (cbn [app]; now rewrite <- app_assoc);
      replace (length (g ++ c) - length c) with (length g + 0)
        by (rewrite length_app; lia)
  end.
  rewrite firstn_app_2. cbn [firstn]. now rewrite app_nil_r.
Qed.

Lemma forallb_app_true {A : Type} (p : A -> bool) (a b : list A) :
  forallb p a = true -> forallb p b = true -> forallb p (a ++ b) = true.
Proof. intros Ha Hb. rewrite forallb_app, Ha, Hb. reflexivity. Qed.

End NameFacts.

(** X5.  A module name that [_parse_unit_test_name] extracts is made of
    word characters only, ends in [_unit_test] and has at least one
    character before that; so it is never the empty string, which the
    code generator would take for a failure. *)
Theorem X5_extracted_name_shape :
  forall content id,
    CodeGen.parse_content content = Some id ->
    (exists w, w <> [] /\ id = w ++ txt "_unit_test")
    /\ forallb Re.is_word id = true
    /\ CodeGen.truthy (Some id) = true.
Proof.
  intros content id H. unfold CodeGen.parse_content, Re.search in H.
  destruct (Re.search_from _ _ _) as [m|] eqn:S; [|discriminate].
  apply MatchFacts.search_from_some in S as (prev & s & M).
  apply NameFacts.module_match_group in M as (x & w & Wx & Ww & G).
  rewrite G in H. injection H as <-.
  split; [|split].
  - exists (x :: w). split; [discriminate | reflexivity].
  - cbn [forallb]. rewrite Wx. cbn [andb].
    apply NameFacts.forallb_app_true; [exact Ww | reflexivity].
  - reflexivity.
Qed.

Lemma X5_witness :
  (exists w, w <> [] /\ txt "foo_unit_test" = w ++ txt "_unit_test")
  /\ forallb Re.is_word (txt "foo_unit_test") = true
  /\ CodeGen.truthy (Some (txt "foo_unit_test")) = true.
Proof.
  apply (X5_extracted_name_shape (txt "  module foo_unit_test ;")).
  reflexivity.
Defined.

Module CollectFacts.

Import FS Run StoreFacts RunFacts CodeGen GenFacts.

Lemma read_file_pure p w : snd (read_file p w) = w.
Proof.
  unfold read_file. destruct (store_get p (w_files w)); [reflexivity|].
  destruct (lookup p (w_root w)) as [[n c|n es]|]; reflexivity.
Qed.

Lemma parsed_is_truthy content : 
  truthy (parse_content content)
  = match parse_content content with Some _ => true | None => false end.
Proof.
  destruct (parse_content content) as [id|] eqn:E; [|reflexivity].
  unfold parse_content, Re.search in E.
  destruct (Re.search_from _ _ _) as [m|] eqn:S; [|discriminate].
  apply MatchFacts.search_from_some in S as (prev & s & M).
  apply NameFacts.module_match_group in M as (x & w & _ & _ & G).
  rewrite G in E. injection E as <-. reflexivity.
Qed.

(** The names collected: those of the files that declare one, in order;
    a file that cannot be read stops the collection. *)
Lemma collect_unit_tests_result uts w :
  forall cls insts,
    fst (collect_unit_tests uts cls insts w)
    = if forallb (fun ut => match fst (read_file ut w) with
                            | Some _ => true
                            | None => false
                            end) uts
      then
        let names :=
          flat_map (fun ut => match fst (read_file ut w) with
                              | Some c => match parse_content c with
                                          | Some m => [m]
                                          | None => []
                                          end
                              | None => []
                              end) uts in
        Some (cls ++ names, insts ++ map unit_test_instance names)
      else None.
Proof.
  induction uts as [|ut uts IH]; intros cls insts.
  - cbn. now rewrite !app_nil_r.
  - cbn [collect_unit_tests forallb flat_map].
    unfold bind at 1, _parse_unit_test_name at 1, bind at 1, ret.
    pose proof (read_file_pure ut w) as P.
    destruct (read_file ut w) as [[c|] w0]; cbn [fst snd] in P |- *; subst w0;
      [|reflexivity].
    rewrite parsed_is_truthy.
    destruct (parse_content c) as [m|]; rewrite IH;
      destruct (forallb _ uts); cbn [andb]; try reflexivity.
    cbv zeta. rewrite map_app, <- !app_assoc. reflexivity.
Qed.

End CollectFacts.



(** ** Names of the generated suites *)

Module SuiteNameFacts.

Import Text TextFacts FS CodeGen Main.

#[local] Abbreviation without c s := (forallb (fun x => negb (Ascii.eqb c x)) s).

Lemma replace_char (c : ascii) (new s : text) :
  replace [c] new s = flat_map (fun x => if Ascii.eqb c x then new else [x]) s.
Proof.
  unfold replace. induction s as [|x s IH]; [reflexivity|].
  cbn [replace_from starts_with flat_map length Nat.sub].
  rewrite andb_true_r. destruct (Ascii.eqb c x); rewrite IH; reflexivity.
Qed.

Lemma replace_char_absent (c : ascii) (new s : text) :
  without c s = true -> replace [c] new s = s.
Proof.
  rewrite replace_char. induction s as [|x s IH]; intros H; [reflexivity|].
  cbn [forallb] in H. apply andb_true_iff in H as [H1 H2].
  cbn [flat_map]. apply negb_true_iff in H1. rewrite H1, IH by assumption.
  reflexivity.
Qed.

Lemma replace_char_removes (c d : ascii) (s : text) :
  Ascii.eqb c d = false -> without c (replace [c] [d] s) = true.
Proof.
  intros N. rewrite replace_char. induction s as [|x s IH]; [reflexivity|].
  cbn [flat_map]. destruct (Ascii.eqb c x) eqn:E; cbn [app forallb].
  - now rewrite N, IH.
  - now rewrite E, IH.
Qed.

Lemma replace_char_keeps (c e d : ascii) (s : text) :
  Ascii.eqb c d = false -> without c s = true ->
  without c (replace [e] [d] s) = true.
Proof.
  intros N. rewrite replace_char. induction s as [|x s IH]; intros H; [reflexivity|].
  cbn [forallb] in H. apply andb_true_iff in H as [H1 H2].
  cbn [flat_map]. destruct (Ascii.eqb e x); cbn [app forallb].
  - now rewrite N, IH.
  - now rewrite H1, IH.
Qed.

Lemma sanitize_without_dot (s : text) : without "."%char (sanitize s) = true.
Proof.
  unfold sanitize. apply replace_char_keeps; [reflexivity|].
  apply (replace_char_removes "."%char "_"%char). reflexivity.
Qed.

Lemma without_skipn c n s : without c s = true -> without c (skipn n s) = true.
Proof.
  revert s. induction n as [|n IH]; intros [|x s] H; try assumption.
  cbn [skipn]. cbn [forallb] in H. apply andb_true_iff in H as [_ H].
  now apply IH.
Qed.

(** The identifier of a suite directory holds no dot. *)
Lemma dir_id_without_dot (cwd suite_dir : path) :
  without "."%char (dir_id_of cwd suite_dir) = true.
Proof.
  unfold dir_id_of. destruct (relative_to suite_dir cwd).
  - apply sanitize_without_dot.
  - destruct (starts_with _ _); [apply without_skipn|]; apply sanitize_without_dot.
Qed.

Lemma without_app c a b :
  without c a = true -> without c b = true -> without c (a ++ b) = true.
Proof. intros Ha Hb. now rewrite forallb_app, Ha, Hb. Qed.

Lemma rfind_absent c s :
  forall i found, without c s = true -> rfind c s i found = found.
Proof.
  induction s as [|x s IH]; intros i found H; [reflexivity|].
  cbn [forallb] in H. apply andb_true_iff in H as [H1 H2].
  cbn [rfind]. rewrite Ascii.eqb_sym. apply negb_true_iff in H1.
  rewrite H1. now apply IH.
Qed.

Lemma rfind_last c a b :
  forall i found,
    without c b = true ->
    rfind c (a ++ c :: b) i found = Some (i + length a).
Proof.
  induction a as [|x a IH]; intros i found H.
  - cbn [app rfind length]. rewrite Ascii.eqb_refl, rfind_absent by assumption.
    f_equal. lia.
  - cbn [app rfind length]. rewrite IH by assumption. f_equal. lia.
Qed.

Lemma stem_of_suite_file (outdir : path) (d : text) :
  without "."%char d = true ->
  stem (outdir ++ [txt "." ++ d ++ txt "_testsuite.sv"])
  = txt "." ++ d ++ txt "_testsuite".
Proof.
  intros H. unfold stem, name. rewrite last_last.
  assert (E : txt "." ++ d ++ txt "_testsuite.sv"
              = (txt "." ++ d ++ txt "_testsuite") ++ "."%char :: txt "sv").
  { cbn [app txt list_ascii_of_string]. rewrite <- !app_assoc. reflexivity. }
  rewrite E, rfind_last by reflexivity.
  remember (txt "." ++ d ++ txt "_testsuite") as a eqn:Ea.
  assert (L : 0 < length a) by (subst a; cbn; lia).
  cbn [Nat.add]. rewrite length_app. cbn [length txt list_ascii_of_string].
  destruct (Nat.ltb_spec 0 (length a)) as [_|]; [|lia].
  destruct (Nat.ltb_spec (length a) (length a + 3 - 1)) as [_|]; [|lia].
  cbn [andb].
  replace (length a) with (length a + 0) by lia.
  rewrite firstn_app_2. cbn [firstn]. now rewrite app_nil_r.
Qed.

Lemma drop_leading_dot (x : text) :
  without "."%char x = true -> replace (txt ".") [] (txt "." ++ x) = x.
Proof.
  intros H. cbn [txt list_ascii_of_string app].
  rewrite replace_char. cbn [flat_map]. rewrite Ascii.eqb_refl. cbn [app].
  rewrite <- (replace_char "."%char [] x). now apply replace_char_absent.
Qed.

Lemma no_dot_sv_before_end (x : text) :
  without "."%char x = true -> contains (txt ".sv") (x ++ txt ".s") = false.
Proof.
  induction x as [|c x IH]; intros H; [reflexivity|].
  cbn [forallb] in H. apply andb_true_iff in H as [H1 H2].
  cbn [app]. rewrite contains_cons, IH by assumption. rewrite orb_false_r.
  cbn [txt list_ascii_of_string starts_with].
  apply negb_true_iff in H1. now rewrite H1.
Qed.

Lemma sv_prefix_after (d x : text) (c : ascii) :
  Ascii.eqb "s" c = false ->
  Ascii.eqb "v" c = false ->
  starts_with (txt "sv") d = false ->
  starts_with (txt "sv") (d ++ c :: x) = false.
Proof.
  intros M N H. destruct d as [|a [|b d]].
  - cbn -[Ascii.eqb]. now rewrite M.
  - cbn -[Ascii.eqb]. rewrite N. destruct (Ascii.eqb "s" a); reflexivity.
  - exact H.
Qed.

End SuiteNameFacts.

(** X7.  The generated file of a suite is [.<id>_testsuite.sv], where [<id>]
    is the identifier made from the suite directory and holds no dot.  The
    suite file declares the module [<id>_testsuite].  The runner takes the
    name of the module from the file name by removing every [.sv] and then
    every dot: this is the same name when [<id>] does not begin with [sv],
    but when [<id>] is [sv<rest>] the runner instantiates [<rest>_testsuite],
    a module that the suite file does not declare. *)
Theorem X7_runner_and_suite_module_name :
  forall (cwd outdir suite_dir : FS.path),
    let id := Main.dir_id_of cwd suite_dir in
    let ts_path := outdir ++ [txt "." ++ id ++ txt "_testsuite.sv"] in
    CodeGen.testsuite_class ts_path = id ++ txt "_testsuite"
    /\ (Text.starts_with (txt "sv") id = false ->
        CodeGen.suite_class ts_path = CodeGen.testsuite_class ts_path)
    /\ (forall rest,
          id = txt "sv" ++ rest ->
          CodeGen.suite_class ts_path = rest ++ txt "_testsuite"
          /\ CodeGen.suite_class ts_path <> CodeGen.testsuite_class ts_path).
Proof.
  intros cwd outdir suite_dir id ts_path.
  pose proof (SuiteNameFacts.dir_id_without_dot cwd suite_dir) as D. fold id in D.
  assert (W : forallb (fun x => negb (Ascii.eqb "." x)) (id ++ txt "_testsuite") = true)
    by (apply SuiteNameFacts.without_app; [exact D | reflexivity]).
  assert (T : CodeGen.testsuite_class ts_path = id ++ txt "_testsuite").
  { unfold CodeGen.testsuite_class, ts_path.
    rewrite SuiteNameFacts.stem_of_suite_file by exact D.
    now apply SuiteNameFacts.drop_leading_dot. }
  split; [exact T|]. split.
  - intros S. rewrite T. unfold CodeGen.suite_class, ts_path, FS.name.
    rewrite last_last.
    assert (E : txt "." ++ id ++ txt "_testsuite.sv"
                = (txt "." ++ id ++ txt "_testsuite") ++ txt ".sv" ++ []).
    { cbn [app txt list_ascii_of_string]. rewrite <- !app_assoc. reflexivity. }
    rewrite E. unfold Text.replace at 2. cbn [txt list_ascii_of_string].
    rewrite TextFacts.replace_from_first.
    + cbn [Text.replace_from]. rewrite !app_nil_r.
      now apply SuiteNameFacts.drop_leading_dot.
    + discriminate.
    + change (removelast ["."%char; "s"%char; "v"%char]) with (txt ".s").
      change (["."%char] ++ id ++ list_ascii_of_string "_testsuite")
        with ("."%char :: (id ++ txt "_testsuite")).
      cbn [app]. rewrite TextFacts.contains_cons.
      rewrite SuiteNameFacts.no_dot_sv_before_end by exact W.
      rewrite orb_false_r. cbn [Text.starts_with]. rewrite Ascii.eqb_refl.
      cbn [andb]. rewrite <- app_assoc.
      now apply SuiteNameFacts.sv_prefix_after.
  - intros rest E.
    assert (R : forallb (fun x => negb (Ascii.eqb "." x)) (rest ++ txt "_testsuite") = true).
    { rewrite E in W. cbn [app txt list_ascii_of_string forallb] in W.
      now apply andb_true_iff in W as [_ W]. }
    assert (C : CodeGen.suite_class ts_path = rest ++ txt "_testsuite").
    { unfold CodeGen.suite_class, ts_path, FS.name. rewrite last_last, E.
      assert (F : txt "." ++ (txt "sv" ++ rest) ++ txt "_testsuite.sv"
                  = [] ++ txt ".sv" ++ ((rest ++ txt "_testsuite") ++ txt ".sv" ++ [])).
      { cbn [app txt list_ascii_of_string]. rewrite <- !app_assoc. reflexivity. }
      rewrite F. unfold Text.replace at 2. cbn [txt list_ascii_of_string].
      rewrite TextFacts.replace_from_first; [|discriminate|reflexivity].
      rewrite TextFacts.replace_from_first; [|discriminate|].
      - cbn [Text.replace_from app]. rewrite !app_nil_r.
        now apply SuiteNameFacts.replace_char_absent.
      - now apply SuiteNameFacts.no_dot_sv_before_end. }
    split; [exact C|]. rewrite C, T, E. intros X.
    apply (f_equal (@length ascii)) in X. rewrite !length_app in X.
    cbn [length txt list_ascii_of_string] in X. lia.
Qed.

Lemma X7_witness :
  (Text.starts_with (txt "sv") (Main.dir_id_of [txt "w"] [txt "w"; txt "a-b"; txt "c.d"]) = false
   /\ CodeGen.suite_class
        ([txt "w"] ++ [txt "." ++ Main.dir_id_of [txt "w"] [txt "w"; txt "a-b"; txt "c.d"]
                                ++ txt "_testsuite.sv"])
      = CodeGen.testsuite_class
          ([txt "w"] ++ [txt "." ++ Main.dir_id_of [txt "w"] [txt "w"; txt "a-b"; txt "c.d"]
                                  ++ txt "_testsuite.sv"]))
  /\ (Main.dir_id_of [txt "w"] [txt "w"; txt "sv"; txt "tests"] = txt "sv" ++ txt "_tests"
      /\ CodeGen.suite_class
           ([txt "w"] ++ [txt "." ++ Main.dir_id_of [txt "w"] [txt "w"; txt "sv"; txt "tests"]
                                   ++ txt "_testsuite.sv"])
         = txt "_tests" ++ txt "_testsuite").
Proof.
  split.
  - split; [reflexivity|].
    exact (proj1 (proj2 (X7_runner_and_suite_module_name
                           [txt "w"] [txt "w"] [txt "w"; txt "a-b"; txt "c.d"]))
             eq_refl).
  - split; [reflexivity|].
    exact (proj1 (proj2 (proj2 (X7_runner_and_suite_module_name
                                  [txt "w"] [txt "w"] [txt "w"; txt "sv"; txt "tests"]))
                    (txt "_tests") eq_refl)).
Defined.

(** ** More on the backends *)

Module SelectFacts.

Import Text TextFacts FS Run Simulators TreeFacts.

Lemma lower_char_twice (c : ascii) : lower_char (lower_char c) = lower_char c.
Proof.
  destruct c as [[] [] [] [] [] [] [] []]; vm_compute; reflexivity.
Qed.

Lemma lower_twice (s : text) : lower (lower s) = lower s.
Proof.
  unfold lower. rewrite map_map. apply map_ext. exact lower_char_twice.
Qed.

Lemma named_iff (a : text) (b : string) : named a b = true <-> a = txt b.
Proof. apply text_eqb_eq. Qed.

(** The probe of [detect_simulator] for a launcher. *)
#[local] Abbreviation probe sim := (txt "which " ++ sim ++ txt " > /dev/null 2>&1").

Lemma detect_none sims :
  forall w,
    (forall sim, In sim sims -> w_exit w (probe sim) <> 0) ->
    fst (detect_among sims w) = Some None
    /\ w_launched (snd (detect_among sims w)) = w_launched w ++ map (fun sim => probe sim) sims
    /\ w_files (snd (detect_among sims w)) = w_files w.
Proof.
  induction sims as [|sim sims IH]; intros w H.
  - cbn. now rewrite app_nil_r.
  - cbn [detect_among]. unfold bind, call.
    assert (F : w_exit w (probe sim) <> 0) by (apply H; now left).
    apply Nat.eqb_neq in F. rewrite F.
    set (w1 := mkWorld _ _ _ _ _ _ _).
    destruct (IH w1) as (A & B & C).
    { intros s I. apply H. now right. }
    rewrite A, B, C. unfold w1. cbn [w_launched w_files map].
    now rewrite <- app_assoc.
Qed.

Lemma detect_first before sim after s :
  forall w,
    (forall x, In x before -> w_exit w (probe x) <> 0) ->
    w_exit w (probe sim) = 0 ->
    of_launcher sim = Some s ->
    fst (detect_among (before ++ sim :: after) w) = Some (Some s)
    /\ w_launched (snd (detect_among (before ++ sim :: after) w))
       = w_launched w ++ map (fun x => probe x) (before ++ [sim])
    /\ w_files (snd (detect_among (before ++ sim :: after) w)) = w_files w.
Proof.
  induction before as [|b before IH]; intros w H Z L.
  - cbn [app detect_among]. unfold bind, call. rewrite Z, L. cbn. tauto.
  - cbn [app detect_among]. unfold bind, call.
    assert (F : w_exit w (probe b) <> 0) by (apply H; now left).
    apply Nat.eqb_neq in F. rewrite F.
    set (w1 := mkWorld _ _ _ _ _ _ _).
    destruct (IH w1) as (A & B & C); try assumption.
    { intros x I. apply H. now right. }
    rewrite A, B, C. unfold w1. cbn [w_launched w_files map app].
    now rewrite <- app_assoc.
Qed.

Lemma detect_writes_nothing sims :
  forall w, w_files (snd (detect_among sims w)) = w_files w.
Proof.
  induction sims as [|sim sims IH]; intros w; [reflexivity|].
  cbn [detect_among]. unfold bind, call.
  destruct (w_exit w (probe sim) =? 0).
  - destruct (of_launcher sim); [reflexivity|]. now rewrite IH.
  - now rewrite IH.
Qed.

End SelectFacts.

(** X8.  [get_simulator] does not look at the case of the name; it knows
    twelve names and answers [None] for any other; the simulator it
    builds has no option set yet. *)
Theorem X8_get_simulator_names :
  forall name_ : text,
    Simulators.get_simulator (Simulators.lower name_)
    = Simulators.get_simulator name_
    /\ (Simulators.get_simulator name_ <> None
        <-> In (Simulators.lower name_)
               [txt "modelsim"; txt "questa"; txt "irun"; txt "ius"; txt "xrun";
                txt "xcelium"; txt "vcs"; txt "verilator"; txt "xsim"; txt "dsim";
                txt "qrun"; txt "riviera"])
    /\ (forall s, Simulators.get_simulator name_ = Some s ->
          s = Simulators.init (Simulators.kind s) (Simulators.name s)
                              (Simulators.executable s)).
Proof.
  intros n. split; [|split].
  - unfold Simulators.get_simulator. now rewrite SelectFacts.lower_twice.
  - unfold Simulators.get_simulator.
    set (l := Simulators.lower n). cbn [In].
    repeat match goal with
           | |- context [Simulators.named l ?b] =>
               let E := fresh "E" in
               destruct (Simulators.named l b) eqn:E;
               [ apply SelectFacts.named_iff in E
               | assert (l <> txt b)
                   by (intros X; apply SelectFacts.named_iff in X; congruence);
                 clear E ]
           end;
      cbn [orb];
      try (split; [intros _; rewrite E; tauto | discriminate]);
      try (split; [intros _; rewrite E0; tauto | discriminate]).
    all: split; [congruence|].
    all: intros I; repeat (destruct I as [I|I]; [symmetry in I; contradiction|]);
      destruct I.
  - unfold Simulators.get_simulator. intros s.
    repeat match goal with
           | |- context [if ?b then _ else _] => destruct b
           end;
      intros [= <-]; reflexivity.
Qed.

Lemma X8_witness :
  Simulators.get_simulator (txt "Questa") = Some (Simulators.new Simulators.ModelSim)
  /\ Simulators.new Simulators.ModelSim
     = Simulators.init Simulators.ModelSim (txt "modelsim") (txt "vsim").
Proof.
  split; [reflexivity|].
  exact (proj2 (proj2 (X8_get_simulator_names (txt "Questa")))
           (Simulators.new Simulators.ModelSim) eq_refl).
Defined.

(** X9.  [detect_simulator] probes the launchers [xrun], [irun], [qrun],
    [vsim], [vcs], [dsim], [verilator], [xsim] in this order, each with a
    [which] command, and stops at the first probe that exits with status 0:
    it returns the simulator of that launcher and has started the probes up
    to it and no other command.  When every probe fails it returns [None]
    after the eight probes.  It writes no file. *)
Theorem X9_detect_simulator_first_launcher :
  forall (w : Run.world),
    let probe := fun sim => txt "which " ++ sim ++ txt " > /dev/null 2>&1" in
    let sims := [txt "xrun"; txt "irun"; txt "qrun"; txt "vsim"; txt "vcs";
                 txt "dsim"; txt "verilator"; txt "xsim"] in
    let r := Simulators.detect_simulator w in
    Run.w_files (snd r) = Run.w_files w
    /\ ((forall sim, In sim sims -> Run.w_exit w (probe sim) <> 0) ->
        fst r = Some None
        /\ Run.w_launched (snd r) = Run.w_launched w ++ map probe sims)
    /\ (forall before sim after,
          sims = before ++ sim :: after ->
          (forall x, In x before -> Run.w_exit w (probe x) <> 0) ->
          Run.w_exit w (probe sim) = 0 ->
          fst r = Some (Simulators.of_launcher sim)
          /\ Simulators.of_launcher sim <> None
          /\ Run.w_launched (snd r)
             = Run.w_launched w ++ map probe (before ++ [sim])).
Proof.
  intros w probe sims r. subst r. unfold Simulators.detect_simulator.
  subst sims probe.
  split; [apply SelectFacts.detect_writes_nothing|]. split.
  - intros H. cbv beta in H.
    destruct (SelectFacts.detect_none _ w H) as (A1 & A2 & _).
    split; [exact A1 | exact A2].
  - intros before sim after E B Z. cbv beta in B, Z.
    assert (I : In sim (before ++ sim :: after)) by apply in_elt.
    rewrite <- E in I.
    assert (K : Simulators.of_launcher sim <> None).
    { cbn [In] in I.
      repeat (destruct I as [<-|I]; [discriminate|]). destruct I. }
    rewrite E.
    destruct (Simulators.of_launcher sim) as [s|] eqn:L; [|contradiction].
    destruct (SelectFacts.detect_first before sim after s w B Z L) as (A1 & A2 & _).
    split; [exact A1|]. split; [discriminate | exact A2].
Qed.

Lemma X9_witness :
  let w := Run.mkWorld (FS.Dir [] []) [] (txt "/opt/svunit") [] [] []
             (fun c => if Text.eqb c (txt "which verilator > /dev/null 2>&1")
                       then 0 else 1) in
  fst (Simulators.detect_simulator w) = Some (Simulators.of_launcher (txt "verilator"))
  /\ Simulators.of_launcher (txt "verilator") <> None
  /\ Run.w_launched (snd (Simulators.detect_simulator w))
     = Run.w_launched w
       ++ map (fun sim => txt "which " ++ sim ++ txt " > /dev/null 2>&1")
              ([txt "xrun"; txt "irun"; txt "qrun"; txt "vsim"; txt "vcs"; txt "dsim"]
               ++ [txt "verilator"]).
Proof.
  cbv zeta.
  match goal with
  | |- fst (Simulators.detect_simulator ?w) = _ /\ _ =>
      refine (proj2 (proj2 (X9_detect_simulator_first_launcher w))
                [txt "xrun"; txt "irun"; txt "qrun"; txt "vsim"; txt "vcs"; txt "dsim"]
                (txt "verilator") [txt "xsim"] eq_refl _ eq_refl)
  end.
  intros x I. cbn [In] in I.
  repeat (destruct I as [<-|I]; [discriminate|]). destruct I.
Defined.

Module CmdFacts.

Import Text TextFacts FS Run Simulators.

Lemma starts_with_app (p a b : text) :
  starts_with p a = true -> starts_with p (a ++ b) = true.
Proof.
  revert a. induction p as [|x p IH]; intros [|y a] H; try reflexivity;
    try discriminate.
  cbn [app starts_with] in *. apply andb_true_iff in H as [H1 H2].
  now rewrite H1, IH.
Qed.

Lemma contains_app_l (p a b : text) :
  contains p a = true -> contains p (a ++ b) = true.
Proof.
  induction a as [|x a IH]; intros H.
  - destruct p; [destruct b; reflexivity | discriminate H].
  - rewrite contains_cons in H. cbn [app]. rewrite contains_cons.
    apply orb_true_iff in H as [H|H].
    + change (x :: a ++ b) with ((x :: a) ++ b).
      now rewrite starts_with_app.
    + rewrite IH by assumption. apply orb_true_r.
Qed.

Lemma contains_app_r (p a b : text) :
  contains p b = true -> contains p (a ++ b) = true.
Proof.
  intros H. induction a as [|x a IH]; [exact H|].
  cbn [app]. rewrite contains_cons, IH. apply orb_true_r.
Qed.

Lemma contains_here (p b : text) : contains p (p ++ b) = true.
Proof.
  destruct p as [|x p]; [destruct b; reflexivity|].
  cbn [app]. rewrite contains_cons.
  change (x :: p ++ b) with ((x :: p) ++ b).
  now rewrite starts_with_refl_app.
Qed.

Lemma add_filelists_extends self cmd :
  exists x, add_filelists self cmd = cmd ++ x.
Proof.
  unfold add_filelists. generalize (filelists self) as l. intros l. revert cmd.
  induction l as [|f l IH]; intros cmd; cbn [fold_left].
  - exists []. now rewrite app_nil_r.
  - destruct (IH (cmd ++ txt " -f " ++ f)) as [x ->].
    eexists. rewrite <- app_assoc. reflexivity.
Qed.

Lemma contains_add_filelists p self cmd :
  contains p cmd = true -> contains p (add_filelists self cmd) = true.
Proof.
  intros H. destruct (add_filelists_extends self cmd) as [x ->].
  now apply contains_app_l.
Qed.

Lemma contains_add_defines p self cmd :
  contains p cmd = true -> contains p (add_defines self cmd) = true.
Proof.
  intros H. unfold add_defines. destruct (nonempty _); [|exact H].
  now apply contains_app_l.
Qed.

Lemma contains_add_args p args cmd :
  contains p cmd = true -> contains p (add_args args cmd) = true.
Proof.
  intros H. unfold add_args. destruct (nonempty _); [|exact H].
  now apply contains_app_l.
Qed.

Lemma contains_add_filter p self cmd :
  contains p cmd = true -> contains p (add_filter self cmd) = true.
Proof.
  intros H. unfold add_filter. destruct (truthy _); [|exact H].
  now apply contains_app_l.
Qed.

Lemma contains_add_list_tests p self cmd :
  contains p cmd = true -> contains p (add_list_tests self cmd) = true.
Proof.
  intros H. unfold add_list_tests. destruct (list_tests _); [|exact H].
  now apply contains_app_l.
Qed.

Lemma contains_if p (b : bool) (x y : text) :
  contains p x = true -> contains p y = true ->
  contains p (if b then x else y) = true.
Proof. destruct b; tauto. Qed.

Lemma join_snoc (sep : text) (l : list text) (y : text) :
  exists x, join sep (l ++ [y]) = x ++ y.
Proof.
  induction l as [|a l IH]; [now exists []|].
  destruct IH as [x E]. cbn [app join].
  destruct (l ++ [y]) as [|b l'] eqn:F; [now destruct l|].
  rewrite E. exists (a ++ sep ++ x). now rewrite <- !app_assoc.
Qed.

Lemma join_snoc_sep (sep : text) (l : list text) (y pre : text) :
  exists x, pre ++ sep ++ join sep (l ++ [y]) = x ++ sep ++ y.
Proof.
  induction l as [|a l IH] in pre |- *; [now exists pre|].
  cbn [app join].
  destruct (l ++ [y]) as [|b l'] eqn:F; [now destruct l|].
  destruct (IH (pre ++ sep ++ a)) as [x E]. exists x.
  rewrite <- E, <- !app_assoc. reflexivity.
Qed.

(** The definition of the methodology macro is on the command line. *)
Lemma uvm_macro_defined self cmd :
  contains (txt "+define+RUN_SVUNIT_WITH_UVM")
           (add_defines (append_uvm_define self) cmd) = true.
Proof.
  unfold add_defines, append_uvm_define, set_defines. cbn [defines].
  destruct (defines self ++ [txt "RUN_SVUNIT_WITH_UVM"]) as [|a l] eqn:E;
    [now destruct (defines self)|].
  cbn [nonempty]. rewrite <- E.
  destruct (join_snoc_sep (txt "+define+") (defines self)
              (txt "RUN_SVUNIT_WITH_UVM") (txt " ")) as [x F].
  apply contains_app_r.
  change (txt " +define+" ++ join (txt "+define+") (defines self ++ [txt "RUN_SVUNIT_WITH_UVM"]))
    with (txt " " ++ txt "+define+"
            ++ join (txt "+define+") (defines self ++ [txt "RUN_SVUNIT_WITH_UVM"])).
  rewrite F. apply contains_app_r.
  change (txt "+define+" ++ txt "RUN_SVUNIT_WITH_UVM")
    with (txt "+define+RUN_SVUNIT_WITH_UVM" ++ []).
  apply contains_here.
Qed.

Ltac grow :=
  repeat first
    [ apply contains_add_list_tests
    | apply contains_add_filter
    | apply contains_add_args
    | apply contains_add_defines ].

Ltac manifest_read :=
  repeat first
    [ solve [apply contains_app_r; reflexivity]
    | apply contains_add_list_tests
    | apply contains_add_filter
    | apply contains_add_args
    | apply contains_add_defines
    | apply contains_if; [apply contains_app_l|]
    | apply contains_app_l ].

End CmdFacts.

Module RunCmdFacts.

Import Text TextFacts FS Run Simulators CmdFacts.

Lemma xsim_rewrite_env self w :
  w_launched (snd (Xsim_rewrite_manifest self w)) = w_launched w
  /\ w_exit (snd (Xsim_rewrite_manifest self w)) = w_exit w.
Proof.
  destruct (fst (read_file (svunit_f_path self (w_cwd w)) w)) as [c|] eqn:R.
  - rewrite (XsimFacts.rewrite_manifest_readable self w c R). split; reflexivity.
  - rewrite (XsimFacts.rewrite_manifest_unreadable self w R). split; reflexivity.
Qed.

(** A run that is not refused starts one command, which reads the
    manifest, and answers whether its exit status was 0. *)
Lemma run_one_command self w ok self' w' :
  run self w = (Some (ok, self'), w') ->
  ~ (kind self = Verilator /\ (uvm self = true \/ truthy (vhdl_file self) = true)) ->
  exists cmd,
    w_launched w' = w_launched w ++ [cmd]
    /\ ok = (w_exit w cmd =? 0)
    /\ contains (txt " -f .svunit.f") cmd = true
    /\ (kind self <> Xsim -> w_files w' = w_files w).
Proof.
  intros H N. unfold run in H. destruct (kind self) eqn:K.
  - unfold ModelSim_run, bind, _run_command, call, ret in H. cbv zeta in H.
    injection H as <- _ <-. eexists. split; [reflexivity|]. split; [reflexivity|].
    split; [|reflexivity]. manifest_read.
  - unfold Irun_run, one_step_tail, bind, _run_command, call, ret in H. cbv zeta in H.
    injection H as <- _ <-. eexists. split; [reflexivity|]. split; [reflexivity|].
    split; [|reflexivity]. manifest_read.
  - unfold Irun_run, one_step_tail, bind, _run_command, call, ret in H. cbv zeta in H.
    injection H as <- _ <-. eexists. split; [reflexivity|]. split; [reflexivity|].
    split; [|reflexivity]. manifest_read.
  - unfold Vcs_run, one_step_tail, bind, _run_command, call, ret in H. cbv zeta in H.
    injection H as <- _ <-. eexists. split; [reflexivity|]. split; [reflexivity|].
    split; [|reflexivity]. manifest_read.
  - unfold Verilator_run in H.
    destruct (uvm self); [exfalso; apply N; split; [reflexivity | now left]|].
    destruct (truthy (vhdl_file self));
      [exfalso; apply N; split; [reflexivity | now right]|].
    unfold bind, _run_command, call, ret in H. cbv zeta in H.
    injection H as <- _ <-. eexists. split; [reflexivity|]. split; [reflexivity|].
    split; [|reflexivity]. manifest_read.
  - unfold Xsim_run in H. unfold bind at 1 in H.
    destruct (xsim_rewrite_env self w) as [L E].
    destruct (Xsim_rewrite_manifest self w) as [[[]|] w1]; [|discriminate H].
    cbn [snd] in L, E.
    unfold bind, _run_command, call, ret in H. cbv zeta in H.
    injection H as <- _ <-. eexists. cbn [w_launched]. rewrite L, E.
    split; [reflexivity|]. split; [reflexivity|].
    split; [|congruence]. manifest_read.
  - unfold Dsim_run, one_step_tail, bind, _run_command, call, ret in H. cbv zeta in H.
    injection H as <- _ <-. eexists. split; [reflexivity|]. split; [reflexivity|].
    split; [|reflexivity]. manifest_read.
  - unfold Qrun_run, one_step_tail, bind, _run_command, call, ret in H. cbv zeta in H.
    injection H as <- _ <-. eexists. split; [reflexivity|]. split; [reflexivity|].
    split; [|reflexivity]. manifest_read.
Qed.

Lemma xsim_macro_defined self cmd :
  contains (txt "--define RUN_SVUNIT_WITH_UVM")
    (if nonempty (defines (append_uvm_define self))
     then cmd ++ txt " "
              ++ join (txt " ")
                   (map (fun d : text => txt "--define " ++ d)
                        (defines (append_uvm_define self)))
     else cmd) = true.
Proof.
  unfold append_uvm_define, set_defines. cbn [defines].
  destruct (defines self ++ [txt "RUN_SVUNIT_WITH_UVM"]) as [|a l] eqn:E;
    [now destruct (defines self)|].
  cbn [nonempty]. rewrite <- E, map_app. cbn [map].
  destruct (join_snoc (txt " ") (map (fun d : text => txt "--define " ++ d) (defines self))
              (txt "--define " ++ txt "RUN_SVUNIT_WITH_UVM")) as [x F].
  do 2 apply contains_app_r.
  match goal with
  | |- contains _ ?j = true =>
      replace j with (x ++ txt "--define RUN_SVUNIT_WITH_UVM" ++ [])
        by (symmetry; exact F)
  end.
  apply contains_app_r, contains_here.
Qed.

Ltac macro_defined :=
  repeat first
    [ solve [apply uvm_macro_defined]
    | solve [apply xsim_macro_defined]
    | apply contains_add_list_tests
    | apply contains_add_filter
    | apply contains_add_args
    | apply contains_if; [apply contains_app_l|]
    | apply contains_app_l ].

(** With the methodology toggle, the run defines the macro on the command
    line, after the definitions it was given. *)
Lemma run_defines_uvm_macro self w ok self' w' :
  run self w = (Some (ok, self'), w') ->
  uvm self = true ->
  kind self <> Verilator ->
  defines self' = defines self ++ [txt "RUN_SVUNIT_WITH_UVM"]
  /\ exists cmd,
       w_launched w' = w_launched w ++ [cmd]
       /\ contains (if match kind self with Xsim => true | _ => false end
                    then txt "--define RUN_SVUNIT_WITH_UVM"
                    else txt "+define+RUN_SVUNIT_WITH_UVM") cmd = true.
Proof.
  intros H U N. unfold run in H. destruct (kind self) eqn:K; try congruence.
  - unfold ModelSim_run, bind, _run_command, call, ret in H. cbv zeta in H.
    rewrite U in H. injection H as <- <- <-.
    split; [destruct (negb _); reflexivity|].
    eexists. split; [reflexivity|]. macro_defined.
  - unfold Irun_run, one_step_tail, bind, _run_command, call, ret in H. cbv zeta in H.
    rewrite U in H. injection H as <- <- <-. split; [reflexivity|].
    eexists. split; [reflexivity|]. macro_defined.
  - unfold Irun_run, one_step_tail, bind, _run_command, call, ret in H. cbv zeta in H.
    rewrite U in H. injection H as <- <- <-. split; [reflexivity|].
    eexists. split; [reflexivity|]. macro_defined.
  - unfold Vcs_run, one_step_tail, bind, _run_command, call, ret in H. cbv zeta in H.
    rewrite U in H. injection H as <- <- <-. split; [reflexivity|].
    eexists. split; [reflexivity|]. macro_defined.
  - unfold Xsim_run in H. unfold bind at 1 in H.
    destruct (xsim_rewrite_env self w) as [L E].
    destruct (Xsim_rewrite_manifest self w) as [[[]|] w1]; [|discriminate H].
    cbn [snd] in L, E.
    unfold bind, _run_command, call, ret in H. cbv zeta in H.
    rewrite U in H. injection H as <- <- <-. split; [reflexivity|].
    eexists. cbn [w_launched]. rewrite L. split; [reflexivity|]. macro_defined.
  - unfold Dsim_run, one_step_tail, bind, _run_command, call, ret in H. cbv zeta in H.
    rewrite U in H. injection H as <- <- <-. split; [reflexivity|].
    eexists. split; [reflexivity|]. macro_defined.
  - unfold Qrun_run, one_step_tail, bind, _run_command, call, ret in H. cbv zeta in H.
    rewrite U in H. injection H as <- <- <-. split; [reflexivity|].
    eexists. split; [reflexivity|]. macro_defined.
Qed.

(** Without the toggle the definitions are left as given. *)
Lemma run_keeps_defines self w ok self' w' :
  run self w = (Some (ok, self'), w') ->
  uvm self = false ->
  defines self' = defines self.
Proof.
  intros H U. unfold run in H. destruct (kind self) eqn:K.
  - unfold ModelSim_run, bind, _run_command, call, ret in H. cbv zeta in H.
    rewrite U in H. injection H as <- <- <-. destruct (negb _); reflexivity.
  - unfold Irun_run, bind, _run_command, call, ret in H. cbv zeta in H.
    rewrite U in H. now injection H as <- <- <-.
  - unfold Irun_run, bind, _run_command, call, ret in H. cbv zeta in H.
    rewrite U in H. now injection H as <- <- <-.
  - unfold Vcs_run, bind, _run_command, call, ret in H. cbv zeta in H.
    rewrite U in H. now injection H as <- <- <-.
  - unfold Verilator_run in H. rewrite U in H.
    destruct (truthy (vhdl_file self)); [now injection H as <- <- <-|].
    unfold bind, _run_command, call, ret in H. now injection H as <- <- <-.
  - unfold Xsim_run in H. unfold bind at 1 in H.
    destruct (Xsim_rewrite_manifest self w) as [[[]|] w1]; [|discriminate H].
    unfold bind, _run_command, call, ret in H. cbv zeta in H.
    rewrite U in H. now injection H as <- <- <-.
  - unfold Dsim_run, bind, _run_command, call, ret in H. cbv zeta in H.
    rewrite U in H. now injection H as <- <- <-.
  - unfold Qrun_run, bind, _run_command, call, ret in H. cbv zeta in H.
    rewrite U in H. now injection H as <- <- <-.
Qed.

(** After the run of Xsim the manifest that could be read holds its
    rewritten text. *)
Lemma xsim_run_manifest self w r w' content :
  Xsim_run self w = (Some r, w') ->
  fst (read_file (svunit_f_path self (w_cwd w)) w) = Some content ->
  content_of w' (svunit_f_path self (w_cwd w)) = Some (xsim_rewrite content).
Proof.
  intros H R. unfold Xsim_run in H. unfold bind at 1 in H.
  pose proof (XsimFacts.rewrite_manifest_readable self w content R) as E.
  destruct (Xsim_rewrite_manifest self w) as [[[]|] w1]; [|discriminate H].
  cbn [snd] in E. subst w1.
  unfold bind, _run_command, call, ret in H. cbv zeta in H.
  injection H as _ <-. unfold content_of. cbn [w_files set_files].
  rewrite StoreFacts.store_get_set_same. cbn. now rewrite app_nil_r.
Qed.

End RunCmdFacts.

(** X10.  A run that is not refused (the refusal being that of Verilator
    with the methodology toggle or a VHDL file list) and that returns has
    started exactly one command; the command reads the manifest with
    [-f .svunit.f]; the answer is true exactly when the exit status of that
    command is 0; and no backend but Xsim has written a file. *)
Theorem X10_run_starts_one_command :
  forall (self : Simulators.Simulator) (w : Run.world) ok self' w',
    Simulators.run self w = (Some (ok, self'), w') ->
    ~ (Simulators.kind self = Simulators.Verilator
       /\ (Simulators.uvm self = true
           \/ Simulators.truthy (Simulators.vhdl_file self) = true)) ->
    exists cmd,
      Run.w_launched w' = Run.w_launched w ++ [cmd]
      /\ ok = (Run.w_exit w cmd =? 0)
      /\ Text.contains (txt " -f .svunit.f") cmd = true
      /\ (Simulators.kind self <> Simulators.Xsim ->
          Run.w_files w' = Run.w_files w).
Proof. exact RunCmdFacts.run_one_command. Qed.

Lemma X10_witness :
  let w := Run.mkWorld (FS.Dir [] []) [txt "w"] (txt "/opt/svunit") [] [] []
                       (fun _ => 3) in
  let self := Simulators.new Simulators.Dsim in
  exists cmd,
    Run.w_launched (snd (Simulators.run self w)) = Run.w_launched w ++ [cmd]
    /\ false = (Run.w_exit w cmd =? 0)
    /\ Text.contains (txt " -f .svunit.f") cmd = true
    /\ (Simulators.kind self <> Simulators.Xsim ->
        Run.w_files (snd (Simulators.run self w)) = Run.w_files w).
Proof.
  cbv zeta.
  refine (X10_run_starts_one_command (Simulators.new Simulators.Dsim) _ false
            (Simulators.new Simulators.Dsim) _ _ _).
  - vm_compute. reflexivity.
  - intros [K _]. discriminate K.
Defined.

(** X11.  With the methodology toggle set, the run of every backend but
    Verilator adds [RUN_SVUNIT_WITH_UVM] behind the macro definitions it was
    given and passes its definition on the command line ([+define+...], for
    Xsim [--define ...]); without the toggle the definitions are left as
    they were. *)
Theorem X11_run_defines_the_uvm_macro :
  forall (self : Simulators.Simulator) (w : Run.world) ok self' w',
    Simulators.run self w = (Some (ok, self'), w') ->
    (Simulators.uvm self = false ->
     Simulators.defines self' = Simulators.defines self)
    /\ (Simulators.uvm self = true ->
        Simulators.kind self <> Simulators.Verilator ->
        Simulators.defines self'
        = Simulators.defines self ++ [txt "RUN_SVUNIT_WITH_UVM"]
        /\ exists cmd,
             Run.w_launched w' = Run.w_launched w ++ [cmd]
             /\ Text.contains
                  (if match Simulators.kind self with
                      | Simulators.Xsim => true
                      | _ => false
                      end
                   then txt "--define RUN_SVUNIT_WITH_UVM"
                   else txt "+define+RUN_SVUNIT_WITH_UVM") cmd = true).
Proof.
  intros self w ok self' w' H. split.
  - now apply (RunCmdFacts.run_keeps_defines self w ok self' w').
  - now apply (RunCmdFacts.run_defines_uvm_macro self w ok self' w').
Qed.

Lemma X11_witness :
  let w := Run.mkWorld (FS.Dir [] []) [txt "w"] (txt "/opt/svunit") [] [] []
                       (fun _ => 0) in
  let self :=
    Simulators.set_options (Simulators.new Simulators.Vcs)
      (Some [txt "A"]) None None None None true None
      (txt "run.log") (txt "/w") None false in
  Simulators.defines (snd (match fst (Simulators.run self w) with
                           | Some r => r
                           | None => (false, self)
                           end))
  = [txt "A"] ++ [txt "RUN_SVUNIT_WITH_UVM"].
Proof.
  cbv zeta.
  match goal with
  | |- context [Simulators.run ?s ?w] =>
      destruct (Simulators.run s w) as [[[ok self']|] w'] eqn:E;
      [ | vm_compute in E; discriminate E ];
      assert (N : Simulators.kind s <> Simulators.Verilator) by discriminate;
      exact (proj1 (proj2 (X11_run_defines_the_uvm_macro s w ok self' w' E)
                      eq_refl N))
  end.
Defined.

(** X12.  When the run of Xsim returns and the manifest could be read, the
    manifest then holds the rewritten text, in which no [+incdir+] is left;
    a text without [+incdir+] is not changed by the rewrite, and the first
    [+incdir+] of a text becomes [--include ]. *)
Theorem X12_xsim_manifest_after_run :
  (forall (self : Simulators.Simulator) (w : Run.world) r w' content,
      Simulators.Xsim_run self w = (Some r, w') ->
      fst (Run.read_file (Simulators.svunit_f_path self (Run.w_cwd w)) w)
      = Some content ->
      Run.content_of w' (Simulators.svunit_f_path self (Run.w_cwd w))
      = Some (Simulators.xsim_rewrite content))
  /\ (forall content,
        Text.contains (txt "+incdir+") (Simulators.xsim_rewrite content) = false)
  /\ (forall content,
        Text.contains (txt "+incdir+") content = false ->
        Simulators.xsim_rewrite content = content)
  /\ (forall a b,
        Text.contains (txt "+incdir+") (a ++ txt "+incdir") = false ->
        Simulators.xsim_rewrite (a ++ txt "+incdir+" ++ b)
        = a ++ txt "--include " ++ Simulators.xsim_rewrite b).
Proof.
  split; [exact RunCmdFacts.xsim_run_manifest|]. split; [|split].
  - intros content. unfold Simulators.xsim_rewrite, Text.replace.
    apply (TextFacts.replaced_has_no_occurrence
             "+"%char "-"%char (txt "incdir+") (txt "-include ")); reflexivity.
  - intros content H. unfold Simulators.xsim_rewrite, Text.replace.
    now apply TextFacts.replace_from_absent.
  - intros a b H. unfold Simulators.xsim_rewrite, Text.replace.
    apply TextFacts.replace_from_first; [discriminate | exact H].
Qed.

Lemma X12_witness :
  Text.contains (txt "+incdir+") (txt "/w/a" ++ txt "+incdir") = false
  /\ Simulators.xsim_rewrite (txt "/w/a" ++ txt "+incdir+" ++ txt "/w")
     = txt "/w/a" ++ txt "--include " ++ Simulators.xsim_rewrite (txt "/w").
Proof.
  split; [reflexivity|].
  exact (proj2 (proj2 (proj2 X12_xsim_manifest_after_run))
           (txt "/w/a") (txt "/w") eq_refl).
Defined.

(** ** More on the generation phase and on [main] *)

Module PhaseFacts.

Import FS Run StoreFacts RunFacts CodeGen GenFacts Main ManifestFacts CollectFacts.
Local Open Scope run_scope.

(** From [w] to [w'] files were written and nothing else was done. *)
#[local] Abbreviation keeps w w' :=
  (w_root w' = w_root w /\ w_cwd w' = w_cwd w /\ w_install w' = w_install w
   /\ w_made w' = w_made w /\ w_launched w' = w_launched w
   /\ w_exit w' = w_exit w
   /\ forall p, store_get p (w_files w) <> None -> store_get p (w_files w') <> None).

#[local] Abbreviation readable p w :=
  (match fst (read_file p w) with Some _ => true | None => false end).

Lemma keeps_refl w : keeps w w.
Proof. repeat split; trivial. Qed.

Lemma keeps_trans w1 w2 w3 : keeps w1 w2 -> keeps w2 w3 -> keeps w1 w3.
Proof.
  intros (R1 & C1 & I1 & M1 & L1 & X1 & P1) (R2 & C2 & I2 & M2 & L2 & X2 & P2).
  repeat split; try congruence. intros p H. apply P2, P1, H.
Qed.

Lemma readable_keeps p w w' :
  keeps w w' -> readable p w = true -> readable p w' = true.
Proof.
  intros (R & _ & _ & _ & _ & _ & P). unfold read_file.
  destruct (store_get p (w_files w)) as [l|] eqn:G.
  - intros _. assert (X : store_get p (w_files w') <> None)
      by (apply P; rewrite G; discriminate).
    destruct (store_get p (w_files w')); [reflexivity | contradiction].
  - rewrite R. destruct (store_get p (w_files w')); [reflexivity|].
    destruct (lookup p (w_root w)) as [[n c|n es]|]; cbn; intros H;
      first [reflexivity | discriminate H].
Qed.

Lemma presence_set p q v (st : list (path * list text)) :
  store_get q st <> None -> store_get q (store_set p v st) <> None.
Proof.
  intros H. destruct (path_eq_dec q p) as [->|N].
  - rewrite store_get_set_same. discriminate.
  - now rewrite store_get_set_other.
Qed.

Lemma bind_keeps {A B : Type} (m : M A) (k : A -> M B) w b w2 :
  bind m k w = (Some b, w2) ->
  (forall a w1, m w = (Some a, w1) -> keeps w w1) ->
  (forall a w1, keeps w w1 -> k a w1 = (Some b, w2) -> keeps w1 w2) ->
  keeps w w2.
Proof.
  intros H H1 H2. apply bind_some in H as (a & w1 & E & K).
  pose proof (H1 a w1 E) as K1.
  exact (keeps_trans w w1 w2 K1 (H2 a w1 K1 K)).
Qed.

Lemma open_w_keeps p w a w' : open_w p w = (Some a, w') -> keeps w w'.
Proof.
  unfold open_w. intros [= _ <-]. cbn. repeat split. intros q. apply presence_set.
Qed.

Lemma write_keeps p c w a w' : write p c w = (Some a, w') -> keeps w w'.
Proof.
  unfold write. intros [= _ <-]. cbn. repeat split. intros q. apply presence_set.
Qed.

Lemma write_all_keeps p chunks :
  forall w a w', write_all p chunks w = (Some a, w') -> keeps w w'.
Proof.
  induction chunks as [|c chunks IH]; intros w a w' H; cbn [write_all] in H.
  - injection H as _ <-. apply keeps_refl.
  - apply (bind_keeps _ _ _ _ _ H).
    + intros u w1. apply write_keeps.
    + intros u w1 _. apply IH.
Qed.

Lemma ret_keeps {A : Type} (x : A) w a w' : ret x w = (Some a, w') -> keeps w w'.
Proof. intros [= _ <-]. apply keeps_refl. Qed.

Ltac peel H :=
  let a := fresh "a" in
  let w := fresh "w" in
  let E := fresh "E" in
  apply bind_some in H as (a & w & E & H).

Lemma create_testsuite_keeps out uts w a w' :
  create_testsuite out uts w = (Some a, w') ->
  keeps w w' /\ store_get out (w_files w') <> None.
Proof.
  intros H. split.
  - unfold create_testsuite in H. cbv zeta in H. peel H.
    destruct a0 as [cls insts].
    pose proof (collect_unit_tests_pure uts [] [] w) as P. rewrite E in P.
    cbn [snd] in P. subst w0. peel H.
    apply open_w_keeps in E0. apply write_all_keeps in H.
    exact (keeps_trans _ _ _ E0 H).
  - destruct (fst (collect_unit_tests uts [] [] w)) as [[cls insts]|] eqn:E.
    + destruct (create_testsuite_effect out uts w cls insts E) as (w1 & E1 & G & _).
      rewrite E1 in H. injection H as _ <-. rewrite G. discriminate.
    + rewrite (create_testsuite_raises out uts w E) in H. discriminate H.
Qed.

Lemma create_testrunner_keeps out tss w a w' :
  create_testrunner out tss w = (Some a, w') ->
  keeps w w'
  /\ store_get out (w_files w')
     = Some (testrunner_writes (txt "testrunner") (map suite_class tss)
               (map suite_instance (map suite_class tss))).
Proof.
  intros H. split.
  - unfold create_testrunner in H. destruct (collect_suites tss) as [cls insts].
    peel H. apply open_w_keeps in E. apply write_all_keeps in H.
    exact (keeps_trans _ _ _ E H).
  - destruct (create_testrunner_effect out tss w) as (w1 & E1 & G & _).
    rewrite E1 in H. injection H as _ <-. rewrite G.
    assert (S : snd (collect_suites tss)
                = map suite_instance (fst (collect_suites tss)))
      by exact (InstanceNames.collect_suites_from tss [] [] eq_refl).
    assert (K : fst (collect_suites tss) = map suite_class tss)
      by exact (collect_suites_classes tss [] []).
    now rewrite S, K.
Qed.

(** The path of the generated file of a suite. *)
#[local] Abbreviation ts_path_of cwd outdir suite_dir :=
  (outdir ++ [txt "." ++ dir_id_of cwd suite_dir ++ txt "_testsuite.sv"]).

Lemma generate_suite_inv f outdir g suite w g' w' :
  generate_suite f outdir g suite w = (Some g', w') ->
  keeps w w'
  /\ g' = g ++ [ts_path_of (w_cwd w) outdir (fst suite)]
  /\ store_get (ts_path_of (w_cwd w) outdir (fst suite)) (w_files w') <> None.
Proof.
  destruct suite as [suite_dir tests]. unfold generate_suite.
  unfold bind at 1, get_cwd. cbn [fst snd]. intros H.
  peel H. peel H. peel H. peel H. injection H as <- <-.
  apply create_testsuite_keeps in E as [K0 P0].
  apply write_all_keeps in E0. apply write_keeps in E1. apply write_keeps in E2.
  pose proof (keeps_trans _ _ _ E0 (keeps_trans _ _ _ E1 E2)) as K1.
  split; [exact (keeps_trans _ _ _ K0 K1)|]. split; [reflexivity|].
  destruct K1 as (_ & _ & _ & _ & _ & _ & P). now apply P.
Qed.

Lemma generate_suites_inv f outdir suites :
  forall g w g' w',
    generate_suites f outdir g suites w = (Some g', w') ->
    keeps w w'
    /\ g' = g ++ map (fun suite => ts_path_of (w_cwd w) outdir (fst suite)) suites
    /\ forall suite, In suite suites ->
         store_get (ts_path_of (w_cwd w) outdir (fst suite)) (w_files w') <> None.
Proof.
  induction suites as [|suite suites IH]; intros g w g' w' H.
  - injection H as <- <-. split; [apply keeps_refl|].
    split; [now rewrite app_nil_r | intros s []].
  - cbn [generate_suites] in H. peel H.
    apply generate_suite_inv in E as (K1 & -> & P1).
    apply IH in H as (K2 & -> & P2).
    assert (C : w_cwd w0 = w_cwd w) by apply K1. rewrite C in P2 |- *.
    split; [exact (keeps_trans _ _ _ K1 K2)|]. split.
    + cbn [map]. now rewrite <- app_assoc.
    + intros s [<-|I]; [|now apply P2].
      destruct K2 as (_ & _ & _ & _ & _ & _ & P). now apply P.
Qed.

Lemma cond_writes_keeps (b : bool) f c1 c2 w a w' :
  (if b then write f c1 ;;; write f c2 else ret tt) w = (Some a, w') ->
  keeps w w'.
Proof.
  destruct b; intros H.
  - peel H. apply write_keeps in E. apply write_keeps in H.
    exact (keeps_trans _ _ _ E H).
  - now apply ret_keeps in H.
Qed.

(** A step that returns, having only written files. *)
#[local] Abbreviation ok m w :=
  (exists a w', m w = (Some a, w') /\ keeps w w').

Lemma bind_ok {A B : Type} (m : M A) (k : A -> M B) w :
  ok m w ->
  (forall a w1, keeps w w1 -> ok (k a) w1) ->
  ok (bind m k) w.
Proof.
  intros (a & w1 & E & K) H. destruct (H a w1 K) as (b & w2 & E2 & K2).
  exists b, w2. split; [unfold bind; now rewrite E | exact (keeps_trans _ _ _ K K2)].
Qed.

Lemma open_w_ok p w : ok (open_w p) w.
Proof.
  destruct (open_w_effect p w) as (w1 & E & _).
  exists tt, w1. split; [exact E | exact (open_w_keeps _ _ _ _ E)].
Qed.

Lemma write_ok p c w : ok (write p c) w.
Proof.
  destruct (write_effect p c w) as (w1 & E & _).
  exists tt, w1. split; [exact E | exact (write_keeps _ _ _ _ _ E)].
Qed.

Lemma write_all_ok p chunks w : ok (write_all p chunks) w.
Proof.
  destruct (write_all_effect p chunks w) as (w1 & E & _).
  exists tt, w1. split; [exact E | exact (write_all_keeps _ _ _ _ _ E)].
Qed.

Lemma cond_writes_ok (b : bool) f c1 c2 w :
  ok (if b then write f c1 ;;; write f c2 else ret tt) w.
Proof.
  destruct b.
  - apply bind_ok; [apply write_ok | intros; apply write_ok].
  - exists tt, w. split; [reflexivity | apply keeps_refl].
Qed.

Lemma create_testrunner_ok out tss w : ok (create_testrunner out tss) w.
Proof.
  destruct (create_testrunner_effect out tss w) as (w1 & E & _).
  exists tt, w1. split; [exact E | exact (proj1 (create_testrunner_keeps _ _ _ _ _ E))].
Qed.

Lemma create_testsuite_ok out uts w :
  forallb (fun ut => readable ut w) uts = true ->
  ok (create_testsuite out uts) w.
Proof.
  intros R. pose proof (collect_unit_tests_result uts w [] []) as C.
  rewrite R in C. cbv zeta in C.
  destruct (create_testsuite_effect out uts w _ _ C) as (w' & E & _).
  exists tt, w'. split; [exact E | exact (proj1 (create_testsuite_keeps _ _ _ _ _ E))].
Qed.

Lemma readable_all_keeps (suites : list (path * list path)) w w' :
  keeps w w' ->
  (forall suite, In suite suites ->
     forallb (fun ut => readable ut w) (snd suite) = true) ->
  forall suite, In suite suites ->
    forallb (fun ut => readable ut w') (snd suite) = true.
Proof.
  intros K R s I. specialize (R s I). rewrite forallb_forall in R |- *.
  intros ut Iu. apply (readable_keeps ut w w' K). now apply R.
Qed.

Lemma generate_suite_ok f outdir g suite w :
  forallb (fun ut => readable ut w) (snd suite) = true ->
  ok (generate_suite f outdir g suite) w.
Proof.
  intros R. destruct suite as [suite_dir tests]. cbn [snd] in R.
  unfold generate_suite.
  apply bind_ok; [exists (w_cwd w), w; split; [reflexivity | apply keeps_refl]|].
  intros cwd w0 K0. cbn [fst snd].
  apply bind_ok.
  { apply create_testsuite_ok. rewrite forallb_forall in R |- *.
    intros ut Iu. apply (readable_keeps ut w w0 K0). now apply R. }
  intros _ w1 _. apply bind_ok; [apply write_all_ok|].
  intros _ w2 _. apply bind_ok; [apply write_ok|].
  intros _ w3 _. apply bind_ok; [apply write_ok|].
  intros _ w4 _. eexists. exists w4. split; [reflexivity | apply keeps_refl].
Qed.

Lemma generate_suites_ok f outdir suites :
  forall g w,
    (forall suite, In suite suites ->
       forallb (fun ut => readable ut w) (snd suite) = true) ->
    ok (generate_suites f outdir g suites) w.
Proof.
  induction suites as [|suite suites IH]; intros g w R.
  - exists g, w. split; [reflexivity | apply keeps_refl].
  - cbn [generate_suites]. apply bind_ok.
    + apply generate_suite_ok, R. now left.
    + intros g1 w1 K1. apply IH.
      apply (readable_all_keeps suites w w1 K1). intros s I. apply R. now right.
Qed.

Ltac carry K R :=
  let R' := fresh in
  pose proof (readable_all_keeps _ _ _ K R) as R'; clear R K; rename R' into R.

Lemma generate_ok args outdir suites w :
  (forall suite, In suite suites ->
     forallb (fun ut => readable ut w) (snd suite) = true) ->
  ok (generate args outdir suites) w.
Proof.
  intros R. unfold generate.
  apply bind_ok; [exists (w_cwd w), w; split; [reflexivity | apply keeps_refl]|].
  intros cwd w0 K0. carry K0 R.
  apply bind_ok; [exists (w_install w0), w0; split; [reflexivity | apply keeps_refl]|].
  intros svunit_install w1 K1. carry K1 R.
  apply bind_ok; [apply open_w_ok|].
  intros _ w2 K. carry K R.
  do 5 (apply bind_ok; [apply write_ok|];
        let K := fresh "K" in
        intros _ ? K; carry K R).
  do 2 (apply bind_ok; [apply cond_writes_ok|];
        let K := fresh "K" in
        intros _ ? K; carry K R).
  apply bind_ok; [now apply generate_suites_ok|].
  intros g w' _.
  apply bind_ok; [apply create_testrunner_ok|].
  intros _ w'' _. apply write_ok.
Qed.

(** What the generation phase leaves behind when it returns. *)
Lemma generate_inv args outdir suites w w' :
  generate args outdir suites w = (Some tt, w') ->
  keeps w w'
  /\ (forall suite, In suite suites ->
        store_get (ts_path_of (w_cwd w) outdir (fst suite)) (w_files w') <> None)
  /\ store_get (outdir ++ [txt ".svunit.f"]) (w_files w') <> None
  /\ store_get (outdir ++ [txt ".testrunner.sv"]) (w_files w')
     = Some (let names :=
               map (fun suite =>
                      suite_class (ts_path_of (w_cwd w) outdir (fst suite))) suites in
             testrunner_writes (txt "testrunner") names (map suite_instance names)).
Proof.
  unfold generate. unfold bind at 1, get_cwd. unfold bind at 1, get_install.
  intros H.
  peel H. peel H. peel H. peel H. peel H. peel H. peel H. peel H. peel H. peel H.
  pose proof E as O.
  apply open_w_keeps in E.
  apply write_keeps in E0, E1, E2, E3, E4.
  apply cond_writes_keeps in E5, E6.
  apply generate_suites_inv in E7 as (K7 & -> & P7).
  apply create_testrunner_keeps in E8 as (K8 & G8).
  pose proof H as Wr. apply write_keeps in H.
  pose proof (keeps_trans _ _ _ E
                (keeps_trans _ _ _ E0
                   (keeps_trans _ _ _ E1
                      (keeps_trans _ _ _ E2
                         (keeps_trans _ _ _ E3
                            (keeps_trans _ _ _ E4
                               (keeps_trans _ _ _ E5 E6))))))) as K.
  assert (C : w_cwd w7 = w_cwd w) by apply K. rewrite C in P7, G8.
  split; [exact (keeps_trans _ _ _ K (keeps_trans _ _ _ K7 (keeps_trans _ _ _ K8 H)))|].
  split; [|split].
  - intros s I.
    destruct (keeps_trans _ _ _ K8 H) as (_ & _ & _ & _ & _ & _ & P). now apply P, P7.
  - destruct (open_w_effect (outdir ++ [txt ".svunit.f"]) w) as (wo & Eo & Go & _).
    rewrite Eo in O. injection O as _ <-.
    destruct (keeps_trans _ _ _ E0
                (keeps_trans _ _ _ E1
                   (keeps_trans _ _ _ E2
                      (keeps_trans _ _ _ E3
                         (keeps_trans _ _ _ E4
                            (keeps_trans _ _ _ E5
                               (keeps_trans _ _ _ E6
                                  (keeps_trans _ _ _ K7
                                     (keeps_trans _ _ _ K8 H)))))))))
      as (_ & _ & _ & _ & _ & _ & P).
    apply P. rewrite Go. discriminate.
  - cbv zeta. cbn [app] in G8.
    destruct (write_effect (outdir ++ [txt ".svunit.f"])
                (str (outdir ++ [txt ".testrunner.sv"]) ++ nl) w9)
      as (wx & Ex & _ & Fx & _).
    rewrite Ex in Wr. injection Wr as <-.
    rewrite Fx by apply testrunner_file_is_not_manifest.
    rewrite G8, !map_map. reflexivity.
Qed.

End PhaseFacts.

(** ** Paths written as text and read back *)

Module PathFacts.

Import Text FS.

#[local] Abbreviation no_slash c :=
  (Forall (fun ch => Ascii.eqb ch "/" = false) c).

(** A component as [components] leaves them. *)
#[local] Abbreviation comp_ok c :=
  (no_slash c /\ c%list <> [] /\ c%list <> txt ".").

Lemma split_from_slash cur c s :
  no_slash c ->
  split_from cur (c ++ "/"%char :: s) = (rev cur ++ c) :: split_from [] s.
Proof.
  intros N. revert cur. induction N as [|ch c H N IH]; intros cur.
  - cbn. now rewrite app_nil_r.
  - cbn [app split_from]. rewrite H, IH. cbn [rev]. now rewrite <- app_assoc.
Qed.

Lemma split_from_end cur c :
  no_slash c -> split_from cur c = [rev cur ++ c].
Proof.
  intros N. revert cur. induction N as [|ch c H N IH]; intros cur.
  - cbn. now rewrite app_nil_r.
  - cbn [split_from]. rewrite H, IH. cbn [rev]. now rewrite <- app_assoc.
Qed.

Lemma split_join p :
  p <> [] -> Forall (fun c => no_slash c) p -> split_from [] (join (txt "/") p) = p.
Proof.
  intros NE F. induction F as [|x l Hx F IH]; [contradiction|].
  destruct l as [|y l].
  - cbn [join]. now rewrite split_from_end.
  - change (join (txt "/") (x :: y :: l))
      with (x ++ "/"%char :: join (txt "/") (y :: l)).
    rewrite split_from_slash by exact Hx. cbn [rev app]. f_equal.
    apply IH. discriminate.
Qed.

Lemma split_from_out s :
  forall cur, no_slash cur -> Forall (fun c => no_slash c) (split_from cur s).
Proof.
  induction s as [|ch s IH]; intros cur N; cbn [split_from].
  - constructor; [now apply Forall_rev | constructor].
  - destruct (Ascii.eqb ch "/") eqn:E.
    + constructor; [now apply Forall_rev | apply IH; constructor].
    + apply IH. now constructor.
Qed.

Lemma kept_iff c :
  negb (Text.eqb c [] || Text.eqb c (txt ".")) = true <-> c <> [] /\ c <> txt ".".
Proof.
  rewrite negb_true_iff, orb_false_iff.
  split.
  - intros [A B]. split; intros ->; [discriminate A|discriminate B].
  - intros [A B]. split.
    + destruct (Text.eqb c []) eqn:E; [|reflexivity].
      apply TreeFacts.text_eqb_eq in E. contradiction.
    + destruct (Text.eqb c (txt ".")) eqn:E; [|reflexivity].
      apply TreeFacts.text_eqb_eq in E. contradiction.
Qed.

Lemma components_ok s : Forall (fun c => comp_ok c) (components s).
Proof.
  unfold components. apply Forall_forall. intros c I.
  apply filter_In in I as [I K]. apply kept_iff in K as [A B].
  split; [|split; assumption].
  pose proof (split_from_out s [] (Forall_nil _)) as F.
  rewrite Forall_forall in F. now apply F.
Qed.

Lemma filter_all {A : Type} (f : A -> bool) (l : list A) :
  Forall (fun x => f x = true) l -> filter f l = l.
Proof.
  induction 1 as [|x l H F IH]; [reflexivity|]. cbn. now rewrite H, IH.
Qed.

Lemma components_str p :
  Forall (fun c => comp_ok c) p -> components (str p) = p.
Proof.
  intros F. unfold components, str.
  change (txt "/" ++ join (txt "/") p) with ("/"%char :: join (txt "/") p).
  cbn [split_from]. change (Ascii.eqb "/" "/") with true. cbv iota.
  cbn [rev filter]. change (Text.eqb [] []) with true. cbn [orb negb].
  destruct p as [|x p]; [reflexivity|].
  rewrite split_join.
  - apply filter_all. eapply Forall_impl; [|exact F].
    intros c (_ & A & B). now apply kept_iff.
  - discriminate.
  - eapply Forall_impl; [|exact F]. intros c (N & _ & _). exact N.
Qed.

(** A path is normal when reading its text back gives the path. *)
Lemma normal_iff p :
  components (str p) = p <-> Forall (fun c => comp_ok c) p.
Proof.
  split; [intros <-; apply components_ok | apply components_str].
Qed.

Lemma div_normal d s :
  components (str d) = d -> components (str (div d s)) = div d s.
Proof.
  intros N. apply normal_iff. unfold div.
  destruct (starts_with (txt "/") s); [apply components_ok|].
  apply Forall_app. split; [now apply normal_iff | apply components_ok].
Qed.

Lemma join_app_snoc sep p b :
  p <> [] -> join sep (p ++ [b]) = join sep p ++ sep ++ b.
Proof.
  induction p as [|x p IH]; intros NE; [contradiction|].
  destruct p as [|y p]; [reflexivity|].
  change (join sep ((x :: y :: p) ++ [b]))
    with (x ++ sep ++ join sep ((y :: p) ++ [b])).
  rewrite IH by discriminate.
  change (join sep (x :: y :: p)) with (x ++ sep ++ join sep (y :: p)).
  now rewrite <- !app_assoc.
Qed.

Lemma str_last p :
  p <> [] -> Forall (fun c => comp_ok c) p ->
  exists x ch, str p = x ++ [ch] /\ Ascii.eqb ch "/" = false.
Proof.
  intros NE F. destruct (exists_last NE) as (q & c & ->).
  apply Forall_app in F as [_ Fc]. inversion Fc as [|? ? (N & A & _) _]; subst.
  destruct (exists_last A) as (c' & ch & ->).
  apply Forall_app in N as [_ N]. inversion N as [|? ? Hch _]; subst.
  destruct (CmdFacts.join_snoc (txt "/") q (c' ++ [ch])) as [x E].
  exists (txt "/" ++ x ++ c'), ch. split; [|exact Hch].
  unfold str. transitivity (txt "/" ++ x ++ c' ++ [ch]); [f_equal; exact E|].
  now rewrite !app_assoc.
Qed.

(** [os.path.join] of the text of a normal path and one more component is
    the text of the longer path. *)
Lemma os_path_join_str p b :
  Forall (fun c => comp_ok c) p -> comp_ok b ->
  Simulators.os_path_join (str p) b = str (p ++ [b]).
Proof.
  intros F (N & A & _). unfold Simulators.os_path_join.
  destruct b as [|b0 b]; [contradiction|].
  inversion N as [|? ? H0 _]; subst.
  change (starts_with (txt "/") (b0 :: b)) with (Ascii.eqb "/" b0 && true).
  rewrite Ascii.eqb_sym, H0. cbn [andb].
  destruct p as [|x p]; [reflexivity|].
  destruct (str_last (x :: p)) as (y & ch & E & Hch); [discriminate | exact F|].
  assert (Z : Text.eqb (str (x :: p)) [] = false) by reflexivity.
  rewrite Z. cbn [orb]. unfold ends_with. rewrite E, rev_app_distr.
  change (starts_with (rev (txt "/")) (rev [ch] ++ rev y))
    with (Ascii.eqb "/" ch && true).
  rewrite Ascii.eqb_sym, Hch. cbn [andb].
  rewrite <- E. unfold str. rewrite join_app_snoc by discriminate.
  now rewrite <- !app_assoc.
Qed.

(** The manifest that Xsim looks for, when the output directory was given
    as the text of a normal path. *)
Lemma svunit_f_path_of_str self outdir cwd :
  components (str outdir) = outdir ->
  Simulators.outdir self = str outdir ->
  Simulators.svunit_f_path self cwd = outdir ++ [txt ".svunit.f"].
Proof.
  intros N O. apply normal_iff in N. unfold Simulators.svunit_f_path.
  rewrite O, os_path_join_str.
  - unfold div. change (starts_with (txt "/") (str (outdir ++ [txt ".svunit.f"])))
      with true. cbv iota. apply components_str.
    apply Forall_app. split; [exact N|]. constructor; [|constructor].
    split; [repeat constructor | split; discriminate].
  - exact N.
  - split; [repeat constructor | split; discriminate].
Qed.

End PathFacts.

Module MainFacts.

Import FS Run Discovery StoreFacts RunFacts CodeGen Main PhaseFacts.
Local Open Scope run_scope.

(** The tests of a suite are tests that were found. *)
Lemma suite_tests_found d suite test :
  In suite (get_test_suites d) -> In test (snd suite) -> In test (found_tests d).
Proof.
  unfold get_test_suites. rewrite GroupFacts.suites_closed_form.
  intros I J. apply in_map_iff in I as (k & <- & _). cbn [snd] in J.
  unfold with_parent in J. apply filter_In in J. tauto.
Qed.

(** The discovery that [main] makes. *)
#[local] Abbreviation discovery_of args w :=
  (discover (w_root w)
     (mkTestDiscovery (search_directories (w_cwd w) (directory args))
                      (tests args) [])).

(** Up to the generation [main] has at most made the output directory. *)
Lemma main_found args w :
  found_tests (discovery_of args w) <> [] ->
  exists w0,
    main args w
    = (generate args (div (w_cwd w) (outdir args))
         (get_test_suites (discovery_of args w)) ;;;
       simulate args (div (w_cwd w) (outdir args))) w0
    /\ w_root w0 = w_root w /\ w_cwd w0 = w_cwd w /\ w_install w0 = w_install w
    /\ w_files w0 = w_files w /\ w_launched w0 = w_launched w
    /\ w_exit w0 = w_exit w.
Proof.
  intros F. unfold main. unfold bind at 1, get_cwd. unfold bind at 1, path_exists.
  match goal with
  | |- context [if ?e then ret tt else mkdir ?o] =>
      destruct e; unfold bind at 1; [unfold ret at 1 | unfold mkdir at 1]
  end.
  - unfold bind at 1, get_root. cbn [w_root w_cwd].
    destruct (found_tests (discovery_of args w)) as [|t ts] eqn:E; [contradiction|].
    exists w. repeat split.
  - unfold bind at 1, get_root. cbn [w_root w_cwd].
    destruct (found_tests (discovery_of args w)) as [|t ts] eqn:E; [contradiction|].
    eexists. split; [reflexivity|]. repeat split.
Qed.

Lemma readable_same p w w0 :
  w_root w0 = w_root w -> w_files w0 = w_files w ->
  fst (read_file p w0) = fst (read_file p w).
Proof. intros R F. unfold read_file. rewrite R, F.
  destruct (store_get p (w_files w)); [reflexivity|].
  destruct (lookup p (w_root w)) as [[n c|n es]|]; reflexivity.
Qed.

(** When every test that was found can be read, the generation of [main]
    returns. *)
Lemma main_generates args w :
  found_tests (discovery_of args w) <> [] ->
  (forall p, In p (found_tests (discovery_of args w)) ->
     fst (read_file p w) <> None) ->
  exists w0 w1,
    main args w = simulate args (div (w_cwd w) (outdir args)) w1
    /\ generate args (div (w_cwd w) (outdir args))
         (get_test_suites (discovery_of args w)) w0 = (Some tt, w1)
    /\ w_cwd w0 = w_cwd w
    /\ w_launched w1 = w_launched w /\ w_exit w1 = w_exit w.
Proof.
  intros F R.
  destruct (main_found args w F) as (w0 & E & Rt & C & I & Fi & L & X).
  destruct (generate_ok args (div (w_cwd w) (outdir args))
              (get_test_suites (discovery_of args w)) w0) as ([] & w1 & G & K).
  { intros suite Is. rewrite forallb_forall. intros ut Iu.
    rewrite (readable_same ut w w0 Rt Fi).
    specialize (R ut (suite_tests_found _ suite ut Is Iu)).
    destruct (fst (read_file ut w)); [reflexivity | contradiction]. }
  exists w0, w1. split; [|split; [exact G|]].
  - rewrite E. unfold bind at 1. now rewrite G.
  - destruct K as (_ & _ & _ & _ & L1 & X1 & _).
    repeat split; congruence.
Qed.


(** The run of a backend returns: always for a backend other than Xsim,
    and for Xsim when the manifest it looks for was written. *)
Lemma run_returns self w :
  (Simulators.kind self = Simulators.Xsim ->
   store_get (Simulators.svunit_f_path self (w_cwd w)) (w_files w) <> None) ->
  exists r w', Simulators.run self w = (Some r, w').
Proof.
  intros X. unfold Simulators.run. destruct (Simulators.kind self).
  - eexists. eexists. reflexivity.
  - eexists. eexists. reflexivity.
  - eexists. eexists. reflexivity.
  - eexists. eexists. reflexivity.
  - unfold Simulators.Verilator_run.
    destruct (Simulators.uvm self); [eexists; eexists; reflexivity|].
    destruct (Simulators.truthy _); eexists; eexists; reflexivity.
  - specialize (X eq_refl).
    unfold Simulators.Xsim_run. unfold bind at 1.
    unfold Simulators.Xsim_rewrite_manifest.
    unfold bind at 1, get_cwd. unfold bind at 1, path_exists.
    destruct (store_get (Simulators.svunit_f_path self (w_cwd w)) (w_files w))
      as [chunks|] eqn:G; [|contradiction].
    cbv iota. unfold bind at 1, read_file. rewrite G.
    eexists. eexists. reflexivity.
  - eexists. eexists. reflexivity.
  - eexists. eexists. reflexivity.
Qed.

(** What [simulate] does with a simulator that was named. *)
Lemma simulate_named args outdir name w :
  simulator args = Some name -> name <> [] ->
  simulate args outdir w
  = match Simulators.get_simulator name with
    | None => (Some 1, w)
    | Some s =>
        (r <- Simulators.run
                (Simulators.set_options s
                   (define args) (filelist args) (r_arg args) (c_arg args)
                   (e_arg args) (uvm args) (vhdlfile args) (logfile args)
                   (str outdir) (filter args) (list_tests args)) ;;
         if fst r then ret 0 else ret 1) w
    end.
Proof.
  intros S N. unfold simulate. rewrite S.
  destruct name as [|c name]; [contradiction|]. cbn [Simulators.truthy Simulators.fmt].
  unfold bind at 1, ret at 1.
  destruct (Simulators.get_simulator (c :: name)); reflexivity.
Qed.

End MainFacts.



(** X14.  A simulator name that [get_simulator] does not know is found out
    only after the generation: when tests were found and can be read,
    [main] returns 1 and has started no command, but the manifest and the
    runner have been written. *)
Theorem X14_unknown_simulator_is_reported_after_generation :
  forall (args : Main.Args) (w : Run.world) (name : text),
    Main.simulator args = Some name ->
    name <> [] ->
    Simulators.get_simulator name = None ->
    let discovery :=
      Discovery.discover (Run.w_root w)
        (Discovery.mkTestDiscovery
           (Main.search_directories (Run.w_cwd w) (Main.directory args))
           (Main.tests args) []) in
    let outdir := FS.div (Run.w_cwd w) (Main.outdir args) in
    Discovery.found_tests discovery <> [] ->
    (forall p, In p (Discovery.found_tests discovery) ->
               fst (Run.read_file p w) <> None) ->
    exists w',
      Main.main args w = (Some 1, w')
      /\ Run.w_launched w' = Run.w_launched w
      /\ Run.store_get (outdir ++ [txt ".svunit.f"]) (Run.w_files w') <> None
      /\ Run.store_get (outdir ++ [txt ".testrunner.sv"]) (Run.w_files w') <> None.
Proof.
  intros args w name S N U discovery outdir F R.
  destruct (MainFacts.main_generates args w F R) as (w0 & w1 & E & G & _ & L & _).
  exists w1. rewrite E, (MainFacts.simulate_named args _ name w1 S N), U.
  split; [reflexivity|]. split; [exact L|].
  destruct (PhaseFacts.generate_inv _ _ _ _ _ G) as (_ & _ & M & T).
  split; [exact M|]. fold outdir in T. rewrite T. discriminate.
Qed.

Lemma X14_witness :
  let root :=
    FS.Dir [] [FS.Dir (txt "w")
                 [FS.File (txt "foo_unit_test.sv") (txt "module foo_unit_test;")]] in
  let w := Run.mkWorld root [txt "w"] (txt "/opt/svunit") [] [] [] (fun _ => 0) in
  let args := Main.mkArgs (Some (txt "icarus")) (txt "run.log") None None false
                          None None None (txt ".") None None None None false false in
  exists w',
    Main.main args w = (Some 1, w')
    /\ Run.w_launched w' = []
    /\ Run.store_get [txt "w"; txt ".svunit.f"] (Run.w_files w') <> None
    /\ Run.store_get [txt "w"; txt ".testrunner.sv"] (Run.w_files w') <> None.
Proof.
  cbv zeta.
  match goal with
  | |- exists w', Main.main ?args ?w = _ /\ _ =>
      refine (X14_unknown_simulator_is_reported_after_generation
                args w (txt "icarus") eq_refl _ eq_refl _ _)
  end.
  - discriminate.
  - vm_compute. discriminate.
  - intros p I. vm_compute in I. destruct I as [<-|[]]. vm_compute. discriminate.
Defined.

(** X15.  With a simulator named that [get_simulator] knows, tests found
    that can be read, and a normal working directory: when the backend is
    Verilator and the methodology toggle or a VHDL file list is given,
    [main] returns 1 and has started no command; otherwise [main] has
    started exactly one command, which reads the manifest, and returns 0
    when the exit status of that command is 0 and 1 when it is not. *)
Theorem X15_main_runs_the_named_simulator :
  forall (args : Main.Args) (w : Run.world) (name : text) (s : Simulators.Simulator),
    Main.simulator args = Some name ->
    name <> [] ->
    Simulators.get_simulator name = Some s ->
    FS.components (FS.str (Run.w_cwd w)) = Run.w_cwd w ->
    let discovery :=
      Discovery.discover (Run.w_root w)
        (Discovery.mkTestDiscovery
           (Main.search_directories (Run.w_cwd w) (Main.directory args))
           (Main.tests args) []) in
    Discovery.found_tests discovery <> [] ->
    (forall p, In p (Discovery.found_tests discovery) ->
               fst (Run.read_file p w) <> None) ->
    let refused :=
      Simulators.kind s = Simulators.Verilator
      /\ (Main.uvm args = true
          \/ Simulators.truthy (Main.vhdlfile args) = true) in
    (refused ->
     exists w', Main.main args w = (Some 1, w')
                /\ Run.w_launched w' = Run.w_launched w)
    /\ (~ refused ->
        exists cmd w',
          Main.main args w
          = (Some (if Run.w_exit w cmd =? 0 then 0 else 1), w')
          /\ Run.w_launched w' = Run.w_launched w ++ [cmd]
          /\ Text.contains (txt " -f .svunit.f") cmd = true).
Proof.
  intros args w name s S N K C discovery F R refused.
  destruct (MainFacts.main_generates args w F R) as (w0 & w1 & E & G & C0 & L & X).
  rewrite E, (MainFacts.simulate_named args _ name w1 S N), K.
  set (self := Simulators.set_options s _ _ _ _ _ _ _ _ _ _ _).
  split.
  - intros [V H]. exists w1. split; [|exact L].
    unfold Run.bind, Simulators.run.
    change (Simulators.kind self) with (Simulators.kind s). rewrite V.
    unfold Simulators.Verilator_run.
    change (Simulators.uvm self) with (Main.uvm args).
    change (Simulators.vhdl_file self) with (Main.vhdlfile args).
    destruct (Main.uvm args); [reflexivity|].
    destruct H as [H|H]; [discriminate H|]. rewrite H. reflexivity.
  - intros NR.
    destruct (MainFacts.run_returns self w1) as ([ok self'] & w2 & Rn).
    { intros _.
      rewrite (PathFacts.svunit_f_path_of_str self
                 (FS.div (Run.w_cwd w) (Main.outdir args)) (Run.w_cwd w1)
                 (PathFacts.div_normal _ _ C) eq_refl).
      destruct (PhaseFacts.generate_inv _ _ _ _ _ G) as (_ & _ & M & _).
      exact M. }
    destruct (RunCmdFacts.run_one_command self w1 ok self' w2 Rn NR)
      as (cmd & L2 & O & Cn & _).
    exists cmd, w2. unfold Run.bind. rewrite Rn. cbn [fst].
    rewrite <- X, <- O, <- L, <- L2.
    split; [destruct ok; reflexivity|]. split; [reflexivity | exact Cn].
Qed.

Lemma X15_witness :
  let root :=
    FS.Dir [] [FS.Dir (txt "w")
                 [FS.File (txt "foo_unit_test.sv") (txt "module foo_unit_test;")]] in
  let w := Run.mkWorld root [txt "w"] (txt "/opt/svunit") [] [] [] (fun _ => 2) in
  let args := Main.mkArgs (Some (txt "XSim")) (txt "run.log") None None false
                          None None None (txt "out") None None None None false false in
  exists cmd w',
    Main.main args w = (Some (if Run.w_exit w cmd =? 0 then 0 else 1), w')
    /\ Run.w_launched w' = Run.w_launched w ++ [cmd]
    /\ Text.contains (txt " -f .svunit.f") cmd = true.
Proof.
  cbv zeta.
  match goal with
  | |- exists cmd w', Main.main ?args ?w = _ /\ _ =>
      refine (proj2 (X15_main_runs_the_named_simulator
                       args w (txt "XSim") (Simulators.new Simulators.Xsim)
                       eq_refl _ eq_refl eq_refl _ _) _)
  end.
  - discriminate.
  - vm_compute. discriminate.
  - intros p I. vm_compute in I. destruct I as [<-|[]]. vm_compute. discriminate.
  - intros [V _]. discriminate V.
Defined.

(** X16.  Paths written as text and read back.  The components read from
    any text form a normal path, one whose text reads back as itself; a
    resolved directory stays normal under [/]; and for a normal output
    directory handed over as text, the manifest that the Xsim backend looks
    for with [os.path.join] is the file [.svunit.f] of that directory,
    whatever the working directory is. *)
Theorem X16_paths_read_back :
  (forall s : text, FS.components (FS.str (FS.components s)) = FS.components s)
  /\ (forall (d : FS.path) (s : text),
        FS.components (FS.str d) = d ->
        FS.components (FS.str (FS.div d s)) = FS.div d s)
  /\ (forall (self : Simulators.Simulator) (outdir cwd : FS.path),
        FS.components (FS.str outdir) = outdir ->
        Simulators.outdir self = FS.str outdir ->
        Simulators.svunit_f_path self cwd = outdir ++ [txt ".svunit.f"]).
Proof.
  split; [|split].
  - intros s. apply PathFacts.normal_iff, PathFacts.components_ok.
  - exact PathFacts.div_normal.
  - exact PathFacts.svunit_f_path_of_str.
Qed.

Lemma X16_witness :
  FS.components (FS.str [txt "w"; txt "out"]) = [txt "w"; txt "out"]
  /\ Simulators.svunit_f_path
       (Simulators.set_options (Simulators.new Simulators.Xsim)
          None None None None None false None (txt "run.log")
          (FS.str [txt "w"; txt "out"]) None false)
       [txt "elsewhere"]
     = [txt "w"; txt "out"] ++ [txt ".svunit.f"].
Proof.
  split; [reflexivity|].
  exact (proj2 (proj2 X16_paths_read_back)
           (Simulators.set_options (Simulators.new Simulators.Xsim)
              None None None None None false None (txt "run.log")
              (FS.str [txt "w"; txt "out"]) None false)
           [txt "w"; txt "out"] [txt "elsewhere"] eq_refl eq_refl).
Defined.

(** ** The identifier of a suite directory *)

Module IdFacts.

Import Text FS Main SuiteNameFacts.

(** What [sanitize] does to one character. *)
#[local] Abbreviation squash :=
  (fun c : ascii =>
     if (Ascii.eqb c "/" || Ascii.eqb c "." || Ascii.eqb c "-")%bool
     then "_"%char else c).

Lemma replace_char_map (c d : ascii) (s : text) :
  replace [c] [d] s = map (fun x => if Ascii.eqb c x then d else x) s.
Proof.
  rewrite replace_char. induction s as [|x s IH]; [reflexivity|].
  cbn [flat_map map]. rewrite IH. destruct (Ascii.eqb c x); reflexivity.
Qed.

Lemma sanitize_map (s : text) : sanitize s = map squash s.
Proof.
  unfold sanitize.
  change (txt "-") with ["-"%char]. change (txt ".") with ["."%char].
  change (txt "/") with ["/"%char]. change (txt "_") with ["_"%char].
  rewrite !replace_char_map, !map_map. apply map_ext. intros x.
  rewrite (Ascii.eqb_sym x "/"), (Ascii.eqb_sym x "."), (Ascii.eqb_sym x "-").
  destruct (Ascii.eqb "/" x) eqn:A; [reflexivity|].
  destruct (Ascii.eqb "." x) eqn:B; [reflexivity|].
  cbn [orb]. reflexivity.
Qed.

Lemma relative_to_app (cwd l : path) : relative_to (cwd ++ l) cwd = Some l.
Proof.
  induction cwd as [|c cwd IH]; [now destruct l|].
  cbn [app relative_to]. destruct (text_eq_dec c c); [exact IH | congruence].
Qed.

Lemma dir_id_below (cwd l : path) :
  dir_id_of cwd (cwd ++ l)
  = map squash (match l with [] => txt "." | _ :: _ => join (txt "/") l end).
Proof.
  unfold dir_id_of. rewrite relative_to_app, sanitize_map. reflexivity.
Qed.

End IdFacts.

(** X17.  The identifier of a suite directory below the working directory
    is its relative path with every [/], [.] and [-] turned into [_]; the
    identifier of the working directory itself is [_].  So different
    directories can have the same identifier, and then the same generated
    suite file: [x/y] and [x_y], like [x-y] and [x.y], or the working
    directory and its subdirectory [_]. *)
Theorem X17_suite_identifiers_collide :
  forall (cwd : FS.path),
    (forall l, l <> [] ->
       Main.dir_id_of cwd (cwd ++ l)
       = map (fun c : ascii =>
                if (Ascii.eqb c "/" || Ascii.eqb c "." || Ascii.eqb c "-")%bool
                then "_"%char else c)
             (Text.join (txt "/") l))
    /\ Main.dir_id_of cwd cwd = txt "_"
    /\ Main.dir_id_of cwd (cwd ++ [txt "_"]) = txt "_"
    /\ (forall x y,
          Main.dir_id_of cwd (cwd ++ [x; y])
          = Main.dir_id_of cwd (cwd ++ [x ++ txt "_" ++ y]))
    /\ (forall x y,
          Main.dir_id_of cwd (cwd ++ [x ++ txt "-" ++ y])
          = Main.dir_id_of cwd (cwd ++ [x ++ txt "." ++ y])).
Proof.
  intros cwd. split; [|split; [|split; [|split]]].
  - intros l N. rewrite IdFacts.dir_id_below. destruct l; [contradiction | reflexivity].
  - rewrite <- (app_nil_r cwd) at 2. rewrite IdFacts.dir_id_below. reflexivity.
  - rewrite IdFacts.dir_id_below. reflexivity.
  - intros x y. rewrite !IdFacts.dir_id_below.
    cbn [Text.join]. rewrite !map_app. reflexivity.
  - intros x y. rewrite !IdFacts.dir_id_below.
    cbn [Text.join]. rewrite !map_app. reflexivity.
Qed.

Lemma X17_witness :
  [txt "a-b"; txt "c.d"] <> []
  /\ Main.dir_id_of [txt "w"] ([txt "w"] ++ [txt "a-b"; txt "c.d"]) = txt "a_b_c_d".
Proof.
  split; [discriminate|].
  rewrite (proj1 (X17_suite_identifiers_collide [txt "w"]) [txt "a-b"; txt "c.d"]);
    [reflexivity | discriminate].
Defined.

(** ** The end of the command *)

Module TailFacts.

Import Text TextFacts FS Run Simulators CmdFacts.



#[local] Abbreviation plus_of self :=
  (match kind self with Xsim => txt " --testplusarg " | _ => txt " +" end).







End TailFacts.



(** ** [main] without a simulator name, and [main] with Xsim *)

Module DetectFacts.

Import Text FS Run Discovery Simulators Main SelectFacts PhaseFacts MainFacts.
Local Open Scope run_scope.

#[local] Abbreviation probe sim := (txt "which " ++ sim ++ txt " > /dev/null 2>&1").

Lemma detect_env sims :
  forall w,
    w_exit (snd (detect_among sims w)) = w_exit w
    /\ w_cwd (snd (detect_among sims w)) = w_cwd w.
Proof.
  induction sims as [|sim sims IH]; intros w; [split; reflexivity|].
  cbn [detect_among]. unfold bind, call.
  set (w1 := mkWorld _ _ _ _ _ _ _).
  destruct (IH w1) as [A B].
  destruct (w_exit w (probe sim) =? 0).
  - destruct (of_launcher sim); [split; reflexivity|]. now rewrite A, B.
  - now rewrite A, B.
Qed.

Lemma detect_first_at sims before sim after s w :
  sims = before ++ sim :: after ->
  (forall x, In x before -> w_exit w (probe x) <> 0) ->
  w_exit w (probe sim) = 0 ->
  of_launcher sim = Some s ->
  fst (detect_among sims w) = Some (Some s)
  /\ w_launched (snd (detect_among sims w))
     = w_launched w ++ map (fun x => probe x) (before ++ [sim])
  /\ w_files (snd (detect_among sims w)) = w_files w
  /\ w_exit (snd (detect_among sims w)) = w_exit w.
Proof.
  intros -> N Z O.
  destruct (detect_first before sim after s w N Z O) as (A & B & C).
  destruct (detect_env (before ++ sim :: after) w) as [E _]. tauto.
Qed.

(** What [simulate] does when no simulator was named. *)
Lemma simulate_detect args outdir w :
  Simulators.truthy (simulator args) = false ->
  simulate args outdir w
  = match fst (detect_simulator w) with
    | Some None => (Some 1, snd (detect_simulator w))
    | Some (Some s) =>
        (r <- Simulators.run
                (Simulators.set_options s
                   (define args) (filelist args) (r_arg args) (c_arg args)
                   (e_arg args) (uvm args) (vhdlfile args) (logfile args)
                   (str outdir) (filter args) (list_tests args)) ;;
         if fst r then ret 0 else ret 1) (snd (detect_simulator w))
    | None => (None, snd (detect_simulator w))
    end.
Proof.
  intros T. unfold simulate. rewrite T. unfold bind at 1.
  destruct (detect_simulator w) as [[[s|]|] w1]; reflexivity.
Qed.

(** The run of the simulator that [main] has set up, after the
    generation. *)
Lemma run_after_generation args s outdir suites w0 w1 w2 :
  components (str outdir) = outdir ->
  generate args outdir suites w0 = (Some tt, w1) ->
  w_files w2 = w_files w1 ->
  ~ (kind s = Verilator
     /\ (uvm args = true \/ Simulators.truthy (vhdlfile args) = true)) ->
  exists cmd w3,
    (r <- Simulators.run
            (Simulators.set_options s
               (define args) (filelist args) (r_arg args) (c_arg args)
               (e_arg args) (uvm args) (vhdlfile args) (logfile args)
               (str outdir) (filter args) (list_tests args)) ;;
     if fst r then ret 0 else ret 1) w2
    = (Some (if w_exit w2 cmd =? 0 then 0 else 1), w3)
    /\ w_launched w3 = w_launched w2 ++ [cmd]
    /\ contains (txt " -f .svunit.f") cmd = true.
Proof.
  intros C G Fi NR.
  set (self := Simulators.set_options s _ _ _ _ _ _ _ _ _ _ _).
  destruct (run_returns self w2) as ([ok self'] & w3 & Rn).
  { intros _.
    rewrite (PathFacts.svunit_f_path_of_str self outdir (w_cwd w2) C eq_refl).
    destruct (generate_inv _ _ _ _ _ G) as (_ & _ & M & _).
    rewrite Fi. exact M. }
  destruct (RunCmdFacts.run_one_command self w2 ok self' w3 Rn NR)
    as (cmd & L & O & Cn & _).
  exists cmd, w3. unfold bind. rewrite Rn. cbn [fst]. rewrite <- O.
  split; [destruct ok; reflexivity|]. split; [exact L | exact Cn].
Qed.

End DetectFacts.

(** X19.  Without a simulator name, [main] looks for a launcher after the
    generation, with one [which] command for each of [xrun], [irun],
    [qrun], [vsim], [vcs], [dsim], [verilator], [xsim] in this order.  When
    none is there, [main] returns 1 and these eight commands are all it has
    started.  When one is there, the commands up to the first such one are
    started, then the one command of its backend (unless it is Verilator
    refusing the options), and [main] returns 0 when the exit status of
    that command is 0 and 1 when it is not. *)
Theorem X19_main_detects_when_no_simulator_is_named :
  forall (args : Main.Args) (w : Run.world),
    Simulators.truthy (Main.simulator args) = false ->
    FS.components (FS.str (Run.w_cwd w)) = Run.w_cwd w ->
    let discovery :=
      Discovery.discover (Run.w_root w)
        (Discovery.mkTestDiscovery
           (Main.search_directories (Run.w_cwd w) (Main.directory args))
           (Main.tests args) []) in
    Discovery.found_tests discovery <> [] ->
    (forall p, In p (Discovery.found_tests discovery) ->
               fst (Run.read_file p w) <> None) ->
    let probe := fun sim => txt "which " ++ sim ++ txt " > /dev/null 2>&1" in
    let sims := [txt "xrun"; txt "irun"; txt "qrun"; txt "vsim"; txt "vcs";
                 txt "dsim"; txt "verilator"; txt "xsim"] in
    ((forall sim, In sim sims -> Run.w_exit w (probe sim) <> 0) ->
     exists w',
       Main.main args w = (Some 1, w')
       /\ Run.w_launched w' = Run.w_launched w ++ map probe sims)
    /\ (forall before sim after s,
          sims = before ++ sim :: after ->
          (forall x, In x before -> Run.w_exit w (probe x) <> 0) ->
          Run.w_exit w (probe sim) = 0 ->
          Simulators.of_launcher sim = Some s ->
          ~ (Simulators.kind s = Simulators.Verilator
             /\ (Main.uvm args = true
                 \/ Simulators.truthy (Main.vhdlfile args) = true)) ->
          exists cmd w',
            Main.main args w
            = (Some (if Run.w_exit w cmd =? 0 then 0 else 1), w')
            /\ Run.w_launched w'
               = Run.w_launched w ++ map probe (before ++ [sim]) ++ [cmd]
            /\ Text.contains (txt " -f .svunit.f") cmd = true).
Proof.
  intros args w T C discovery F R probe sims. subst probe sims.
  destruct (MainFacts.main_generates args w F R) as (w0 & w1 & E & G & C0 & L & X).
  rewrite E, (DetectFacts.simulate_detect args _ w1 T).
  unfold Simulators.detect_simulator. split.
  - intros N. cbv beta in N.
    match goal with
    | |- context [Simulators.detect_among ?l w1] =>
        destruct (SelectFacts.detect_none l w1) as (A & B & _)
    end.
    { intros sim I. rewrite X. now apply N. }
    rewrite A. eexists. split; [reflexivity|]. rewrite B, L. reflexivity.
  - intros before sim after s S N Z O NR. cbv beta in N, Z.
    destruct (DetectFacts.detect_first_at _ before sim after s w1 S)
      as (A & B & Fi & Ex);
      [intros x I; rewrite X; now apply N | now rewrite X | exact O |].
    rewrite A.
    match goal with
    | |- context [snd (Simulators.detect_among ?l w1)] =>
        destruct (DetectFacts.run_after_generation args s _ _ w0 w1
                    (snd (Simulators.detect_among l w1))
                    (PathFacts.div_normal _ (Main.outdir args) C) G Fi NR)
          as (cmd & w3 & Rn & L3 & Cn)
    end.
    exists cmd, w3. rewrite Rn, Ex, X.
    split; [reflexivity|]. split; [|exact Cn].
    rewrite L3, B, L. now rewrite <- app_assoc.
Qed.

Lemma X19_witness :
  let root :=
    FS.Dir [] [FS.Dir (txt "w")
                 [FS.File (txt "foo_unit_test.sv") (txt "module foo_unit_test;")]] in
  let w := Run.mkWorld root [txt "w"] (txt "/opt/svunit") [] [] [] (fun _ => 1) in
  let args := Main.mkArgs None (txt "run.log") None None false
                          None None None (txt ".") None None None None false false in
  exists w',
    Main.main args w = (Some 1, w')
    /\ Run.w_launched w'
       = Run.w_launched w
         ++ map (fun sim => txt "which " ++ sim ++ txt " > /dev/null 2>&1")
                [txt "xrun"; txt "irun"; txt "qrun"; txt "vsim"; txt "vcs";
                 txt "dsim"; txt "verilator"; txt "xsim"].
Proof.
  cbv zeta.
  match goal with
  | |- exists w', Main.main ?args ?w = _ /\ _ =>
      refine (proj1 (X19_main_detects_when_no_simulator_is_named
                       args w eq_refl eq_refl _ _) _)
  end.
  - vm_compute. discriminate.
  - intros p I. vm_compute in I. destruct I as [<-|[]]. vm_compute. discriminate.
  - intros sim _. cbn. discriminate.
Defined.

(** X20.  With Xsim named, tests found that can be read and a normal
    working directory, [main] returns, and the manifest it leaves is the
    rewritten one: it begins with [--include ] and holds no [+incdir+]. *)
Theorem X20_main_with_xsim_leaves_the_rewritten_manifest :
  forall (args : Main.Args) (w : Run.world) (name : text) (s : Simulators.Simulator),
    Main.simulator args = Some name ->
    name <> [] ->
    Simulators.get_simulator name = Some s ->
    Simulators.kind s = Simulators.Xsim ->
    FS.components (FS.str (Run.w_cwd w)) = Run.w_cwd w ->
    let discovery :=
      Discovery.discover (Run.w_root w)
        (Discovery.mkTestDiscovery
           (Main.search_directories (Run.w_cwd w) (Main.directory args))
           (Main.tests args) []) in
    let outdir := FS.div (Run.w_cwd w) (Main.outdir args) in
    Discovery.found_tests discovery <> [] ->
    (forall p, In p (Discovery.found_tests discovery) ->
               fst (Run.read_file p w) <> None) ->
    exists c w' content,
      Main.main args w = (Some c, w')
      /\ Run.content_of w' (outdir ++ [txt ".svunit.f"]) = Some content
      /\ Text.starts_with (txt "--include ") content = true
      /\ Text.contains (txt "+incdir+") content = false.
Proof.
  intros args w name s S N K Kx C discovery outdir F R.
  destruct (MainFacts.main_generates args w F R) as (w0 & w1 & E & G & C0 & L & X).
  rewrite E, (MainFacts.simulate_named args _ name w1 S N), K.
  set (self := Simulators.set_options s _ _ _ _ _ _ _ _ _ _ _).
  assert (P : forall cwd,
             Simulators.svunit_f_path self cwd = outdir ++ [txt ".svunit.f"]).
  { intros cwd. apply PathFacts.svunit_f_path_of_str; [|reflexivity].
    now apply PathFacts.div_normal. }
  destruct (PhaseFacts.generate_inv _ _ _ _ _ G) as (_ & _ & M & _).
  fold outdir in M.
  destruct (MainFacts.run_returns self w1) as ([ok self'] & w2 & Rn).
  { intros _. now rewrite P. }
  pose proof (ManifestFacts.generate_added _ _ _ _ _ G) as W.
  fold outdir in W.
  destruct (Run.store_get (outdir ++ [txt ".svunit.f"]) (Run.w_files w1))
    as [chunks|] eqn:Sg; [|contradiction].
  assert (Rd : fst (Run.read_file (Simulators.svunit_f_path self (Run.w_cwd w1)) w1)
               = Some (concat chunks)).
  { rewrite P. unfold Run.read_file. now rewrite Sg. }
  pose proof Rn as Rx. unfold Simulators.run in Rx.
  change (Simulators.kind self) with (Simulators.kind s) in Rx. rewrite Kx in Rx.
  pose proof (RunCmdFacts.xsim_run_manifest self w1 _ w2 _ Rx Rd) as Ct.
  rewrite P in Ct.
  exists (if ok then 0 else 1), w2, (Simulators.xsim_rewrite (concat chunks)).
  split; [unfold Run.bind; rewrite Rn; destruct ok; reflexivity|].
  split; [exact Ct|]. split.
  - unfold Run.writes_of in W. rewrite Sg in W.
    assert (Hc : exists rest, concat chunks = txt "+incdir+" ++ rest).
    { rewrite W. cbn [app concat]. rewrite <- app_assoc. eexists. reflexivity. }
    destruct Hc as [rest Hc]. rewrite Hc.
    assert (Q : Simulators.xsim_rewrite (txt "+incdir+" ++ rest)
                = txt "--include " ++ Simulators.xsim_rewrite rest).
    { exact (TextFacts.replace_from_first (txt "+incdir+") (txt "--include ")
               [] rest ltac:(discriminate) eq_refl). }
    rewrite Q. apply TextFacts.starts_with_refl_app.
  - unfold Simulators.xsim_rewrite, Text.replace.
    apply (TextFacts.replaced_has_no_occurrence
             "+"%char "-"%char (txt "incdir+") (txt "-include ")); reflexivity.
Qed.

Lemma X20_witness :
  let root :=
    FS.Dir [] [FS.Dir (txt "w")
                 [FS.File (txt "foo_unit_test.sv") (txt "module foo_unit_test;")]] in
  let w := Run.mkWorld root [txt "w"] (txt "/opt/svunit") [] [] [] (fun _ => 0) in
  let args := Main.mkArgs (Some (txt "xsim")) (txt "run.log") None None false
                          None None None (txt ".") None None None None false false in
  exists c w' content,
    Main.main args w = (Some c, w')
    /\ Run.content_of w' [txt "w"; txt ".svunit.f"] = Some content
    /\ Text.starts_with (txt "--include ") content = true
    /\ Text.contains (txt "+incdir+") content = false.
Proof.
  cbv zeta.
  match goal with
  | |- exists c w' content, Main.main ?args ?w = _ /\ _ =>
      refine (X20_main_with_xsim_leaves_the_rewritten_manifest
                args w (txt "xsim") (Simulators.new Simulators.Xsim)
                eq_refl _ eq_refl eq_refl eq_refl _ _)
  end.
  - discriminate.
  - vm_compute. discriminate.
  - intros p I. vm_compute in I. destruct I as [<-|[]]. vm_compute. discriminate.
Defined.

(** ** The output directory, and what a command does not depend on *)

Module MadeFacts.

Import Text FS Run Discovery Simulators Main RunFacts PhaseFacts.
Local Open Scope run_scope.

Lemma rewrite_manifest_made self w :
  w_made (snd (Xsim_rewrite_manifest self w)) = w_made w.
Proof.
  destruct (fst (read_file (svunit_f_path self (w_cwd w)) w)) as [c|] eqn:R.
  - now rewrite (XsimFacts.rewrite_manifest_readable self w c R).
  - now rewrite (XsimFacts.rewrite_manifest_unreadable self w R).
Qed.

Lemma run_made self w r w' :
  Simulators.run self w = (Some r, w') -> w_made w' = w_made w.
Proof.
  intros H. unfold Simulators.run in H. destruct (kind self).
  - unfold ModelSim_run, bind, _run_command, call, ret in H. cbv zeta in H.
    now injection H as _ <-.
  - unfold Irun_run, bind, _run_command, call, ret in H. cbv zeta in H.
    now injection H as _ <-.
  - unfold Irun_run, bind, _run_command, call, ret in H. cbv zeta in H.
    now injection H as _ <-.
  - unfold Vcs_run, bind, _run_command, call, ret in H. cbv zeta in H.
    now injection H as _ <-.
  - unfold Verilator_run in H.
    destruct (Simulators.uvm self); [now injection H as _ <-|].
    destruct (Simulators.truthy _); [now injection H as _ <-|].
    unfold bind, _run_command, call, ret in H. cbv zeta in H.
    now injection H as _ <-.
  - unfold Xsim_run in H. unfold bind at 1 in H.
    pose proof (rewrite_manifest_made self w) as Md.
    destruct (Xsim_rewrite_manifest self w) as [[[]|] w1]; [|discriminate H].
    cbn [snd] in Md.
    unfold bind, _run_command, call, ret in H. cbv zeta in H.
    injection H as _ <-. exact Md.
  - unfold Dsim_run, bind, _run_command, call, ret in H. cbv zeta in H.
    now injection H as _ <-.
  - unfold Qrun_run, bind, _run_command, call, ret in H. cbv zeta in H.
    now injection H as _ <-.
Qed.

Lemma detect_made sims :
  forall w, w_made (snd (detect_among sims w)) = w_made w.
Proof.
  induction sims as [|sim sims IH]; intros w; [reflexivity|].
  cbn [detect_among]. unfold bind, call.
  set (w1 := mkWorld _ _ _ _ _ _ _).
  pose proof (IH w1) as A.
  destruct (w_exit w _ =? 0).
  - destruct (of_launcher sim); [reflexivity | exact A].
  - exact A.
Qed.

Lemma simulate_made args outdir w c w' :
  simulate args outdir w = (Some c, w') -> w_made w' = w_made w.
Proof.
  unfold simulate. intros H. apply bind_some in H as (o & w1 & E & H).
  assert (M1 : w_made w1 = w_made w).
  { destruct (Simulators.truthy (simulator args)).
    - now injection E as _ <-.
    - pose proof (detect_made
                    [txt "xrun"; txt "irun"; txt "qrun"; txt "vsim"; txt "vcs";
                     txt "dsim"; txt "verilator"; txt "xsim"] w) as D.
      unfold detect_simulator in E. rewrite E in D. exact D. }
  destruct o as [s|]; [|injection H as _ <-; exact M1].
  apply bind_some in H as (r & w2 & Rn & H).
  apply run_made in Rn.
  destruct (fst r); injection H as _ <-; congruence.
Qed.

(** [main] makes the output directory when it is not there, and no other
    directory. *)
Lemma main_made args w c w' :
  main args w = (Some c, w') ->
  w_made w'
  = match fst (path_exists (div (w_cwd w) (outdir args)) w) with
    | Some false => w_made w ++ [div (w_cwd w) (outdir args)]
    | _ => w_made w
    end.
Proof.
  intros H. unfold main in H. unfold bind at 1, get_cwd in H.
  apply bind_some in H as (e & w1 & E & H).
  apply bind_some in H as (u & w2 & Mk & H).
  rewrite E. cbn [fst].
  assert (W1 : w1 = w) by (unfold path_exists in E; now injection E as _ <-).
  subst w1.
  assert (M2 : w_made w2
               = if e then w_made w
                 else w_made w ++ [div (w_cwd w) (outdir args)]).
  { destruct e; [now injection Mk as _ <-|].
    unfold mkdir in Mk. now injection Mk as _ <-. }
  unfold bind at 1, get_root in H.
  match type of H with
  | match ?l with [] => _ | _ :: _ => _ end _ = _ => destruct l
  end.
  - injection H as _ <-. destruct e; exact M2.
  - apply bind_some in H as ([] & w3 & G & H).
    apply generate_inv in G as ((_ & _ & _ & Md & _) & _).
    apply simulate_made in H. destruct e; congruence.
Qed.

(** The name of the simulator, and for three backends its executable, do
    not reach the command. *)
#[local] Abbreviation outcome r :=
  (option_map (fun x : bool * Simulator => fst x) (fst r), w_launched (snd r),
   w_files (snd r)).

Ltac same_command sa :=
  unfold ModelSim_run, Irun_run, Vcs_run, Dsim_run, Qrun_run; cbv zeta;
  unfold append_uvm_define, set_defines; cbn [Simulators.uvm sim_args];
  try (destruct (existsb is_mode_flag sa); cbn [negb]);
  reflexivity.

Lemma run_ignores_name k n1 n2 e d f sa ca ea u v l o fi lt w :
  outcome (Simulators.run (mkSimulator k n1 e d f sa ca ea u v l o fi lt) w)
  = outcome (Simulators.run (mkSimulator k n2 e d f sa ca ea u v l o fi lt) w).
Proof.
  unfold Simulators.run. cbn [kind]. destruct k, u; try same_command sa.
  - unfold Verilator_run. cbn [Simulators.uvm vhdl_file].
    destruct (Simulators.truthy v); reflexivity.
  - unfold Xsim_run, bind.
    change (Xsim_rewrite_manifest (mkSimulator Xsim n1 e d f sa ca ea true v l o fi lt) w)
      with (Xsim_rewrite_manifest (mkSimulator Xsim n2 e d f sa ca ea true v l o fi lt) w).
    destruct (Xsim_rewrite_manifest _ w) as [[[]|] w1]; reflexivity.
  - unfold Xsim_run, bind.
    change (Xsim_rewrite_manifest (mkSimulator Xsim n1 e d f sa ca ea false v l o fi lt) w)
      with (Xsim_rewrite_manifest (mkSimulator Xsim n2 e d f sa ca ea false v l o fi lt) w).
    destruct (Xsim_rewrite_manifest _ w) as [[[]|] w1]; reflexivity.
Qed.

Lemma run_ignores_executable k n e1 e2 d f sa ca ea u v l o fi lt w :
  k = ModelSim \/ k = Verilator \/ k = Xsim ->
  outcome (Simulators.run (mkSimulator k n e1 d f sa ca ea u v l o fi lt) w)
  = outcome (Simulators.run (mkSimulator k n e2 d f sa ca ea u v l o fi lt) w).
Proof.
  unfold Simulators.run. cbn [kind]. intros [->|[->| ->]]; destruct u;
    try same_command sa.
  - unfold Verilator_run. cbn [Simulators.uvm vhdl_file].
    destruct (Simulators.truthy v); reflexivity.
  - unfold Xsim_run, bind.
    change (Xsim_rewrite_manifest (mkSimulator Xsim n e1 d f sa ca ea true v l o fi lt) w)
      with (Xsim_rewrite_manifest (mkSimulator Xsim n e2 d f sa ca ea true v l o fi lt) w).
    destruct (Xsim_rewrite_manifest _ w) as [[[]|] w1]; reflexivity.
  - unfold Xsim_run, bind.
    change (Xsim_rewrite_manifest (mkSimulator Xsim n e1 d f sa ca ea false v l o fi lt) w)
      with (Xsim_rewrite_manifest (mkSimulator Xsim n e2 d f sa ca ea false v l o fi lt) w).
    destruct (Xsim_rewrite_manifest _ w) as [[[]|] w1]; reflexivity.
Qed.

End MadeFacts.

(** X21.  When [main] returns, the one directory it has asked to be made
    (with its parents) is the output directory, and only if that was not
    there; it asks before looking for tests, so also when none is found. *)
Theorem X21_main_makes_only_the_output_directory :
  forall (args : Main.Args) (w : Run.world) (c : nat) (w' : Run.world),
    Main.main args w = (Some c, w') ->
    let outdir := FS.div (Run.w_cwd w) (Main.outdir args) in
    Run.w_made w'
    = match fst (Run.path_exists outdir w) with
      | Some false => Run.w_made w ++ [outdir]
      | _ => Run.w_made w
      end.
Proof. intros args w c w' H outdir. exact (MadeFacts.main_made args w c w' H). Qed.

Lemma X21_witness :
  let w := Run.mkWorld (FS.Dir [] [FS.Dir (txt "w") [FS.File (txt "a.sv") []]])
                       [txt "w"] (txt "/opt/svunit") [] [] [] (fun _ => 0) in
  let args := Main.mkArgs None (txt "run.log") None None false None None None
                          (txt "out/deep") None None None None false false in
  Run.w_made (snd (Main.main args w)) = [[txt "w"; txt "out"; txt "deep"]].
Proof.
  cbv zeta.
  match goal with
  | |- Run.w_made (snd (Main.main ?args ?w)) = _ =>
      destruct (Main.main args w) as [[c|] w'] eqn:E;
      [ | vm_compute in E; discriminate E ];
      exact (X21_main_makes_only_the_output_directory args w c w' E)
  end.
Defined.

(** X22.  The name of a simulator never reaches its run: two simulators
    that differ in the name only start the same commands, give the same
    answer and leave the same files.  For ModelSim, Verilator and Xsim the
    same holds of the executable; so [riviera] runs as [modelsim] does. *)
Theorem X22_run_ignores_the_name :
  forall k n1 n2 e1 e2 d f sa ca ea u v l o fi lt (w : Run.world),
    let outcome := fun r : option (bool * Simulators.Simulator) * Run.world =>
      (option_map (fun x : bool * Simulators.Simulator => fst x) (fst r),
       Run.w_launched (snd r), Run.w_files (snd r)) in
    outcome (Simulators.run
               (Simulators.mkSimulator k n1 e1 d f sa ca ea u v l o fi lt) w)
    = outcome (Simulators.run
                 (Simulators.mkSimulator k n2 e1 d f sa ca ea u v l o fi lt) w)
    /\ (k = Simulators.ModelSim \/ k = Simulators.Verilator \/ k = Simulators.Xsim ->
        outcome (Simulators.run
                   (Simulators.mkSimulator k n1 e1 d f sa ca ea u v l o fi lt) w)
        = outcome (Simulators.run
                     (Simulators.mkSimulator k n2 e2 d f sa ca ea u v l o fi lt) w))
    /\ (forall defines filelists sim_args compile_args elab_args uvm vhdl_file
               logfile outdir filter list_tests,
          outcome (Simulators.run
                     (Simulators.set_options
                        (Simulators.init Simulators.ModelSim (txt "riviera") (txt "vsim"))
                        defines filelists sim_args compile_args elab_args uvm
                        vhdl_file logfile outdir filter list_tests) w)
          = outcome (Simulators.run
                       (Simulators.set_options (Simulators.new Simulators.ModelSim)
                          defines filelists sim_args compile_args elab_args uvm
                          vhdl_file logfile outdir filter list_tests) w)).
Proof.
  intros k n1 n2 e1 e2 d f sa ca ea u v l o fi lt w outcome. subst outcome.
  cbv beta. split; [|split].
  - exact (MadeFacts.run_ignores_name k n1 n2 e1 d f sa ca ea u v l o fi lt w).
  - intros K.
    rewrite (MadeFacts.run_ignores_name k n1 n2 e1 d f sa ca ea u v l o fi lt w).
    exact (MadeFacts.run_ignores_executable k n2 e1 e2 d f sa ca ea u v l o fi lt w K).
  - intros defines filelists sim_args compile_args elab_args uvm vhdl_file
           logfile outdir filter list_tests.
    exact (MadeFacts.run_ignores_name Simulators.ModelSim (txt "riviera")
             (txt "modelsim") (txt "vsim") _ _ _ _ _ _ _ _ _ _ _ w).
Qed.

Lemma X22_witness :
  let w := Run.mkWorld (FS.Dir [] []) [txt "w"] (txt "/opt/svunit") [] [] []
                       (fun _ => 0) in
  Run.w_launched
    (snd (Simulators.run
            (Simulators.mkSimulator Simulators.Xsim (txt "xsim") (txt "xsim")
               [] [] [] [] [] false None (txt "run.log") (txt ".") None false) w))
  = Run.w_launched
      (snd (Simulators.run
              (Simulators.mkSimulator Simulators.Xsim (txt "x") (txt "/opt/xsim")
                 [] [] [] [] [] false None (txt "run.log") (txt ".") None false) w)).
Proof.
  cbv zeta.
  match goal with
  | |- Run.w_launched (snd (Simulators.run ?s1 ?w))
       = Run.w_launched (snd (Simulators.run ?s2 ?w)) =>
      exact (f_equal (fun t => snd (fst t))
               (proj1 (proj2 (X22_run_ignores_the_name
                                Simulators.Xsim (txt "xsim") (txt "x") (txt "xsim")
                                (txt "/opt/xsim") [] [] [] [] [] false None
                                (txt "run.log") (txt ".") None false w))
                  (or_intror (or_intror eq_refl))))
  end.
Defined.
